(** * IndiGo crew-roster dashboard: orchestration, filter and analytics core

    A shallow embedding of the client-side logic of the dashboard
    (TypeScript/React): the crew and flight filters and the options of their
    controls, the roster analytics (violation histogram, duty hours, the
    span of the flight data), the roster page's generate and delete
    handlers, the disruption chat state machine and the rendering of its
    messages, the per-crew detail fetch and the crew dialog of the crew
    list.  Component state is a record, a state setter is a record update,
    an [await] is a suspension point of a small process, and a thrown
    exception is the [Throw] completion. *)

From Stdlib Require Import String Ascii ZArith NArith Bool Lia PeanoNat.
From Stdlib Require Import DecimalString.
From Stdlib Require Import List Permutation.
From Stdlib Require Import Floats.SpecFloat.
Import ListNotations.

Set Implicit Arguments.

(* ================================================================== *)
(** * JavaScript values used by the components *)
(* ================================================================== *)

Module JS.

(** A JavaScript string is a sequence of UTF-16 code units. *)
Definition jsstring := list N.

Definition jsstring_eq_dec : forall a b : jsstring, {a = b} + {a <> b} :=
  list_eq_dec N.eq_dec.

Definition str_eqb (a b : jsstring) : bool :=
  if jsstring_eq_dec a b then true else false.

(** Source literals (all of them ASCII) as code-unit sequences. *)
Definition lit (s : string) : jsstring :=
  map N_of_ascii (list_ascii_of_string s).

(** A field of a JSON payload: [None] when it is absent, [undefined] or
    [null]. *)
Definition field := option jsstring.

(** Completions: a JavaScript expression either yields a value or throws. *)
Inductive exn := TypeError | SyntaxError | NetworkError.

Inductive completion (A : Type) :=
| Normal (a : A)
| Throw (e : exn).
Arguments Normal {A} a.
Arguments Throw {A} e.

Definition bind {A B} (c : completion A) (k : A -> completion B) : completion B :=
  match c with
  | Normal a => k a
  | Throw e => Throw e
  end.

Definition ret {A} (a : A) : completion A := Normal a.

(** Reading a member of a possibly missing value: [x.f] where [x] is
    [undefined] or [null] throws a TypeError. *)
Definition deref {A} (x : option A) : completion A :=
  match x with
  | Some a => Normal a
  | None => Throw TypeError
  end.

(** [v || d] for an optional array: arrays are always truthy. *)
Definition or_empty {A} (x : option (list A)) : list A :=
  match x with
  | Some l => l
  | None => []
  end.

(** [String.prototype.startsWith]-like prefix test on code units. *)
Fixpoint prefix (p s : jsstring) : bool :=
  match p, s with
  | [], _ => true
  | _ :: _, [] => false
  | a :: p', b :: s' => N.eqb a b && prefix p' s'
  end.

(** [String.prototype.includes]: some suffix of [s] starts with [sub]. *)
Fixpoint includes (s sub : jsstring) : bool :=
  prefix sub s ||
  match s with
  | [] => false
  | _ :: s' => includes s' sub
  end.

(** ECMAScript WhiteSpace and LineTerminator code units, the characters
    removed by [String.prototype.trim]. *)
Definition is_whitespace (c : N) : bool :=
  existsb (N.eqb c)
    [9; 10; 11; 12; 13; 32; 160; 5760; 8192; 8193; 8194; 8195; 8196; 8197;
     8198; 8199; 8200; 8201; 8202; 8232; 8233; 8239; 8287; 12288; 65279]%N.

Fixpoint trimStart (s : jsstring) : jsstring :=
  match s with
  | c :: s' => if is_whitespace c then trimStart s' else s
  | [] => []
  end.

Definition trimEnd (s : jsstring) : jsstring := rev (trimStart (rev s)).

Definition trim (s : jsstring) : jsstring := trimEnd (trimStart s).

(** Truthiness of a string: only the empty string is falsy. *)
Definition truthy_str (s : jsstring) : bool :=
  match s with
  | [] => false
  | _ => true
  end.

(** Array.prototype.filter with a callback that may throw: the callback is
    run on the elements from left to right and the first exception aborts
    the whole call. *)
Fixpoint filterM {A} (p : A -> completion bool) (l : list A) : completion (list A) :=
  match l with
  | [] => Normal []
  | x :: l' =>
      bind (p x) (fun b =>
      bind (filterM p l') (fun r =>
      ret (if b then x :: r else r)))
  end.

(** [Number.prototype.toString] on an integral Number: its decimal digits,
    with a minus sign when negative. *)
Definition Number_toString (z : Z) : jsstring :=
  lit (NilZero.string_of_int (Z.to_int z)).

End JS.
Import JS.

(* ================================================================== *)
(** * HTTP answers *)
(* ================================================================== *)

Module Http.

(** What an awaited [fetch] resolves to: the [ok] flag of the status (true
    for 2xx) and the outcome of [response.json()], which throws on a body
    that is not JSON. *)
Record response (A : Type) := {
  ok : bool;
  json : completion A
}.
Arguments ok {A} r.
Arguments json {A} r.

(** The outcome of a request: a response, or [Throw] when the fetch is
    rejected (the request never completed). *)
Definition answer (A : Type) := completion (response A).

(** [const response = await fetch(...); const data = await response.json()]
    with no look at the status: what such a caller gets. *)
Definition body_of {A} (a : answer A) : completion A :=
  bind a (fun resp => json resp).

(** The request failed: it never completed, or it was answered with a
    status that is not 2xx, or its body did not parse. *)
Definition failed {A} (a : answer A) : bool :=
  match a with
  | Normal resp =>
      negb (ok resp) || match json resp with
                        | Normal _ => false
                        | Throw _ => true
                        end
  | Throw _ => true
  end.

(** The failure reaches a caller that does not read the status: the fetch
    is rejected or the body does not parse. *)
Definition throws {A} (a : answer A) : bool :=
  match body_of a with
  | Normal _ => false
  | Throw _ => true
  end.

End Http.

Notation "x <- c ;; k" := (bind c (fun x => k))
  (at level 61, c at next level, right associativity).

(* ================================================================== *)
(** * Data model (the interfaces declared by the components) *)
(* ================================================================== *)

(** [interface CrewMember] of the crew list and of the detail modal.  The
    payload comes from [response.json()], so a field may be missing
    whatever the interface says: every field is optional here. *)
Record CrewMember := {
  Crew_ID : field;
  Name : field;
  Base : field;
  Rank : field;
  Qualification : field;
  Aircraft_Type_License : field;
  Leave_Start : field;
  Leave_End : field
}.

Definition field_eq_dec : forall a b : field, {a = b} + {a <> b}.
Proof. decide equality; apply jsstring_eq_dec. Defined.


(** [x === s] for an optional field [x] and a string [s]. *)
Definition strict_eq (x : field) (s : jsstring) : bool :=
  match x with
  | Some v => str_eqb v s
  | None => false
  end.

(* ================================================================== *)
(** * Filter engine *)
(* ================================================================== *)

Section TextSearch.

(** [String.prototype.toLowerCase] is the runtime's Unicode case mapping;
    the filters only ever compare its results, so it is kept abstract. *)
Variable toLowerCase : jsstring -> jsstring.

(** [s.f.toLowerCase().includes(term.toLowerCase())] on a possibly missing
    field [s.f]. *)
Definition lower_includes (x : field) (term : jsstring) : completion bool :=
  v <- deref x ;;
  ret (includes (toLowerCase v) (toLowerCase term)).

(** [a || b] on throwing boolean operands: [b] is evaluated only when [a]
    is false. *)
Definition orelse (a : completion bool) (b : completion bool) : completion bool :=
  x <- a ;; if x then ret true else b.

End TextSearch.

Module CrewFilter.
Section Filters.

Variable toLowerCase : jsstring -> jsstring.

(** ** The crew list with the detail modal ([filterCrewMembers], state
    variables [selectedBase], [selectedRank], [selectedAircraft]) *)

Record Criteria := {
  searchTerm : jsstring;
  selectedBase : jsstring;
  selectedRank : jsstring;
  selectedAircraft : jsstring
}.

Definition search_callback (term : jsstring) (crew : CrewMember) : completion bool :=
  orelse (lower_includes toLowerCase (Name crew) term)
         (lower_includes toLowerCase (Crew_ID crew) term).

Definition base_callback (b : jsstring) (crew : CrewMember) : completion bool :=
  ret (strict_eq (Base crew) b).

Definition rank_callback (r : jsstring) (crew : CrewMember) : completion bool :=
  ret (strict_eq (Rank crew) r).

Definition aircraft_callback (a : jsstring) (crew : CrewMember) : completion bool :=
  lic <- deref (Aircraft_Type_License crew) ;;
  ret (includes lic a).

(** The value handed to [setFilteredCrew], or the exception that escapes. *)
Definition filterCrewMembers (crewMembers : list CrewMember) (c : Criteria)
  : completion (list CrewMember) :=
  let filtered := crewMembers in
  filtered <- (if truthy_str (searchTerm c)
               then filterM (search_callback (searchTerm c)) filtered
               else ret filtered) ;;
  filtered <- (if negb (str_eqb (selectedBase c) (lit "all"))
               then filterM (base_callback (selectedBase c)) filtered
               else ret filtered) ;;
  filtered <- (if negb (str_eqb (selectedRank c) (lit "all"))
               then filterM (rank_callback (selectedRank c)) filtered
               else ret filtered) ;;
  filtered <- (if negb (str_eqb (selectedAircraft c) (lit "all"))
               then filterM (aircraft_callback (selectedAircraft c)) filtered
               else ret filtered) ;;
  ret filtered.

(** [clearFilters]: the criteria with nothing constrained. *)
Definition clearFilters : Criteria :=
  {| searchTerm := lit ""; selectedBase := lit "all";
     selectedRank := lit "all"; selectedAircraft := lit "all" |}.

(** ** The crew list of [src/components/CrewList.tsx] (state variables
    [baseFilter], [rankFilter], [aircraftFilter], here under the names of
    [Criteria]): a categorical criterion is also skipped when its value is
    the empty string. *)

Definition filterCrewMembers_CrewList (crewMembers : list CrewMember) (c : Criteria)
  : completion (list CrewMember) :=
  let filtered := crewMembers in
  filtered <- (if truthy_str (searchTerm c)
               then filterM (search_callback (searchTerm c)) filtered
               else ret filtered) ;;
  filtered <- (if truthy_str (selectedBase c) && negb (str_eqb (selectedBase c) (lit "all"))
               then filterM (base_callback (selectedBase c)) filtered
               else ret filtered) ;;
  filtered <- (if truthy_str (selectedRank c) && negb (str_eqb (selectedRank c) (lit "all"))
               then filterM (rank_callback (selectedRank c)) filtered
               else ret filtered) ;;
  filtered <- (if truthy_str (selectedAircraft c) && negb (str_eqb (selectedAircraft c) (lit "all"))
               then filterM (aircraft_callback (selectedAircraft c)) filtered
               else ret filtered) ;;
  ret filtered.

(** ** Criteria that constrain chosen fields *)

Inductive crit_field := FSearch | FBase | FRank | FAircraft.


(** The criteria [c] with field [f] set to [v]. *)
Definition constrain (f : crit_field) (v : jsstring) (c : Criteria) : Criteria :=
  match f with
  | FSearch => {| searchTerm := v; selectedBase := selectedBase c;
                  selectedRank := selectedRank c; selectedAircraft := selectedAircraft c |}
  | FBase => {| searchTerm := searchTerm c; selectedBase := v;
                selectedRank := selectedRank c; selectedAircraft := selectedAircraft c |}
  | FRank => {| searchTerm := searchTerm c; selectedBase := selectedBase c;
                selectedRank := v; selectedAircraft := selectedAircraft c |}
  | FAircraft => {| searchTerm := searchTerm c; selectedBase := selectedBase c;
                    selectedRank := selectedRank c; selectedAircraft := v |}
  end.



(** A crew member every filtered field of which is present. *)
Definition well_typed_crew (crew : CrewMember) : Prop :=
  Name crew <> None /\ Crew_ID crew <> None /\ Aircraft_Type_License crew <> None.


(** ** The pipeline stage by stage

    [filterCrewMembers] is four guarded [filter] calls in a row; [stage f]
    is the one that looks at criterion [f]. *)

Definition value_of (f : crit_field) (c : Criteria) : jsstring :=
  match f with
  | FSearch => searchTerm c
  | FBase => selectedBase c
  | FRank => selectedRank c
  | FAircraft => selectedAircraft c
  end.

(** The guard of the stage: does the criterion constrain anything? *)
Definition active (f : crit_field) (v : jsstring) : bool :=
  match f with
  | FSearch => truthy_str v
  | _ => negb (str_eqb v (lit "all"))
  end.

Definition callback (f : crit_field) (v : jsstring) : CrewMember -> completion bool :=
  match f with
  | FSearch => search_callback v
  | FBase => base_callback v
  | FRank => rank_callback v
  | FAircraft => aircraft_callback v
  end.

Definition stage (f : crit_field) (c : Criteria) (l : list CrewMember)
  : completion (list CrewMember) :=
  if active f (value_of f c) then filterM (callback f (value_of f c)) l else ret l.

(** What a callback answers, with an exception read as [false]. *)
Definition answer (r : completion bool) : bool :=
  match r with
  | Normal b => b
  | Throw _ => false
  end.

(** The items stage [f] keeps. *)
Definition keeps (f : crit_field) (c : Criteria) (x : CrewMember) : bool :=
  if active f (value_of f c) then answer (callback f (value_of f c) x) else true.

End Filters.
End CrewFilter.

Module FlightsList.

(** [interface Flight] of the flights list. *)
Record Flight := {
  Date : field;
  Flight_Number : field;
  Origin : field;
  Destination : field;
  Scheduled_Departure_UTC : field;
  Scheduled_Arrival_UTC : field;
  Aircraft_Type : field;
  Duration_HH_MM : field
}.

Section Filters.

Variable toLowerCase : jsstring -> jsstring.

(** ** The flights list ([filterFlights]): text search only, the other
    criteria are sent to the server as query parameters. *)

Definition flight_callback (term : jsstring) (flight : Flight) : completion bool :=
  orelse (lower_includes toLowerCase (Flight_Number flight) term)
    (orelse (lower_includes toLowerCase (Origin flight) term)
            (lower_includes toLowerCase (Destination flight) term)).

Definition filterFlights (flights : list Flight) (term : jsstring)
  : completion (list Flight) :=
  let filtered := flights in
  filtered <- (if truthy_str term
               then filterM (flight_callback term) filtered
               else ret filtered) ;;
  ret filtered.

Definition well_typed_flight (flight : Flight) : Prop :=
  Flight_Number flight <> None /\ Origin flight <> None /\ Destination flight <> None.

End Filters.

(** ** Fetching a page of flights ([fetchFlights]) *)

(** The fields read from the parsed response. *)
Module Payload.
Record data := {
  flights : option (list Flight);
  total : option Z
}.
End Payload.

(** The state the effect depends on: the parameter snapshot of a fetch. *)
Record params := {
  currentPage : Z;
  originFilter : jsstring;
  destinationFilter : jsstring;
  aircraftFilter : jsstring;
  dateFilter : jsstring
}.

Definition params_eq_dec : forall a b : params, {a = b} + {a <> b}.
Proof. decide equality; try apply jsstring_eq_dec; apply Z.eq_dec. Defined.

(** The query string sent to the flights endpoint. *)
Record query := {
  limit : Z;
  offset : Z;
  origin : option jsstring;
  destination : option jsstring;
  aircraft_type : option jsstring;
  date : option jsstring
}.

Definition flightsPerPage : Z := 20.

(** [if (v && v !== 'all') params.append(...)]. *)
Definition categorical_param (v : jsstring) : option jsstring :=
  if truthy_str v && negb (str_eqb v (lit "all")) then Some v else None.

Definition query_of (p : params) : query :=
  {| limit := flightsPerPage;
     offset := (currentPage p - 1) * flightsPerPage;
     origin := categorical_param (originFilter p);
     destination := categorical_param (destinationFilter p);
     aircraft_type := categorical_param (aircraftFilter p);
     date := if truthy_str (dateFilter p) then Some (dateFilter p) else None |}.

(** The list state, and the requests still awaited, oldest first. *)
Record page := {
  flights : list Flight;
  totalFlights : Z;
  loading : bool;
  current : params;
  awaited : list query
}.

(** [data.total || 0]. *)
Definition or_zero (x : option Z) : Z :=
  match x with
  | Some n => n
  | None => 0%Z
  end.

Inductive event :=
| SetParams (p : params)
| Settle (k : nat) (r : completion Payload.data).

Fixpoint remove_nth {A} (k : nat) (l : list A) : list A :=
  match l, k with
  | [], _ => []
  | _ :: l', O => l'
  | x :: l', S k' => x :: remove_nth k' l'
  end.

(** [SetParams]: a page or filter control changes the state the effect
    depends on, and the effect calls [fetchFlights], which sets [loading]
    and sends the query for the new parameters.  While [loading] is true the
    component returns the spinner alone ([if (loading) return ...]): no
    control is rendered, so no parameter can change then.  [Settle k r]: the
    [k]-th awaited request settles and the rest of [fetchFlights] runs: on a
    parsed body [setFlights(data.flights || [])] and
    [setTotalFlights(data.total || 0)], and on both paths
    [setLoading(false)]. *)
Definition step (s : page) (e : event) : page :=
  match e with
  | SetParams p =>
      if loading s then s
      else if params_eq_dec p (current s) then s
      else {| flights := flights s; totalFlights := totalFlights s; loading := true;
              current := p; awaited := awaited s ++ [query_of p] |}
  | Settle k r =>
      match nth_error (awaited s) k with
      | Some _ =>
          match r with
          | Normal d =>
              {| flights := or_empty (Payload.flights d);
                 totalFlights := or_zero (Payload.total d);
                 loading := false; current := current s;
                 awaited := remove_nth k (awaited s) |}
          | Throw _ =>
              {| flights := flights s; totalFlights := totalFlights s;
                 loading := false; current := current s;
                 awaited := remove_nth k (awaited s) |}
          end
      | None => s
      end
  end.

Definition steps (s : page) (es : list event) : page := fold_left step es s.

End FlightsList.

(* ================================================================== *)
(** * Plain JavaScript objects used as maps *)
(* ================================================================== *)

Module JSObject.

(** Primitive values stored by the components in their lookup objects. *)
Inductive prim :=
| PNumber (n : Z)
| PNaN
| PString (s : jsstring).

(** What a property read [o[k]] can produce on an object created by an
    object literal: an own primitive, a member inherited from
    [Object.prototype] (a built-in function, or the prototype object itself
    for the [__proto__] accessor), or [undefined]. *)
Inductive value :=
| VUndefined
| VPrim (p : prim)
| VBuiltin (name : jsstring)
| VObjectPrototype.

(** Own properties, in creation order. *)
Definition object := list (jsstring * prim).

(** The function-valued properties every object inherits from
    [Object.prototype]. *)
Definition Object_prototype_methods : list jsstring :=
  map lit
    [ "constructor"; "__defineGetter__"; "__defineSetter__"; "hasOwnProperty";
      "__lookupGetter__"; "__lookupSetter__"; "isPrototypeOf";
      "propertyIsEnumerable"; "toString"; "valueOf"; "toLocaleString" ]%string.

Definition proto_key : jsstring := lit "__proto__".

(** Every name [Object.prototype] answers to. *)
Definition Object_prototype_keys : list jsstring :=
  proto_key :: Object_prototype_methods.

Definition mem_str (k : jsstring) (l : list jsstring) : bool :=
  existsb (str_eqb k) l.

Fixpoint own (o : object) (k : jsstring) : option prim :=
  match o with
  | [] => None
  | (k', v) :: o' => if str_eqb k k' then Some v else own o' k
  end.

(** [o[k]]: the own property if there is one, else the prototype chain. *)
Definition get (o : object) (k : jsstring) : value :=
  match own o k with
  | Some v => VPrim v
  | None =>
      if str_eqb k proto_key then VObjectPrototype
      else if mem_str k Object_prototype_methods then VBuiltin k
      else VUndefined
  end.

Fixpoint update (o : object) (k : jsstring) (v : prim) : object :=
  match o with
  | [] => [(k, v)]
  | (k', v') :: o' =>
      if str_eqb k k' then (k', v) :: o' else (k', v') :: update o' k v
  end.

(** [o[k] = v] for a primitive [v].  The [__proto__] setter ignores a value
    that is neither an object nor [null]; any other key becomes (or stays)
    an own property, shadowing an inherited one. *)
Definition set (o : object) (k : jsstring) (v : prim) : object :=
  if str_eqb k proto_key then
    match own o k with
    | Some _ => update o k v
    | None => o
    end
  else update o k v.

(** Truthiness. *)
Definition truthy (v : value) : bool :=
  match v with
  | VUndefined => false
  | VPrim (PNumber n) => negb (n =? 0)%Z
  | VPrim PNaN => false
  | VPrim (PString s) => truthy_str s
  | VBuiltin _ => true
  | VObjectPrototype => true
  end.

(** [a || b]. *)
Definition or_else (a b : value) : value := if truthy a then a else b.

Section Plus.

(** The source text [Function.prototype.toString] gives for a built-in is
    implementation-defined. *)
Variable native_source : jsstring -> jsstring.

(** [ToPrimitive] followed by [ToString]. *)
Definition to_string (v : value) : jsstring :=
  match v with
  | VUndefined => lit "undefined"
  | VPrim (PNumber n) => Number_toString n
  | VPrim PNaN => lit "NaN"
  | VPrim (PString s) => s
  | VBuiltin name => native_source name
  | VObjectPrototype => lit "[object Object]"
  end.

(** [v + 1]: numeric addition when the primitive of [v] is a number or
    [undefined], string concatenation when it is a string (as it is for a
    function or an object). *)
Definition plus_one (v : value) : prim :=
  match v with
  | VPrim (PNumber n) => PNumber (n + 1)
  | VPrim PNaN | VUndefined => PNaN
  | _ => PString (to_string v ++ lit "1")
  end.

End Plus.

(** An array index: the canonical decimal form of an integer below
    [2^32 - 1]. *)
Definition is_digit (c : N) : bool := (48 <=? c)%N && (c <=? 57)%N.

Definition numeric_value (k : jsstring) : N :=
  fold_left (fun acc c => (10 * acc + (c - 48))%N) k 0%N.

Definition array_index (k : jsstring) : option N :=
  match k with
  | [] => None
  | c :: rest =>
      if forallb is_digit k
         && (negb (N.eqb c 48) || match rest with [] => true | _ => false end)
         && (numeric_value k <? 4294967295)%N
      then Some (numeric_value k)
      else None
  end.

Fixpoint insert_by_index (e : N * (jsstring * prim)) (l : list (N * (jsstring * prim)))
  : list (N * (jsstring * prim)) :=
  match l with
  | [] => [e]
  | e' :: l' => if (fst e <=? fst e')%N then e :: l else e' :: insert_by_index e l'
  end.

Definition sort_by_index (l : list (N * (jsstring * prim))) : list (N * (jsstring * prim)) :=
  fold_right insert_by_index [] l.

Definition index_entries (o : object) : list (N * (jsstring * prim)) :=
  flat_map (fun kv => match array_index (fst kv) with
                      | Some i => [(i, kv)]
                      | None => []
                      end) o.

Definition string_entries (o : object) : object :=
  filter (fun kv => match array_index (fst kv) with
                    | Some _ => false
                    | None => true
                    end) o.

(** [Object.entries(o)]: the array-index keys in ascending numeric order,
    then the other keys in creation order. *)
Definition entries (o : object) : list (jsstring * prim) :=
  map snd (sort_by_index (index_entries o)) ++ string_entries o.

End JSObject.

(* ================================================================== *)
(** * Numbers *)
(* ================================================================== *)

(** The JavaScript Number type: IEEE 754 binary64 with round-to-nearest,
    ties-to-even, as specified by the library's [SpecFloat]. *)
Module Num.

Definition number := spec_float.

Definition prec : Z := 53.
Definition emax : Z := 1024.

Definition add : number -> number -> number := SFadd prec emax.
Definition sub : number -> number -> number := SFsub prec emax.
Definition mul : number -> number -> number := SFmul prec emax.
Definition div : number -> number -> number := SFdiv prec emax.

Definition ltb : number -> number -> bool := SFltb.
Definition leb : number -> number -> bool := SFleb.

(** The Number denoted by an integer literal (nearest double). *)
Definition of_Z (z : Z) : number := binary_normalize prec emax z 0 false.

Definition zero : number := S754_zero false.

(** [Math.round]: the nearest integer, a tie going towards +infinity; an
    integral argument, an infinity, a zero or NaN is returned unchanged and
    a result that rounds to zero keeps the sign of the argument. *)
Definition Math_round (x : number) : number :=
  match x with
  | S754_finite s m e =>
      if (0 <=? e)%Z then x
      else
        let d := Z.pow 2 (- e) in
        let v := if s then Z.neg m else Z.pos m in
        let n := ((2 * v + d) / (2 * d))%Z in
        if (n =? 0)%Z then S754_zero s else of_Z n
  | _ => x
  end.

(** Neither NaN nor an infinity. *)
Definition is_finite (x : number) : bool :=
  match x with
  | S754_zero _ | S754_finite _ _ _ => true
  | _ => false
  end.

(** A double in canonical form (what every Number is). *)
Definition valid (x : number) : bool := valid_binary prec emax x.

(** [x] is not NaN and carries the sign bit [s]. *)
Definition has_sign (s : bool) (x : number) : bool :=
  match x with
  | S754_zero s' | S754_infinity s' | S754_finite s' _ _ => Bool.eqb s s'
  | S754_nan => false
  end.

End Num.

(* ================================================================== *)
(** * Roster page: analytics derived from the roster payload *)
(* ================================================================== *)

Module Index.
Import JSObject.

Record CrewMember := {
  Crew_ID : jsstring;
  Crew_Rank : jsstring
}.

Record FlightData := {
  Date : jsstring;
  Flight_Number : jsstring;
  Duty_Start : jsstring;
  Duty_End : jsstring;
  Aircraft_Type : jsstring;
  Origin : jsstring;
  Destination : jsstring;
  Duration : jsstring;
  Crew_Members : list CrewMember
}.

Record Violation := {
  type : jsstring;
  category : jsstring;
  message : jsstring
}.

(** [interface RosterResponse]; [fitness_score] and [optimization_metrics]
    are displayed as received and read by neither derivation.  The two
    arrays are guarded by [?.] in the source, hence optional. *)
Record RosterResponse := {
  roster : option (list FlightData);
  violations : option (list Violation)
}.

Record CategoryCount := {
  name : jsstring;
  value : prim
}.

Record DutyHours := {
  flight : jsstring;
  hours : Num.number;
  route : jsstring
}.

Section Derivations.

Variable native_source : jsstring -> jsstring.

(** [new Date(s).getTime()]: date parsing is the runtime's; the result is
    NaN for an invalid date. *)
Variable Date_getTime : jsstring -> Num.number.

(** The reducer of [getViolationsByCategory]:
    [acc[violation.category] = (acc[violation.category] || 0) + 1]. *)
Definition count_violation (acc : object) (violation : Violation) : object :=
  set acc (category violation)
      (plus_one native_source
         (or_else (get acc (category violation)) (VPrim (PNumber 0)))).

Definition getViolationsByCategory (rosterData : option RosterResponse)
  : list CategoryCount :=
  match rosterData with
  | None => []
  | Some data =>
      match violations data with
      | None => []
      | Some vs =>
          let categories := fold_left count_violation vs [] in
          map (fun e => {| name := fst e; value := snd e |}) (entries categories)
      end
  end.

(** [Math.round(hours * 100) / 100] with
    [hours = (end.getTime() - start.getTime()) / (1000 * 60 * 60)]. *)
Definition duty_hours (start_ end_ : Num.number) : Num.number :=
  let hours :=
    Num.div (Num.sub end_ start_)
            (Num.mul (Num.mul (Num.of_Z 1000) (Num.of_Z 60)) (Num.of_Z 60)) in
  Num.div (Num.Math_round (Num.mul hours (Num.of_Z 100))) (Num.of_Z 100).

Definition duty_entry (f : FlightData) : DutyHours :=
  let start_ := Date_getTime (Duty_Start f) in
  let end_ := Date_getTime (Duty_End f) in
  {| flight := Flight_Number f;
     hours := duty_hours start_ end_;
     route := Origin f ++ lit "-" ++ Destination f |}.

Definition getDutyHoursData (rosterData : option RosterResponse) : list DutyHours :=
  match rosterData with
  | None => []
  | Some data =>
      match roster data with
      | None => []
      | Some flights =>
          let dutyHours := map duty_entry flights in
          firstn 10 dutyHours
      end
  end.

End Derivations.

(** The total of the emitted counts, when every emitted value is a number. *)
Fixpoint sum_counts (l : list CategoryCount) : option Z :=
  match l with
  | [] => Some 0%Z
  | e :: l' =>
      match value e, sum_counts l' with
      | PNumber n, Some t => Some (n + t)%Z
      | _, _ => None
      end
  end.

(** The total of the numeric own properties of the accumulator. *)
Fixpoint sum_numbers (o : object) : Z :=
  match o with
  | [] => 0%Z
  | (_, PNumber n) :: o' => (n + sum_numbers o')%Z
  | (_, _) :: o' => sum_numbers o'
  end.

(** Every own property is a positive count. *)
Definition counts_only (o : object) : Prop :=
  Forall (fun kv => exists n, snd kv = PNumber n /\ (1 <= n)%Z) o.

(** A violation whose category is not a name [Object.prototype] answers to. *)
Definition plain_category (v : Violation) : Prop :=
  mem_str (category v) Object_prototype_keys = false.

End Index.

(* ================================================================== *)
(** * Disruption chat *)
(* ================================================================== *)

Module DisruptionChatbot.
Import JSObject.

Inductive sender := user | bot.

(** [interface ChatMessage].  [content] of a bot message is whatever
    [data.response] was, possibly [undefined]; [timestamp] is the time value
    of [new Date()]. *)
Record ChatMessage := {
  id : jsstring;
  type : sender;
  content : option jsstring;
  timestamp : Z;
  suggestedActions : option (list jsstring)
}.

(** The body posted to the chat endpoint:
    [{ message: currentMessage, context: {} }]. *)
Record ChatRequest := {
  message : jsstring
}.

(** The fields read from the parsed response. *)
Record ChatData := {
  response : option jsstring;
  suggested_actions : option (list jsstring)
}.

(** The component state ([messages], [currentMessage], [isLoading]) together
    with what the component has emitted: the requests handed to [fetch] and
    the error toasts. *)
Record chat := {
  messages : list ChatMessage;
  currentMessage : jsstring;
  isLoading : bool;
  requests : list ChatRequest;
  toasts : list jsstring
}.

Definition greeting (date : Z) : ChatMessage :=
  {| id := lit "1";
     type := bot;
     content := Some (lit "Hello! I'm your IndiGo Disruption Management Assistant. I can help you handle crew disruptions, find replacements, and ensure DGCA compliance. How can I assist you today?");
     timestamp := date;
     suggestedActions :=
       Some [lit "analyze_disruption"; lit "view_roster"; lit "check_compliance"] |}.

Definition initial (date : Z) : chat :=
  {| messages := [greeting date]; currentMessage := lit ""; isLoading := false;
     requests := []; toasts := [] |}.

Definition userMessage (now date : Z) (text : jsstring) : ChatMessage :=
  {| id := Number_toString now; type := user; content := Some text;
     timestamp := date; suggestedActions := None |}.

Definition botMessage (now date : Z) (data : ChatData) : ChatMessage :=
  {| id := Number_toString (now + 1); type := bot; content := response data;
     timestamp := date; suggestedActions := suggested_actions data |}.

Definition errorMessage (now date : Z) : ChatMessage :=
  {| id := Number_toString (now + 1); type := bot;
     content := Some (lit "I apologize, but I'm having trouble processing your request right now. Please try again later.");
     timestamp := date; suggestedActions := None |}.

(** [handleSendMessage] up to its first [await]: the guard, the optimistic
    append, and the one call to [fetch].  [now] is what [Date.now()] reads, [date] the
    time value of [new Date()]. *)
Definition handleSendMessage (now date : Z) (st : chat) : chat :=
  if negb (truthy_str (trim (currentMessage st))) || isLoading st then st
  else
    {| messages := messages st ++ [userMessage now date (currentMessage st)];
       currentMessage := lit "";
       isLoading := true;
       requests := requests st ++ [{| message := currentMessage st |}];
       toasts := toasts st |}.

(** The rest of [handleSendMessage], run when the awaited [fetch] and
    [response.json()] settle: [Normal data] is the parsed body, [Throw] a
    rejected fetch or a body that does not parse.  The [finally] block clears
    [isLoading] on both paths.  The status code of the response is never
    inspected. *)
Definition handleSendMessage_settled (now date : Z) (r : completion ChatData) (st : chat)
  : chat :=
  match r with
  | Normal data =>
      {| messages := messages st ++ [botMessage now date data];
         currentMessage := currentMessage st;
         isLoading := false;
         requests := requests st;
         toasts := toasts st |}
  | Throw _ =>
      {| messages := messages st ++ [errorMessage now date];
         currentMessage := currentMessage st;
         isLoading := false;
         requests := requests st;
         toasts := toasts st ++ [lit "Failed to send message"] |}
  end.

(** The input's [onChange]. *)
Definition setCurrentMessage (text : jsstring) (st : chat) : chat :=
  {| messages := messages st; currentMessage := text; isLoading := isLoading st;
     requests := requests st; toasts := toasts st |}.

Definition clearChat (date : Z) (st : chat) : chat :=
  {| messages := [greeting date]; currentMessage := currentMessage st;
     isLoading := isLoading st; requests := requests st; toasts := toasts st |}.

(** The lookup table of [handleSuggestedAction], an object literal. *)
Definition actionMessages : object :=
  [ (lit "analyze_disruption",
     PString (lit "Please analyze the current disruption situation and provide recommendations."));
    (lit "view_roster",
     PString (lit "Show me the current roster status and any conflicts."));
    (lit "check_compliance",
     PString (lit "Check DGCA compliance for the current roster assignments.")) ].

(** [actionMessages[action] || action]. *)
Definition suggested_message (action : jsstring) : value :=
  or_else (get actionMessages action) (VPrim (PString action)).

(** What [handleSuggestedAction] does with the state setter: it stages a
    text, or it hands the setter a value that is not a string (the [as keyof]
    cast is erased at run time); what React makes of such a value is outside
    the component, and the state is reported as it was. *)
Inductive staging :=
| Staged (st : chat)
| NotAString (v : value) (st : chat).

Definition handleSuggestedAction (action : jsstring) (st : chat) : staging :=
  match suggested_message action with
  | VPrim (PString text) => Staged (setCurrentMessage text st)
  | v => NotAString v st
  end.

(** The staging leaves the conversation alone, whatever it stages. *)
Definition staged_state (r : staging) : chat :=
  match r with
  | Staged st => st
  | NotAString _ st => st
  end.

End DisruptionChatbot.

(* ================================================================== *)
(** * Crew detail modal *)
(* ================================================================== *)

Module CrewDetailsModal.

Record CrewSchedule := {
  roster_id : Z;
  start_date : jsstring;
  end_date : jsstring;
  violation_count : Z
}.

Record CrewPreference := {
  type : jsstring;
  detail : jsstring;
  priority : jsstring
}.

(** An element of [Crew_Members]. *)
Module Assigned.
Record member := {
  Crew_ID : field;
  Crew_Rank : field
}.
End Assigned.

Record FlightAssignment := {
  Date : field;
  Flight_Number : field;
  Duty_Start : field;
  Duty_End : field;
  Aircraft_Type : field;
  Origin : field;
  Destination : field;
  Duration : field;
  Crew_Members : option (list Assigned.member)
}.

Module Violation.
Record ViolationDetail := {
  type : jsstring;
  description : jsstring;
  severity : jsstring;
  flight_number : field;
  date : field
}.
End Violation.

(** A roster summary of the history endpoint; only [id] is read. *)
Record RosterHistoryItem := {
  id : Z
}.

(** A parsed JSON body; each endpoint fills the field the component reads
    from it. *)
Module Payload.
Record body := {
  crew_members : option (list CrewMember);
  schedules : option (list CrewSchedule);
  preferences : option (list CrewPreference);
  rosters : option (list RosterHistoryItem);
  roster_data : option (list FlightAssignment)
}.
End Payload.
Import Payload.

(** The five endpoints the modal calls. *)
Inductive request :=
| GetCrew
| GetSchedule (crewId : jsstring)
| GetPreferences (crewId : jsstring)
| GetRosterHistory
| GetRoster (id : Z).

(** The component state, with the error toasts it has raised. *)
Record modal := {
  crewDetails : option CrewMember;
  schedule : list CrewSchedule;
  preferences : list CrewPreference;
  flightAssignments : list FlightAssignment;
  violations : list Violation.ViolationDetail;
  latestRoster : option body;
  loading : bool;
  toasts : list jsstring
}.

Definition initial : modal :=
  {| crewDetails := None; schedule := []; preferences := [];
     flightAssignments := []; violations := []; latestRoster := None;
     loading := false; toasts := [] |}.

(** State setters. *)
Definition setLoading (b : bool) (st : modal) : modal :=
  {| crewDetails := crewDetails st; schedule := schedule st;
     preferences := preferences st; flightAssignments := flightAssignments st;
     violations := violations st; latestRoster := latestRoster st;
     loading := b; toasts := toasts st |}.

Definition setCrewDetails (c : CrewMember) (st : modal) : modal :=
  {| crewDetails := Some c; schedule := schedule st;
     preferences := preferences st; flightAssignments := flightAssignments st;
     violations := violations st; latestRoster := latestRoster st;
     loading := loading st; toasts := toasts st |}.

Definition setSchedule (l : list CrewSchedule) (st : modal) : modal :=
  {| crewDetails := crewDetails st; schedule := l;
     preferences := preferences st; flightAssignments := flightAssignments st;
     violations := violations st; latestRoster := latestRoster st;
     loading := loading st; toasts := toasts st |}.

Definition setPreferences (l : list CrewPreference) (st : modal) : modal :=
  {| crewDetails := crewDetails st; schedule := schedule st;
     preferences := l; flightAssignments := flightAssignments st;
     violations := violations st; latestRoster := latestRoster st;
     loading := loading st; toasts := toasts st |}.

Definition setFlightAssignments (l : list FlightAssignment) (st : modal) : modal :=
  {| crewDetails := crewDetails st; schedule := schedule st;
     preferences := preferences st; flightAssignments := l;
     violations := violations st; latestRoster := latestRoster st;
     loading := loading st; toasts := toasts st |}.

Definition setViolations (l : list Violation.ViolationDetail) (st : modal) : modal :=
  {| crewDetails := crewDetails st; schedule := schedule st;
     preferences := preferences st; flightAssignments := flightAssignments st;
     violations := l; latestRoster := latestRoster st;
     loading := loading st; toasts := toasts st |}.

Definition setLatestRoster (b : body) (st : modal) : modal :=
  {| crewDetails := crewDetails st; schedule := schedule st;
     preferences := preferences st; flightAssignments := flightAssignments st;
     violations := violations st; latestRoster := Some b;
     loading := loading st; toasts := toasts st |}.

Definition toast_error (msg : jsstring) (st : modal) : modal :=
  {| crewDetails := crewDetails st; schedule := schedule st;
     preferences := preferences st; flightAssignments := flightAssignments st;
     violations := violations st; latestRoster := latestRoster st;
     loading := loading st; toasts := toasts st ++ [msg] |}.

(** The suspension points of [fetchCrewDetails]: the awaited
    [fetch]/[json] pairs. *)
Inductive point :=
| AwaitCrew
| AwaitSchedule
| AwaitPreferences
| AwaitHistory
| AwaitRoster (latestRosterId : Z).

(** A call of [fetchCrewDetails] suspended at an [await]: the [crewId] and
    the [schedule] captured by the closure when the effect ran, and where
    the call stands. *)
Record invocation := {
  crewId : jsstring;
  seen_schedule : list CrewSchedule;
  at_ : point
}.

Definition goto (p : invocation) (pt : point) : invocation :=
  {| crewId := crewId p; seen_schedule := seen_schedule p; at_ := pt |}.

(** The request outstanding at a suspension point. *)
Definition request_of (p : invocation) : request :=
  match at_ p with
  | AwaitCrew => GetCrew
  | AwaitSchedule => GetSchedule (crewId p)
  | AwaitPreferences => GetPreferences (crewId p)
  | AwaitHistory => GetRosterHistory
  | AwaitRoster latestRosterId => GetRoster latestRosterId
  end.

(** [flight.Crew_Members.some(member => member.Crew_ID === crewId)]. *)
Definition assigned_to (crew : jsstring) (flight : FlightAssignment)
  : completion bool :=
  members <- deref (Crew_Members flight) ;;
  ret (existsb (fun member => strict_eq (Assigned.Crew_ID member) crew) members).

(** [rosterData.roster_data?.filter(...) || []]. *)
Definition crew_flights (crew : jsstring) (rosterData : body)
  : completion (list FlightAssignment) :=
  match roster_data rosterData with
  | Some flights => filterM (assigned_to crew) flights
  | None => ret []
  end.

Definition violation_types : list jsstring :=
  [lit "Rest Period"; lit "Duty Time"; lit "Flight Time"; lit "Minimum Equipment"].

Definition violation_descriptions : list jsstring :=
  [lit "Insufficient rest period between duties (minimum 12 hours required)";
   lit "Exceeded maximum duty time limit (14 hours maximum)";
   lit "Flight time exceeds monthly limit";
   lit "Missing required qualification for aircraft type"].

Definition severities : list jsstring := [lit "High"; lit "Medium"; lit "Low"].

(** The draws of [Math.random] during one resumption, scaled: the [k]-th
    evaluation of [Math.floor(Math.random() * n)] is [rnd k mod n]. *)
Definition draws := nat -> nat.

Definition random_flight (rnd : draws) (k : nat) (crewFlights : list FlightAssignment)
  : option FlightAssignment :=
  nth_error crewFlights (rnd k mod length crewFlights).

(** [x?.f] *)
Definition optional_field (x : option FlightAssignment)
    (f : FlightAssignment -> field) : field :=
  match x with
  | Some flight => f flight
  | None => None
  end.

Definition mock_violation (rnd : draws) (crewFlights : list FlightAssignment)
    (i : nat) : Violation.ViolationDetail :=
  {| Violation.type := nth (i mod 4) violation_types [];
     Violation.description := nth (i mod 4) violation_descriptions [];
     Violation.severity := nth (i mod 3) severities [];
     Violation.flight_number :=
       optional_field (random_flight rnd (2 * i) crewFlights) Flight_Number;
     Violation.date :=
       optional_field (random_flight rnd (2 * i + 1) crewFlights) Date |}.

(** The mock violations: one per counted violation of the first schedule
    entry the closure saw. *)
Definition mockViolations (rnd : draws) (seen : list CrewSchedule)
    (crewFlights : list FlightAssignment) : list Violation.ViolationDetail :=
  match seen with
  | first :: _ =>
      if (0 <? violation_count first)%Z
      then map (mock_violation rnd crewFlights)
               (seq 0 (Z.to_nat (violation_count first)))
      else []
  | [] => []
  end.

(** The outer [catch] and [finally]. *)
Definition fatal (st : modal) : modal :=
  setLoading false (toast_error (lit "Failed to fetch crew details") st).

(** The inner [catch] of the roster block, then [finally]. *)
Definition flights_unavailable (st : modal) : modal :=
  setLoading false (setViolations [] (setFlightAssignments [] st)).

(** Resuming a suspended call with the outcome of its awaited request:
    [Normal b] is the parsed body, [Throw] a rejected fetch or a body that
    did not parse.  The result is the new state and, unless the call has
    returned, the call suspended at its next [await]. *)
Definition resume (rnd : draws) (p : invocation) (r : completion body)
    (st : modal) : modal * option invocation :=
  match at_ p with
  | AwaitCrew =>
      match r with
      | Normal crewData =>
          match crew_members crewData with
          | Some members =>
              let crew := find (fun c => strict_eq (Crew_ID c) (crewId p)) members in
              let st := match crew with
                        | Some c => setCrewDetails c st
                        | None => st
                        end in
              (st, Some (goto p AwaitSchedule))
          | None => (fatal st, None)
          end
      | Throw _ => (fatal st, None)
      end
  | AwaitSchedule =>
      match r with
      | Normal scheduleData =>
          (setSchedule (or_empty (schedules scheduleData)) st,
           Some (goto p AwaitPreferences))
      | Throw _ => (setSchedule [] st, Some (goto p AwaitPreferences))
      end
  | AwaitPreferences =>
      match r with
      | Normal preferencesData =>
          (setPreferences (or_empty (Payload.preferences preferencesData)) st,
           Some (goto p AwaitHistory))
      | Throw _ => (setPreferences [] st, Some (goto p AwaitHistory))
      end
  | AwaitHistory =>
      match r with
      | Normal rostersData =>
          match rosters rostersData with
          | Some (latest :: _) => (st, Some (goto p (AwaitRoster (id latest))))
          | _ => (setLoading false st, None)
          end
      | Throw _ => (flights_unavailable st, None)
      end
  | AwaitRoster _ =>
      match r with
      | Normal rosterData =>
          let st := setLatestRoster rosterData st in
          match crew_flights (crewId p) rosterData with
          | Normal crewFlights =>
              let st := setFlightAssignments crewFlights st in
              let st := setViolations (mockViolations rnd (seen_schedule p) crewFlights) st in
              (setLoading false st, None)
          | Throw _ => (flights_unavailable st, None)
          end
      | Throw _ => (flights_unavailable st, None)
      end
  end.

(** [fetchCrewDetails] up to its first [await]; nothing happens for a
    falsy [crewId]. *)
Definition fetchCrewDetails (crew : option jsstring) (st : modal)
  : modal * option invocation :=
  match crew with
  | Some c =>
      if truthy_str c
      then (setLoading true st,
            Some {| crewId := c; seen_schedule := schedule st; at_ := AwaitCrew |})
      else (st, None)
  | None => (st, None)
  end.

(** One call run to its end against a server that answers each request
    at once. *)
Fixpoint run (fuel : nat) (server : request -> completion body) (rnd : draws)
    (c : modal * option invocation) : modal * option invocation :=
  match fuel, c with
  | S fuel', (st, Some p) =>
      run fuel' server rnd (resume rnd p (server (request_of p)) st)
  | _, _ => c
  end.

(** ** The modal inside the crew list: several calls in flight *)

Record app := {
  selectedCrewId : option jsstring;
  isModalOpen : bool;
  view : modal;
  inflight : list invocation
}.

Inductive event :=
| Click (crew : jsstring)
| Close
| Settle (k : nat) (r : completion body) (rnd : draws).

Definition same_selection (a : option jsstring) (b : jsstring) : bool :=
  match a with
  | Some x => str_eqb x b
  | None => false
  end.

Fixpoint replace_nth {A} (k : nat) (x : option A) (l : list A) : list A :=
  match l, k with
  | [], _ => []
  | _ :: l', O => match x with Some y => y :: l' | None => l' end
  | y :: l', S k' => y :: replace_nth k' x l'
  end.

(** [Click]: [handleCrewClick] sets the selection and opens the modal; the
    modal's effect runs [fetchCrewDetails] when [crewId] or [isOpen]
    changed.  [Close]: [onClose].  [Settle k r rnd]: the request awaited by
    the [k]-th call in flight settles with [r]. *)
Definition step (a : app) (e : event) : app :=
  match e with
  | Click crew =>
      if same_selection (selectedCrewId a) crew && isModalOpen a
      then a
      else
        let (st, started) := fetchCrewDetails (Some crew) (view a) in
        {| selectedCrewId := Some crew; isModalOpen := true; view := st;
           inflight := inflight a ++ match started with
                                     | Some p => [p]
                                     | None => []
                                     end |}
  | Close =>
      {| selectedCrewId := selectedCrewId a; isModalOpen := false;
         view := view a; inflight := inflight a |}
  | Settle k r rnd =>
      match nth_error (inflight a) k with
      | Some p =>
          let (st, next) := resume rnd p r (view a) in
          {| selectedCrewId := selectedCrewId a; isModalOpen := isModalOpen a;
             view := st; inflight := replace_nth k next (inflight a) |}
      | None => a
      end
  end.

Definition steps (a : app) (es : list event) : app := fold_left step es a.

(** The server answers the request awaited by the [k]-th call in flight. *)
Definition serve (server : request -> completion body) (rnd : draws) (k : nat)
    (a : app) : app :=
  match nth_error (inflight a) k with
  | Some p => step a (Settle k (server (request_of p)) rnd)
  | None => a
  end.

Fixpoint serve_n (n : nat) (server : request -> completion body) (rnd : draws)
    (k : nat) (a : app) : app :=
  match n with
  | O => a
  | S n' => serve_n n' server rnd k (serve server rnd k a)
  end.

(** The profile endpoint answers with a list that holds the crew member. *)
Definition profile_found (server : request -> completion body) (crew : jsstring)
    (c : CrewMember) : Prop :=
  exists crewData members,
    server GetCrew = Normal crewData /\
    crew_members crewData = Some members /\
    find (fun x => strict_eq (Crew_ID x) crew) members = Some c.

(** ** What each section should show *)

(** The flights of the latest roster that carry the crew member:
    [Throw] when the derivation fails, [Normal None] when the history holds
    no roster, and the flights otherwise. *)
Definition latest_roster_flights (server : request -> completion body)
    (crew : jsstring) : completion (option (list FlightAssignment)) :=
  rostersData <- server GetRosterHistory ;;
  match rosters rostersData with
  | Some (latest :: _) =>
      rosterData <- server (GetRoster (id latest)) ;;
      crewFlights <- crew_flights crew rosterData ;;
      ret (Some crewFlights)
  | _ => ret None
  end.

Inductive section := Schedule | Preferences | Flights.

Definition section_eq_dec : forall a b : section, {a = b} + {a <> b}.
Proof. decide equality. Defined.

(** The section is empty. *)
Definition emptied (s : section) (st : modal) : Prop :=
  match s with
  | Schedule => schedule st = []
  | Preferences => preferences st = []
  | Flights => flightAssignments st = [] /\ violations st = []
  end.

(** The profile tab is rendered: details are present and the spinner is
    off. *)
Definition renders_profile (st : modal) : bool :=
  negb (loading st) && match crewDetails st with Some _ => true | None => false end.

End CrewDetailsModal.

(* ================================================================== *)
(** * Filter engine: what the crew filter is meant to keep *)
(* ================================================================== *)

Module CrewFilterSpec.
Import CrewFilter.

Section Spec.

Variable toLowerCase : jsstring -> jsstring.

(** The field is present and, lower-cased, contains the lower-cased term. *)
Definition text_matches (term : jsstring) (x : field) : bool :=
  match x with
  | Some v => includes (toLowerCase v) (toLowerCase term)
  | None => false
  end.

(** The licence list is present and contains the aircraft type. *)
Definition licence_matches (aircraft : jsstring) (x : field) : bool :=
  match x with
  | Some v => includes v aircraft
  | None => false
  end.

(** The crew member passes every criterion that constrains something: the
    search term (when not empty) occurs in the name or the id, the base and
    the rank (when not ['all']) are the crew member's, and the aircraft type
    (when not ['all']) occurs in the licence list. *)
Definition matches (c : Criteria) (crew : CrewMember) : bool :=
  (negb (truthy_str (searchTerm c))
   || text_matches (searchTerm c) (Name crew)
   || text_matches (searchTerm c) (Crew_ID crew))
  && (str_eqb (selectedBase c) (lit "all") || strict_eq (Base crew) (selectedBase c))
  && (str_eqb (selectedRank c) (lit "all") || strict_eq (Rank crew) (selectedRank c))
  && (str_eqb (selectedAircraft c) (lit "all")
      || licence_matches (selectedAircraft c) (Aircraft_Type_License crew)).

(** No categorical criterion is the empty string. *)
Definition no_empty_choice (c : Criteria) : Prop :=
  truthy_str (selectedBase c) = true /\
  truthy_str (selectedRank c) = true /\
  truthy_str (selectedAircraft c) = true.

End Spec.
End CrewFilterSpec.

(* ================================================================== *)
(** * Crew list page: the options offered by the filter controls *)
(* ================================================================== *)

Module CrewListPage.

Definition field_mem (v : field) (l : list field) : bool :=
  existsb (fun y => if field_eq_dec v y then true else false) l.

(** [Boolean(v)] for a field: missing values and the empty string are
    falsy. *)
Definition truthy_field (v : field) : bool :=
  match v with
  | Some s => truthy_str s
  | None => false
  end.

(** [[...new Set(values)]]: each value once, in the order of first
    appearance. *)
Definition Set_values (values : list field) : list field :=
  fold_left (fun seen v => if field_mem v seen then seen else seen ++ [v]) values [].

(** [getUniqueValues(field)], with [crew[field]] given as the accessor. *)
Definition getUniqueValues (crewMembers : list CrewMember)
    (field : CrewMember -> field) : list JS.field :=
  let values := filter truthy_field (map field crewMembers) in
  Set_values values.

End CrewListPage.

(* ================================================================== *)
(** * Violation histogram: the count held for a category *)
(* ================================================================== *)

Module ViolationTally.
Import JSObject.

(** The number the accumulator holds under a key, 0 when it holds none. *)
Definition tally (o : object) (k : jsstring) : Z :=
  match own o k with
  | Some (PNumber n) => n
  | _ => 0%Z
  end.

End ViolationTally.

(* ================================================================== *)
(** * Disruption chat: the open dialog as a machine *)
(* ================================================================== *)

Module ChatSession.
Import DisruptionChatbot.

(** [handleKeyPress]: Enter without Shift submits; any other key is left to
    the input. *)
Definition handleKeyPress (key : jsstring) (shiftKey : bool) (now date : Z)
    (st : chat) : chat :=
  if str_eqb key (lit "Enter") && negb shiftKey
  then handleSendMessage now date st
  else st.

(** What can happen to the open dialog.  [Input] is the input's [onChange],
    a quick example, or a suggestion staged as a text; [Settle] is the
    answer to a request that is still out. *)
Inductive event :=
| Input (text : jsstring)
| KeyPress (key : jsstring) (shiftKey : bool) (now date : Z)
| SendClick (now date : Z)
| Clear (date : Z)
| Settle (now date : Z) (r : completion ChatData).

(** The component state, and the number of requests handed to [fetch] that
    have not settled yet. *)
Record session := {
  view : chat;
  in_flight : nat
}.

(** A handler that may call [fetch]: the requests it adds to the log are
    in flight from then on. *)
Definition submit (send : chat -> chat) (s : session) : session :=
  let v := send (view s) in
  {| view := v;
     in_flight := in_flight s + (length (requests v) - length (requests (view s))) |}.

Definition step (s : session) (e : event) : session :=
  match e with
  | Input text =>
      {| view := setCurrentMessage text (view s); in_flight := in_flight s |}
  | KeyPress key shiftKey now date =>
      submit (handleKeyPress key shiftKey now date) s
  | SendClick now date =>
      submit (handleSendMessage now date) s
  | Clear date =>
      {| view := clearChat date (view s); in_flight := in_flight s |}
  | Settle now date r =>
      match in_flight s with
      | O => s
      | S n =>
          {| view := handleSendMessage_settled now date r (view s);
             in_flight := n |}
      end
  end.

Definition opened (date : Z) : session :=
  {| view := initial date; in_flight := 0 |}.

Definition run (date : Z) (es : list event) : session :=
  fold_left step es (opened date).

Definition is_clear (e : event) : bool :=
  match e with
  | Clear _ => true
  | _ => false
  end.

Definition is_user (m : ChatMessage) : bool :=
  match type m with
  | user => true
  | bot => false
  end.

(** A dialogue in turns: a user message, the bot's reply, and so on; the
    last user message may still wait for its reply. *)
Fixpoint turns (l : list ChatMessage) : bool :=
  match l with
  | [] => true
  | u :: l' =>
      match l' with
      | [] => is_user u
      | b :: rest => is_user u && negb (is_user b) && turns rest
      end
  end.

(** One request is out exactly while the spinner is on. *)
Definition balanced (s : session) : Prop :=
  in_flight s = if isLoading (view s) then 1%nat else 0%nat.

(** The conversation is the greeting followed by turns, and the texts
    posted are the texts shown as the user's. *)
Definition in_turns (date : Z) (s : session) : Prop :=
  exists d,
    messages (view s) = greeting date :: d /\
    turns d = true /\
    isLoading (view s) = Nat.odd (length d) /\
    map (fun r => Some (message r)) (requests (view s))
    = map content (filter is_user d).

End ChatSession.

(* ================================================================== *)
(** * Disruption chat: rendering a message *)
(* ================================================================== *)

Module ChatRender.
Import DisruptionChatbot.

Definition star : N := 42.
Definition newline : N := 10.

(** The code units [.] does not match (no [s] flag): the line terminators. *)
Definition is_line_terminator (c : N) : bool :=
  existsb (N.eqb c) [10; 13; 8232; 8233]%N.

Section Replace.

(** A pattern tried at the head of the remaining text: the replacement text
    and what follows the match. *)
Variable match_at : jsstring -> option (jsstring * jsstring).

(** [String.prototype.replace] with a global pattern that never matches the
    empty string: matches are found from left to right, the text between
    them is copied. *)
Fixpoint replace_from (fuel : nat) (s : jsstring) : jsstring :=
  match fuel with
  | O => s
  | S fuel' =>
      match s with
      | [] => []
      | a :: t =>
          match match_at s with
          | Some (out, rest) => out ++ replace_from fuel' rest
          | None => a :: replace_from fuel' t
          end
      end
  end.

Definition replace_all (s : jsstring) : jsstring := replace_from (length s) s.

End Replace.

(** [(.*?)\*\*] after an opening [**]: the shortest run of code units other
    than line terminators that is followed by [**]. *)
Fixpoint close_bold (s : jsstring) : option (jsstring * jsstring) :=
  match s with
  | a :: t =>
      match t with
      | b :: rest =>
          if N.eqb a star && N.eqb b star then Some ([], rest)
          else if is_line_terminator a then None
          else match close_bold t with
               | Some (c, r) => Some (a :: c, r)
               | None => None
               end
      | [] => None
      end
  | [] => None
  end.

(** [(.*?)\*] after an opening [*]. *)
Fixpoint close_em (s : jsstring) : option (jsstring * jsstring) :=
  match s with
  | a :: t =>
      if N.eqb a star then Some ([], t)
      else if is_line_terminator a then None
      else match close_em t with
           | Some (c, r) => Some (a :: c, r)
           | None => None
           end
  | [] => None
  end.

(** [/\*\*(.*?)\*\*/g] with ['<strong>$1</strong>']. *)
Definition bold_at (s : jsstring) : option (jsstring * jsstring) :=
  match s with
  | a :: b :: rest =>
      if N.eqb a star && N.eqb b star then
        match close_bold rest with
        | Some (c, r) => Some (lit "<strong>" ++ c ++ lit "</strong>", r)
        | None => None
        end
      else None
  | _ => None
  end.

(** [/\*(.*?)\*/g] with ['<em>$1</em>']. *)
Definition em_at (s : jsstring) : option (jsstring * jsstring) :=
  match s with
  | a :: rest =>
      if N.eqb a star then
        match close_em rest with
        | Some (c, r) => Some (lit "<em>" ++ c ++ lit "</em>", r)
        | None => None
        end
      else None
  | [] => None
  end.

(** [/\n/g] with ['<br />']. *)
Definition br_at (s : jsstring) : option (jsstring * jsstring) :=
  match s with
  | a :: rest => if N.eqb a newline then Some (lit "<br />", rest) else None
  | [] => None
  end.

(** [formatBotMessage]; [content.replace] on a missing content throws. *)
Definition formatBotMessage (content : option jsstring) : completion jsstring :=
  s <- deref content ;;
  ret (replace_all br_at (replace_all em_at (replace_all bold_at s))).

(** The [__html] of a message bubble:
    [message.type === 'bot' ? formatBotMessage(message.content) : message.content]. *)
Definition inner_html (m : ChatMessage) : completion (option jsstring) :=
  match type m with
  | bot => h <- formatBotMessage (content m) ;; ret (Some h)
  | user => ret (content m)
  end.

(** [messages.map(...)] of the render. *)
Fixpoint render (ms : list ChatMessage) : completion (list (option jsstring)) :=
  match ms with
  | [] => ret []
  | m :: ms' =>
      h <- inner_html m ;;
      hs <- render ms' ;;
      ret (h :: hs)
  end.

(** A bot message has a text to format. *)
Definition has_text (m : ChatMessage) : bool :=
  match type m, content m with
  | bot, None => false
  | _, _ => true
  end.

Definition no_star (c : N) : bool := negb (N.eqb c star).
Definition no_newline (c : N) : bool := negb (N.eqb c newline).

(** The number of stars in a text. *)
Definition stars (s : jsstring) : nat := length (filter (N.eqb star) s).

(** The number of newlines in a text. *)
Definition newlines (s : jsstring) : nat := length (filter (N.eqb newline) s).

(** A code unit with a newline turned into [<br />]. *)
Definition line_break (c : N) : jsstring :=
  if N.eqb c newline then lit "<br />" else [c].

(** A code unit of plain text, and one that may stand inside a span. *)
Definition plain (c : N) : bool := no_star c && no_newline c.
Definition spanned (c : N) : bool := no_star c && negb (is_line_terminator c).

End ChatRender.

(* ================================================================== *)
(** * Crew detail modal: the flights that carry a crew member *)
(* ================================================================== *)

Module CrewDetailsSpec.
Import CrewDetailsModal.

(** The crew member is among the flight's [Crew_Members]. *)
Definition carries (crew : jsstring) (flight : FlightAssignment) : bool :=
  match Crew_Members flight with
  | Some members =>
      existsb (fun member => strict_eq (Assigned.Crew_ID member) crew) members
  | None => false
  end.

(** Every part of the state except the spinner and the toasts. *)
Definition same_sections (a b : modal) : Prop :=
  crewDetails a = crewDetails b /\
  schedule a = schedule b /\
  preferences a = preferences b /\
  flightAssignments a = flightAssignments b /\
  violations a = violations b /\
  latestRoster a = latestRoster b.

End CrewDetailsSpec.

(* ================================================================== *)
(** * Crew detail modal: failing and succeeding sub-fetches *)
(* ================================================================== *)

Module PartialFailure.
Import CrewDetailsModal.Payload CrewDetailsModal CrewDetailsSpec.

(** The server as the network has it: each request gets an answer with a
    status, or is rejected. *)
Definition http_server := request -> Http.answer body.

(** What [fetchCrewDetails] gets for a request: it awaits the fetch and the
    body and never reads the status. *)
Definition observed (hs : http_server) (r : request) : completion body :=
  Http.body_of (hs r).

(** The request is answered with a 2xx status and a body that parses to
    [b]. *)
Definition answered (hs : http_server) (r : request) (b : body) : Prop :=
  exists resp, hs r = Normal resp /\ Http.ok resp = true /\ Http.json resp = Normal b.

(** The history is answered and lists a latest roster, and the detail of
    that roster is answered with [rosterData]. *)
Definition latest_roster (hs : http_server) (rosterData : body) : Prop :=
  exists rostersData latest older,
    answered hs GetRosterHistory rostersData /\
    rosters rostersData = Some (latest :: older) /\
    answered hs (GetRoster (id latest)) rosterData.

(** The sub-fetch of a section fails: its request fails (it never
    completes, is answered with a status that is not 2xx, or has a body
    that does not parse); for the flight assignments, either of the two
    requests fails or the crew filter throws. *)
Definition failed (hs : http_server) (crew : jsstring) (s : section) : Prop :=
  match s with
  | Schedule => Http.failed (hs (GetSchedule crew)) = true
  | Preferences => Http.failed (hs (GetPreferences crew)) = true
  | Flights =>
      Http.failed (hs GetRosterHistory) = true \/
      exists rostersData latest older,
        answered hs GetRosterHistory rostersData /\
        rosters rostersData = Some (latest :: older) /\
        (Http.failed (hs (GetRoster (id latest))) = true \/
         exists rosterData e,
           answered hs (GetRoster (id latest)) rosterData /\
           crew_flights crew rosterData = Throw e)
  end.

(** The sub-fetch of a section succeeds; for the flight assignments the
    history lists a roster, its detail is answered and the crew filter
    returns. *)
Definition succeeded (hs : http_server) (crew : jsstring) (s : section) : Prop :=
  match s with
  | Schedule => exists b, answered hs (GetSchedule crew) b
  | Preferences => exists b, answered hs (GetPreferences crew) b
  | Flights =>
      exists rosterData crewFlights,
        latest_roster hs rosterData /\
        crew_flights crew rosterData = Normal crewFlights
  end.

(** The section shows the data of its response: the schedule list, the
    preference list, and the flights of the latest roster that carry the
    crew member, in the roster's order. *)
Definition populated (hs : http_server) (crew : jsstring) (s : section)
    (st : modal) : Prop :=
  match s with
  | Schedule =>
      exists b, answered hs (GetSchedule crew) b /\
                schedule st = or_empty (schedules b)
  | Preferences =>
      exists b, answered hs (GetPreferences crew) b /\
                preferences st = or_empty (Payload.preferences b)
  | Flights =>
      exists rosterData,
        latest_roster hs rosterData /\
        flightAssignments st =
          filter (carries crew) (or_empty (roster_data rosterData))
  end.

(** The failures the component turns into an empty section.  For the
    schedule and the preferences: the request throws (rejected fetch,
    unparsable body), or it is answered with a status that is not 2xx and a
    body without the list.  For the flight assignments: the derivation
    throws (the history or the roster request throws, or the crew filter
    does). *)
Definition isolated (hs : http_server) (crew : jsstring) (s : section) : Prop :=
  match s with
  | Schedule =>
      Http.throws (hs (GetSchedule crew)) = true \/
      exists resp b,
        hs (GetSchedule crew) = Normal resp /\ Http.ok resp = false /\
        Http.json resp = Normal b /\ schedules b = None
  | Preferences =>
      Http.throws (hs (GetPreferences crew)) = true \/
      exists resp b,
        hs (GetPreferences crew) = Normal resp /\ Http.ok resp = false /\
        Http.json resp = Normal b /\ Payload.preferences b = None
  | Flights => exists e, latest_roster_flights (observed hs) crew = Throw e
  end.

End PartialFailure.

(* ================================================================== *)
(** * Disruption chat: the answer of the chat endpoint *)
(* ================================================================== *)

Module ChatAnswer.
Import DisruptionChatbot.

(** The rest of [handleSendMessage] on the answer of the chat endpoint: the
    handler awaits the fetch and the body and never reads the status. *)
Definition handleSendMessage_answered (now date : Z)
    (a : Http.answer ChatData) (st : chat) : chat :=
  handleSendMessage_settled now date (Http.body_of a) st.

End ChatAnswer.

(* ================================================================== *)
(** * Flights list: what the search is meant to keep *)
(* ================================================================== *)

Module FlightsFilterSpec.
Import FlightsList.

Section Spec.

Variable toLowerCase : jsstring -> jsstring.

(** The search term is empty, or it occurs (case-insensitively) in the
    flight number, the origin or the destination. *)
Definition flight_matches (term : jsstring) (flight : Flight) : bool :=
  negb (truthy_str term)
  || CrewFilterSpec.text_matches toLowerCase term (Flight_Number flight)
  || CrewFilterSpec.text_matches toLowerCase term (Origin flight)
  || CrewFilterSpec.text_matches toLowerCase term (Destination flight).

End Spec.
End FlightsFilterSpec.

(* ================================================================== *)
(** * Crew list: the schedule and preferences of the selected crew member *)
(* ================================================================== *)

Module CrewSelection.
Import CrewDetailsModal.Payload.

(** The two requests [handleCrewSelect] starts, by the function that
    awaits them. *)
Inductive call :=
| fetchCrewSchedule (crewId : field)
| fetchCrewPreferences (crewId : field).

(** The part of the crew list's state the dialog shows, and the calls
    still awaited, oldest first. *)
Record panel := {
  selectedCrew : option CrewMember;
  crewSchedule : list CrewDetailsModal.CrewSchedule;
  crewPreferences : list CrewDetailsModal.CrewPreference;
  pending : list call
}.

(** [handleCrewSelect] up to its [await]: the selection is set and both
    fetches are started, the schedule's first. *)
Definition handleCrewSelect (crew : CrewMember) (s : panel) : panel :=
  {| selectedCrew := Some crew;
     crewSchedule := crewSchedule s;
     crewPreferences := crewPreferences s;
     pending := pending s ++ [fetchCrewSchedule (Crew_ID crew);
                              fetchCrewPreferences (Crew_ID crew)] |}.

(** The rest of a fetch, run when its request settles: the list of the
    parsed body (or the empty list when the body has none) on success, the
    empty list on failure. *)
Definition settled (c : call) (r : completion body) (s : panel) : panel :=
  match c with
  | fetchCrewSchedule _ =>
      {| selectedCrew := selectedCrew s;
         crewSchedule := match r with
                         | Normal data => or_empty (schedules data)
                         | Throw _ => []
                         end;
         crewPreferences := crewPreferences s;
         pending := pending s |}
  | fetchCrewPreferences _ =>
      {| selectedCrew := selectedCrew s;
         crewSchedule := crewSchedule s;
         crewPreferences := match r with
                            | Normal data => or_empty (preferences data)
                            | Throw _ => []
                            end;
         pending := pending s |}
  end.

Inductive event :=
| Select (crew : CrewMember)
| Settle (k : nat) (r : completion body).

Definition step (s : panel) (e : event) : panel :=
  match e with
  | Select crew => handleCrewSelect crew s
  | Settle k r =>
      match nth_error (pending s) k with
      | Some c =>
          let s' := settled c r s in
          {| selectedCrew := selectedCrew s';
             crewSchedule := crewSchedule s';
             crewPreferences := crewPreferences s';
             pending := FlightsList.remove_nth k (pending s) |}
      | None => s
      end
  end.

Definition steps (s : panel) (es : list event) : panel := fold_left step es s.

End CrewSelection.

(* ================================================================== *)
(** * Roster page: generating and deleting a roster *)
(* ================================================================== *)

Module RosterPage.
Import Index.

(** A roster summary of the history endpoint. *)
Record RosterHistoryItem := {
  id : Z
}.

(** What [fetch] resolves to: the [ok] flag of the status and the outcome
    of [response.json()]. *)
Record response (A : Type) := {
  ok : bool;
  json : completion A
}.
Arguments ok {A} r.
Arguments json {A} r.

(** The body of the history endpoint. *)
Record history_body := {
  rosters : option (list RosterHistoryItem)
}.

Inductive toast :=
| success (msg : jsstring)
| error (msg : jsstring).

(** A calendar event made from a roster flight. *)
Module Event.
Record t := {
  id : nat;
  title : jsstring;
  start : Num.number;
  end_ : Num.number;
  resource : FlightData
}.
End Event.

(** The page state read by the handlers, with the toasts raised. *)
Record page := {
  rosterData : option RosterResponse;
  rosterHistory : list RosterHistoryItem;
  loading : bool;
  events : list Event.t;
  toasts : list toast
}.

Definition raise (t : toast) (st : page) : page :=
  {| rosterData := rosterData st; rosterHistory := rosterHistory st;
     loading := loading st; events := events st; toasts := toasts st ++ [t] |}.

Definition setLoading (b : bool) (st : page) : page :=
  {| rosterData := rosterData st; rosterHistory := rosterHistory st;
     loading := b; events := events st; toasts := toasts st |}.

Definition setRosterHistory (l : list RosterHistoryItem) (st : page) : page :=
  {| rosterData := rosterData st; rosterHistory := l;
     loading := loading st; events := events st; toasts := toasts st |}.

Section Handlers.

Variable Date_getTime : jsstring -> Num.number.

(** [" → "]: a space, U+2192, a space. *)
Definition arrow : jsstring := [32; 8594; 32]%N.

(** The callback of the calendar effect, on a flight and its index. *)
Definition calendar_event (p : nat * FlightData) : Event.t :=
  let (index, flight) := p in
  {| Event.id := index;
     Event.title := Flight_Number flight ++ lit " | " ++ Origin flight
                    ++ arrow ++ Destination flight;
     Event.start := Date_getTime (Duty_Start flight);
     Event.end_ := Date_getTime (Duty_End flight);
     Event.resource := flight |}.

(** [rosterData.roster.map((flight, index) => ...)]. *)
Definition calendarEvents (flights : list FlightData) : list Event.t :=
  map calendar_event (combine (seq 0 (length flights)) flights).

(** [setRosterData(data)] and the effect that depends on [rosterData]: the
    events are replaced when the payload has a [roster], and left as they
    are when it has none. *)
Definition setRosterData (data : RosterResponse) (st : page) : page :=
  {| rosterData := Some data; rosterHistory := rosterHistory st;
     loading := loading st;
     events := match roster data with
               | Some flights => calendarEvents flights
               | None => events st
               end;
     toasts := toasts st |}.

(** The body a fetch ends with when the status is not looked at. *)
Definition body_of {A} (f : completion (response A)) : completion A :=
  resp <- f ;; json resp.

(** [fetchRosterHistory], given what its fetch settles with; it catches
    its own failures. *)
Definition fetchRosterHistory (hist : completion (response history_body))
    (st : page) : page :=
  match body_of hist with
  | Normal data => setRosterHistory (or_empty (rosters data)) st
  | Throw _ => raise (error (lit "Failed to fetch roster history")) st
  end.

(** [generateRoster], given what its POST settles with and what the history
    request it may go on to make settles with. *)
Definition generateRoster (gen : completion (response RosterResponse))
    (hist : completion (response history_body)) (st : page) : page :=
  let st := setLoading true st in
  let failed := raise (error (lit "Failed to generate roster")) st in
  let st :=
    match gen with
    | Normal resp =>
        if negb (ok resp) then failed
        else
          match json resp with
          | Normal data =>
              let st := setRosterData data st in
              let st := raise (success (lit "Roster generated successfully!")) st in
              fetchRosterHistory hist st
          | Throw _ => failed
          end
    | Throw _ => failed
    end in
  setLoading false st.

(** [deleteRoster], given what its DELETE settles with and what the history
    request it may go on to make settles with.  The body of the DELETE
    response is not read. *)
Definition deleteRoster {A} (del : completion (response A))
    (hist : completion (response history_body)) (st : page) : page :=
  let failed := raise (error (lit "Failed to delete roster")) st in
  match del with
  | Normal resp =>
      if negb (ok resp) then failed
      else fetchRosterHistory hist
             (raise (success (lit "Roster deleted successfully")) st)
  | Throw _ => failed
  end.

End Handlers.

(** The roster a generate request delivers: the parsed body of a response
    with an [ok] status. *)
Definition accepted (gen : completion (response RosterResponse))
  : option RosterResponse :=
  match gen with
  | Normal resp =>
      if ok resp then
        match json resp with
        | Normal data => Some data
        | Throw _ => None
        end
      else None
  | Throw _ => None
  end.

(** The DELETE was answered with an [ok] status. *)
Definition deleted {A} (del : completion (response A)) : bool :=
  match del with
  | Normal resp => ok resp
  | Throw _ => false
  end.

(** What the history refresh leaves: the list and the toast, if any. *)
Definition refreshed (hist : completion (response history_body))
    (before : list RosterHistoryItem) : list RosterHistoryItem :=
  match hist with
  | Normal resp =>
      match json resp with
      | Normal data => or_empty (rosters data)
      | Throw _ => before
      end
  | Throw _ => before
  end.

Definition refresh_toasts (hist : completion (response history_body)) : list toast :=
  match hist with
  | Normal resp =>
      match json resp with
      | Normal _ => []
      | Throw _ => [error (lit "Failed to fetch roster history")]
      end
  | Throw _ => [error (lit "Failed to fetch roster history")]
  end.

End RosterPage.

(* ================================================================== *)
(** * System status: the span of the flight data in days *)
(* ================================================================== *)

Module SystemStatus.

(** [Math.ceil]: the least integer not below the argument; an integral
    argument, an infinity, a zero or NaN is returned unchanged and a result
    that is zero keeps the sign of the argument. *)
Definition Math_ceil (x : Num.number) : Num.number :=
  match x with
  | S754_finite s m e =>
      if (0 <=? e)%Z then x
      else
        let d := Z.pow 2 (- e) in
        let v := if s then Z.neg m else Z.pos m in
        let n := (- ((- v) / d))%Z in
        if (n =? 0)%Z then S754_zero s else Num.of_Z n
  | _ => x
  end.

Record DateRange := {
  min : jsstring;
  max : jsstring
}.

(** [interface SystemData]; the counts are displayed as received. *)
Record SystemData := {
  crew_count : option Z;
  flights_count : option Z;
  flights_date_range : option DateRange
}.

Section Derivation.

Variable Date_getTime : jsstring -> Num.number.

Definition getDateRangeDays (systemData : option SystemData) : Num.number :=
  match systemData with
  | None => Num.of_Z 0
  | Some data =>
      match flights_date_range data with
      | None => Num.of_Z 0
      | Some range =>
          let start_ := Date_getTime (min range) in
          let end_ := Date_getTime (max range) in
          Num.add
            (Math_ceil
               (Num.div (Num.sub end_ start_)
                  (Num.mul (Num.mul (Num.mul (Num.of_Z 1000) (Num.of_Z 60))
                                    (Num.of_Z 60))
                           (Num.of_Z 24))))
            (Num.of_Z 1)
      end
  end.

End Derivation.
End SystemStatus.

(* ================================================================== *)
(** * Violation histogram: the order of the categories *)
(* ================================================================== *)

Module CategoryOrder.
Import JSObject.

(** The keys of a list that are not among [seen], each once, in the order
    of first occurrence. *)
Fixpoint distinct (seen : list jsstring) (l : list jsstring) : list jsstring :=
  match l with
  | [] => []
  | k :: l' =>
      if mem_str k seen then distinct seen l'
      else k :: distinct (seen ++ [k]) l'
  end.

(** A category that is neither a name of [Object.prototype] nor an array
    index. *)
Definition ordinary (v : Index.Violation) : bool :=
  negb (mem_str (Index.category v) Object_prototype_keys)
  && match array_index (Index.category v) with
     | Some _ => false
     | None => true
     end.

End CategoryOrder.

(* ================================================================== *)
(** * Flights list: the request in flight *)
(* ================================================================== *)

Module FlightsFetch.
Import FlightsList.

(** Either the spinner is on and exactly one request is awaited, the one
    for the current parameters, or the spinner is off and nothing is
    awaited.  (The component mounts with the spinner on and the request for
    its initial parameters awaited.) *)
Definition coherent (s : page) : Prop :=
  (loading s = true /\ awaited s = [query_of (current s)]) \/
  (loading s = false /\ awaited s = []).

(** The component as mounted. *)
Definition mounted : page :=
  let initial := {| currentPage := 1; originFilter := lit "all";
                    destinationFilter := lit "all"; aircraftFilter := lit "all";
                    dateFilter := lit "" |} in
  {| flights := []; totalFlights := 0; loading := true; current := initial;
     awaited := [query_of initial] |}.

End FlightsFetch.

(* ================================================================== *)
(** * Sample data *)
(* ================================================================== *)

(** The three-member crew list of the end-to-end scenario: only the second
    member is based in DEL and a Captain. *)
Definition crew_of (id name base rank : string) : CrewMember :=
  {| Crew_ID := Some (lit id); Name := Some (lit name); Base := Some (lit base);
     Rank := Some (lit rank); Qualification := Some (lit "Senior");
     Aircraft_Type_License := Some (lit "A320neo, A321neo");
     Leave_Start := None; Leave_End := None |}.

Definition three_crew : list CrewMember :=
  [ crew_of "CP001" "Asha" "DEL" "First Officer";
    crew_of "CP002" "Bala" "DEL" "Captain";
    crew_of "CP003" "Chitra" "BOM" "Captain" ].


(** A crew record whose [Name] is missing from the payload. *)
Definition nameless_crew : CrewMember :=
  {| Crew_ID := Some (lit "CP009"); Name := None; Base := Some (lit "DEL");
     Rank := Some (lit "Captain"); Qualification := None;
     Aircraft_Type_License := Some (lit "ATR");
     Leave_Start := None; Leave_End := None |}.

(** Two time stamps ten seconds apart, with the time values a runtime's
    date parser gives them. *)
Definition sample_getTime (s : jsstring) : Num.number :=
  if str_eqb s (lit "2023-10-01T10:00:00Z") then Num.of_Z 1696154400000
  else if str_eqb s (lit "2023-10-01T10:00:10Z") then Num.of_Z 1696154410000
  else S754_nan.

Definition short_duty_flight : Index.FlightData :=
  {| Index.Date := lit "2023-10-01";
     Index.Flight_Number := lit "6E101";
     Index.Duty_Start := lit "2023-10-01T10:00:00Z";
     Index.Duty_End := lit "2023-10-01T10:00:10Z";
     Index.Aircraft_Type := lit "A320neo";
     Index.Origin := lit "DEL";
     Index.Destination := lit "BOM";
     Index.Duration := lit "2:10";
     Index.Crew_Members :=
       [ {| Index.Crew_ID := lit "CP001"; Index.Crew_Rank := lit "Captain" |} ] |}.

Definition short_duty_roster : Index.RosterResponse :=
  {| Index.roster := Some [short_duty_flight]; Index.violations := Some [] |}.

(** A server for the crew detail modal: the crew list, a schedule and a
    preference per crew member, and one roster with one flight flown by
    CP001 and CP002. *)
Definition sample_schedule (n : Z) : CrewDetailsModal.CrewSchedule :=
  {| CrewDetailsModal.roster_id := n;
     CrewDetailsModal.start_date := lit "2023-10-01";
     CrewDetailsModal.end_date := lit "2023-10-07";
     CrewDetailsModal.violation_count := 0 |}.

Definition sample_preference (d : string) : CrewDetailsModal.CrewPreference :=
  {| CrewDetailsModal.type := lit "Day Off";
     CrewDetailsModal.detail := lit d;
     CrewDetailsModal.priority := lit "High" |}.

Definition sample_assignment : CrewDetailsModal.FlightAssignment :=
  {| CrewDetailsModal.Date := Some (lit "2023-10-01");
     CrewDetailsModal.Flight_Number := Some (lit "6E101");
     CrewDetailsModal.Duty_Start := Some (lit "2023-10-01T10:00:00Z");
     CrewDetailsModal.Duty_End := Some (lit "2023-10-01T12:10:00Z");
     CrewDetailsModal.Aircraft_Type := Some (lit "A320neo");
     CrewDetailsModal.Origin := Some (lit "DEL");
     CrewDetailsModal.Destination := Some (lit "BOM");
     CrewDetailsModal.Duration := Some (lit "2:10");
     CrewDetailsModal.Crew_Members :=
       Some [ {| CrewDetailsModal.Assigned.Crew_ID := Some (lit "CP001");
                 CrewDetailsModal.Assigned.Crew_Rank := Some (lit "First Officer") |};
              {| CrewDetailsModal.Assigned.Crew_ID := Some (lit "CP002");
                 CrewDetailsModal.Assigned.Crew_Rank := Some (lit "Captain") |} ] |}.

Definition sample_server (r : CrewDetailsModal.request)
  : completion CrewDetailsModal.Payload.body :=
  match r with
  | CrewDetailsModal.GetCrew =>
      Normal {| CrewDetailsModal.Payload.crew_members := Some three_crew;
                CrewDetailsModal.Payload.schedules := None;
                CrewDetailsModal.Payload.preferences := None;
                CrewDetailsModal.Payload.rosters := None;
                CrewDetailsModal.Payload.roster_data := None |}
  | CrewDetailsModal.GetSchedule crew =>
      Normal {| CrewDetailsModal.Payload.crew_members := None;
                CrewDetailsModal.Payload.schedules :=
                  Some [sample_schedule (if str_eqb crew (lit "CP001") then 1 else 2)];
                CrewDetailsModal.Payload.preferences := None;
                CrewDetailsModal.Payload.rosters := None;
                CrewDetailsModal.Payload.roster_data := None |}
  | CrewDetailsModal.GetPreferences crew =>
      Normal {| CrewDetailsModal.Payload.crew_members := None;
                CrewDetailsModal.Payload.schedules := None;
                CrewDetailsModal.Payload.preferences :=
                  Some [if str_eqb crew (lit "CP001")
                        then sample_preference "Sunday"
                        else sample_preference "Friday"];
                CrewDetailsModal.Payload.rosters := None;
                CrewDetailsModal.Payload.roster_data := None |}
  | CrewDetailsModal.GetRosterHistory =>
      Normal {| CrewDetailsModal.Payload.crew_members := None;
                CrewDetailsModal.Payload.schedules := None;
                CrewDetailsModal.Payload.preferences := None;
                CrewDetailsModal.Payload.rosters := Some [ {| CrewDetailsModal.id := 7 |} ];
                CrewDetailsModal.Payload.roster_data := None |}
  | CrewDetailsModal.GetRoster _ =>
      Normal {| CrewDetailsModal.Payload.crew_members := None;
                CrewDetailsModal.Payload.schedules := None;
                CrewDetailsModal.Payload.preferences := None;
                CrewDetailsModal.Payload.rosters := None;
                CrewDetailsModal.Payload.roster_data := Some [sample_assignment] |}
  end.

Definition no_draws : CrewDetailsModal.draws := fun _ => O.

(** The sample server as the network has it: every request answered 200. *)
Definition ok_server : PartialFailure.http_server :=
  fun r =>
    match sample_server r with
    | Normal b => Normal {| Http.ok := true; Http.json := Normal b |}
    | Throw e => Throw e
    end.

(** The body of an error answer: none of the fields the modal reads. *)
Definition error_body : CrewDetailsModal.Payload.body :=
  {| CrewDetailsModal.Payload.crew_members := None;
     CrewDetailsModal.Payload.schedules := None;
     CrewDetailsModal.Payload.preferences := None;
     CrewDetailsModal.Payload.rosters := None;
     CrewDetailsModal.Payload.roster_data := None |}.

Definition refused : Http.answer CrewDetailsModal.Payload.body :=
  Normal {| Http.ok := false; Http.json := Normal error_body |}.

(** The schedule endpoint, and the history endpoint, answering 500 with an
    error body. *)
Definition schedule_refused_server : PartialFailure.http_server :=
  fun r =>
    match r with
    | CrewDetailsModal.GetSchedule _ => refused
    | _ => ok_server r
    end.

Definition history_refused_server : PartialFailure.http_server :=
  fun r =>
    match r with
    | CrewDetailsModal.GetRosterHistory => refused
    | _ => ok_server r
    end.

Definition closed_app : CrewDetailsModal.app :=
  {| CrewDetailsModal.selectedCrewId := None;
     CrewDetailsModal.isModalOpen := false;
     CrewDetailsModal.view := CrewDetailsModal.initial;
     CrewDetailsModal.inflight := [] |}.

(** A flights page with nothing awaited, and two parameter snapshots. *)
Definition page_params (n : Z) (o : string) : FlightsList.params :=
  {| FlightsList.currentPage := n;
     FlightsList.originFilter := lit o;
     FlightsList.destinationFilter := lit "all";
     FlightsList.aircraftFilter := lit "all";
     FlightsList.dateFilter := lit "" |}.

Definition sample_flight (n o : string) : FlightsList.Flight :=
  {| FlightsList.Date := Some (lit "2023-10-01");
     FlightsList.Flight_Number := Some (lit n);
     FlightsList.Origin := Some (lit o);
     FlightsList.Destination := Some (lit "BOM");
     FlightsList.Scheduled_Departure_UTC := Some (lit "10:00:00");
     FlightsList.Scheduled_Arrival_UTC := Some (lit "12:10:00");
     FlightsList.Aircraft_Type := Some (lit "A320neo");
     FlightsList.Duration_HH_MM := Some (lit "02:10") |}.

Definition flights_data (n o : string) : FlightsList.Payload.data :=
  {| FlightsList.Payload.flights := Some [sample_flight n o];
     FlightsList.Payload.total := Some 1%Z |}.

(** A flight whose duty stamps are in the wrong order, and one whose start
    stamp is not a date. *)
Definition reversed_duty_flight : Index.FlightData :=
  {| Index.Date := lit "2023-10-01";
     Index.Flight_Number := lit "6E202";
     Index.Duty_Start := lit "2023-10-01T10:00:10Z";
     Index.Duty_End := lit "2023-10-01T10:00:00Z";
     Index.Aircraft_Type := lit "A320neo";
     Index.Origin := lit "BOM";
     Index.Destination := lit "DEL";
     Index.Duration := lit "2:10";
     Index.Crew_Members := [] |}.

Definition undated_duty_flight : Index.FlightData :=
  {| Index.Date := lit "2023-10-01";
     Index.Flight_Number := lit "6E303";
     Index.Duty_Start := lit "TBD";
     Index.Duty_End := lit "2023-10-01T10:00:00Z";
     Index.Aircraft_Type := lit "A321neo";
     Index.Origin := lit "BLR";
     Index.Destination := lit "DEL";
     Index.Duration := lit "2:40";
     Index.Crew_Members := [] |}.

Definition sick_report : jsstring := lit "FO002 called in sick for tomorrow".

Definition sample_reply : DisruptionChatbot.ChatData :=
  {| DisruptionChatbot.response := Some (lit "**FO002** is marked sick");
     DisruptionChatbot.suggested_actions := Some [lit "view_roster"] |}.

(** The sample server with the profile endpoint down. *)
Definition profile_down_server (r : CrewDetailsModal.request)
  : completion CrewDetailsModal.Payload.body :=
  match r with
  | CrewDetailsModal.GetCrew => Throw NetworkError
  | _ => sample_server r
  end.

Definition two_flights : list FlightsList.Flight :=
  [sample_flight "6E101" "DEL"; sample_flight "6E202" "BLR"].

Definition empty_roster_page : RosterPage.page :=
  {| RosterPage.rosterData := None; RosterPage.rosterHistory := [];
     RosterPage.loading := false; RosterPage.events := [];
     RosterPage.toasts := [] |}.

(** A generate request answered with an error status and a body that
    parses. *)
Definition refused_generation : completion (RosterPage.response Index.RosterResponse) :=
  Normal {| RosterPage.ok := false; RosterPage.json := Normal short_duty_roster |}.

Definition granted_generation : completion (RosterPage.response Index.RosterResponse) :=
  Normal {| RosterPage.ok := true; RosterPage.json := Normal short_duty_roster |}.

Definition history_down : completion (RosterPage.response RosterPage.history_body) :=
  Throw NetworkError.

Definition one_day_status : SystemStatus.SystemData :=
  {| SystemStatus.crew_count := Some 120%Z;
     SystemStatus.flights_count := Some 840%Z;
     SystemStatus.flights_date_range :=
       Some {| SystemStatus.min := lit "2023-10-01T10:00:00Z";
               SystemStatus.max := lit "2023-10-01T10:00:00Z" |} |}.

(* ================================================================== *)
(** * Properties *)
(* ================================================================== *)

(** ** Strings and throwing filters *)

Lemma str_eqb_eq a b : str_eqb a b = true <-> a = b.
Proof. unfold str_eqb; destruct (jsstring_eq_dec a b); split; congruence. Qed.

Lemma str_eqb_refl a : str_eqb a a = true.
Proof. now apply str_eqb_eq. Qed.

Lemma str_eqb_neq a b : a <> b -> str_eqb a b = false.
Proof. unfold str_eqb; destruct (jsstring_eq_dec a b); congruence. Qed.

Lemma filter_true {A} (l : list A) : filter (fun _ => true) l = l.
Proof. induction l as [|x l IH]; simpl; congruence. Qed.

Lemma filter_filter {A} (p q : A -> bool) (l : list A) :
  filter q (filter p l) = filter (fun x => p x && q x) l.
Proof.
  induction l as [|x l IH]; simpl; trivial.
  destruct (p x); simpl; [destruct (q x)|]; congruence.
Qed.

Lemma filterM_ok {A} (p : A -> completion bool) (q : A -> bool) (l : list A) :
  (forall x, In x l -> p x = Normal (q x)) ->
  filterM p l = Normal (filter q l).
Proof.
  induction l as [|x l IH]; simpl; intros H; trivial.
  rewrite (H x (or_introl eq_refl)); simpl.
  rewrite IH by (intros; apply H; now right); simpl.
  now destruct (q x).
Qed.

Lemma filterM_inv {A} (p : A -> completion bool) (l r : list A) :
  filterM p l = Normal r ->
  forall x, In x l -> exists b, p x = Normal b.
Proof.
  revert r; induction l as [|y l IH]; simpl; intros r H x Hx; [easy|].
  destruct (p y) as [b|e] eqn:Hy; simpl in H; [|discriminate].
  destruct (filterM p l) as [r'|e] eqn:Hl; simpl in H; [|discriminate].
  destruct Hx as [<-|Hx]; [now exists b | now apply (IH r')].
Qed.

Lemma filterM_throw {A} (p : A -> completion bool) (l : list A) x e :
  In x l -> p x = Throw e -> exists e', filterM p l = Throw e'.
Proof.
  intros Hx Hp.
  destruct (filterM p l) as [r|e'] eqn:H; [|now exists e'].
  destruct (filterM_inv _ _ H x Hx) as [b Hb]; congruence.
Qed.

(** What a filter that returns has kept. *)
Lemma filterM_filter {A} (p : A -> completion bool) (q : A -> bool) (l : list A) :
  forall r,
  filterM p l = Normal r ->
  (forall x b, In x l -> p x = Normal b -> q x = b) ->
  r = filter q l.
Proof.
  induction l as [|x l IH]; simpl; intros r H Hq.
  - now injection H as <-.
  - destruct (p x) as [b|e] eqn:Hx; simpl in H; [|discriminate].
    destruct (filterM p l) as [r'|e] eqn:Hl; simpl in H; [|discriminate].
    unfold ret in H. injection H as <-.
    rewrite (Hq x b (or_introl eq_refl) Hx).
    rewrite (IH r' eq_refl) by (intros y c Hy; apply Hq; now right).
    reflexivity.
Qed.

(** ** Filter engine *)

Module CrewFilterFacts.
Import CrewFilter.

Section Laws.

Variable toLowerCase : jsstring -> jsstring.

Local Abbreviation filterCrew := (filterCrewMembers toLowerCase).
Local Abbreviation stage := (CrewFilter.stage toLowerCase).
Local Abbreviation keeps := (CrewFilter.keeps toLowerCase).
Local Abbreviation callback := (CrewFilter.callback toLowerCase).

Lemma bind_ret {A} (m : completion A) : (x <- m ;; ret x) = m.
Proof. now destruct m. Qed.

(** The source's four guarded steps are the four stages in a row. *)
Lemma filterCrew_stages items c :
  filterCrew items c =
  (l1 <- stage FSearch c items ;;
   l2 <- stage FBase c l1 ;;
   l3 <- stage FRank c l2 ;;
   stage FAircraft c l3).
Proof.
  unfold filterCrewMembers, CrewFilter.stage; simpl.
  destruct (if truthy_str (searchTerm c) then _ else _); simpl; trivial.
  destruct (if negb (str_eqb (selectedBase c) _) then _ else _); simpl; trivial.
  destruct (if negb (str_eqb (selectedRank c) _) then _ else _); simpl; trivial.
  apply bind_ret.
Qed.

Lemma value_of_constrain_same f v c : value_of f (constrain f v c) = v.
Proof. now destruct f. Qed.

Lemma value_of_constrain_other f g v c :
  f <> g -> value_of g (constrain f v c) = value_of g c.
Proof. destruct f, g; simpl; congruence. Qed.



Lemma keeps_constrain_other f g v c x :
  f <> g -> keeps g (constrain f v c) x = keeps g c x.
Proof.
  intros H; unfold CrewFilter.keeps.
  now rewrite (value_of_constrain_other v c H).
Qed.


(** A stage whose callbacks all return is an ordinary [filter]. *)
Lemma stage_total f c l :
  (active f (value_of f c) = true ->
   forall x, In x l -> exists b, callback f (value_of f c) x = Normal b) ->
  stage f c l = Normal (filter (keeps f c) l).
Proof.
  unfold CrewFilter.stage, CrewFilter.keeps.
  destruct (active f (value_of f c)); intros H.
  - apply filterM_ok. intros x Hx.
    destruct (H eq_refl x Hx) as [b ->]; reflexivity.
  - now rewrite filter_true.
Qed.

(** A stage that returned on a list returns on each of its sublists. *)
Lemma stage_incl f c l r l' :
  stage f c l = Normal r -> incl l' l ->
  stage f c l' = Normal (filter (keeps f c) l').
Proof.
  intros H Hi. apply stage_total. intros Ha x Hx.
  unfold CrewFilter.stage in H. rewrite Ha in H.
  exact (filterM_inv _ _ H x (Hi x Hx)).
Qed.

Lemma stage_result f c l r :
  stage f c l = Normal r -> r = filter (keeps f c) l.
Proof.
  intros H. pose proof (stage_incl _ _ H (incl_refl l)) as H'. congruence.
Qed.

Lemma incl_filter {A} (p : A -> bool) (l : list A) : incl (filter p l) l.
Proof. intros x Hx. now apply filter_In in Hx. Qed.

(** When every stage returns on the whole input, so does the pipeline, and
    it keeps exactly the items every stage keeps, in the input's order. *)
Lemma filterCrew_total items c :
  (forall f, exists r, stage f c items = Normal r) ->
  filterCrew items c =
  Normal (filter (fun x => keeps FSearch c x && keeps FBase c x
                           && keeps FRank c x && keeps FAircraft c x) items).
Proof.
  intros H. rewrite filterCrew_stages.
  destruct (H FSearch) as [r1 H1], (H FBase) as [r2 H2],
           (H FRank) as [r3 H3], (H FAircraft) as [r4 H4].
  rewrite (stage_incl _ _ H1 (incl_refl items)); simpl.
  rewrite (stage_incl _ _ H2 (incl_filter _ items)); simpl.
  rewrite (stage_incl (l' := filter _ (filter _ items)) _ _ H3); simpl.
  2:{ eapply incl_tran; apply incl_filter. }
  rewrite (stage_incl (l' := filter _ (filter _ (filter _ items))) _ _ H4); simpl.
  2:{ eapply incl_tran; [apply incl_filter|]. eapply incl_tran; apply incl_filter. }
  rewrite !filter_filter. f_equal.
  apply filter_ext; intros x; now rewrite !andb_assoc.
Qed.







End Laws.
End CrewFilterFacts.

Section FilterClaims.
Import CrewFilter CrewFilterFacts.

Variable toLowerCase : jsstring -> jsstring.

(** C5 (filter identity law).  With nothing constrained (empty search text,
    every categorical criterion at the ['all'] sentinel) the crew filter hands
    back its input unchanged, whatever the items are; this holds for the crew
    list with the detail modal and for the crew list of
    [src/components/CrewList.tsx] alike. *)
Theorem filter_identity_law (items : list CrewMember) :
  filterCrewMembers toLowerCase items clearFilters = Normal items /\
  filterCrewMembers_CrewList toLowerCase items clearFilters = Normal items.
Proof. split; reflexivity. Qed.




Lemma well_typed_callbacks f v x :
  well_typed_crew x -> exists b, callback toLowerCase f v x = Normal b.
Proof.
  intros (Hn & Hi & Ha).
  destruct f; simpl;
    unfold search_callback, base_callback, rank_callback, aircraft_callback,
           orelse, lower_includes; eauto.
  - destruct (Name x); [|easy]. destruct (Crew_ID x); [|easy]. simpl.
    destruct (includes _ _); simpl; eauto.
  - destruct (Aircraft_Type_License x); [|easy]. simpl; eauto.
Qed.



Lemma well_typed_flight_callback term x :
  FlightsList.well_typed_flight x ->
  exists b, FlightsList.flight_callback toLowerCase term x = Normal b.
Proof.
  intros (Hn & Ho & Hd).
  unfold FlightsList.flight_callback, orelse, lower_includes.
  destruct (FlightsList.Flight_Number x); [|easy].
  destruct (FlightsList.Origin x); [|easy].
  destruct (FlightsList.Destination x); [|easy]. simpl.
  repeat (destruct (includes _ _); simpl; eauto).
Qed.

(** C7, as amended.  The filters are total on well-typed items: when every
    field a criterion reads ([Name], [Crew_ID], [Aircraft_Type_License]; for
    flights [Flight_Number], [Origin], [Destination]) is present, applying
    any criteria returns a list.  The categorical [Base] and [Rank] criteria
    are total on every input, and an item whose [Base] or [Rank] is missing
    is treated by them as non-matching. *)
Theorem filter_total_on_well_typed_items
    (items : list CrewMember) (c : Criteria)
    (flights : list FlightsList.Flight) (term : jsstring) :
  Forall well_typed_crew items ->
  Forall FlightsList.well_typed_flight flights ->
  (exists r, filterCrewMembers toLowerCase items c = Normal r) /\
  (exists r, FlightsList.filterFlights toLowerCase flights term = Normal r) /\
  (forall (any : list CrewMember) (b rk : jsstring),
     exists r,
       filterCrewMembers toLowerCase any
         {| searchTerm := lit ""; selectedBase := b;
            selectedRank := rk; selectedAircraft := lit "all" |} = Normal r /\
       forall x, In x r ->
         In x any /\
         (b <> lit "all" -> Base x = Some b) /\
         (rk <> lit "all" -> Rank x = Some rk)).
Proof.
  intros Hc Hf. rewrite Forall_forall in Hc, Hf. split; [|split].
  - eexists. apply filterCrew_total. intros f. eexists.
    apply stage_total. intros _ x Hx. apply well_typed_callbacks; auto.
  - unfold FlightsList.filterFlights.
    destruct (truthy_str term); simpl; [|eauto].
    erewrite filterM_ok with (q := fun x => answer (FlightsList.flight_callback toLowerCase term x)).
    + simpl; eauto.
    + intros x Hx. destruct (well_typed_flight_callback term (Hf x Hx)) as [b0 ->].
      reflexivity.
  - intros any b rk. eexists. split.
    + apply filterCrew_total. intros f. eexists.
      apply stage_total. intros Ha x Hx.
      destruct f; simpl in *; try discriminate;
        unfold base_callback, rank_callback; eauto.
    + intros x Hx. apply filter_In in Hx. destruct Hx as [Hin Hk].
      rewrite !andb_true_iff in Hk. destruct Hk as [[[_ Kb] Kr] _].
      split; [exact Hin|]. unfold CrewFilter.keeps in Kb, Kr; simpl in Kb, Kr.
      split; intros Hne.
      * rewrite (str_eqb_neq Hne) in Kb; simpl in Kb.
        unfold strict_eq in Kb. destruct (Base x); [|discriminate].
        apply str_eqb_eq in Kb. now subst.
      * rewrite (str_eqb_neq Hne) in Kr; simpl in Kr.
        unfold strict_eq in Kr. destruct (Rank x); [|discriminate].
        apply str_eqb_eq in Kr. now subst.
Qed.

End FilterClaims.



(** C7 as stated fails: with a search term, an item without [Name] makes
    [crew.Name.toLowerCase()] throw a TypeError out of the filter. *)
Lemma filter_throws_on_missing_name :
  CrewFilter.filterCrewMembers (fun s => s) [nameless_crew]
    (CrewFilter.constrain CrewFilter.FSearch (lit "a") CrewFilter.clearFilters)
  = Throw TypeError
  /\ ~ (forall (items : list CrewMember) (c : CrewFilter.Criteria),
          exists r, CrewFilter.filterCrewMembers (fun s => s) items c = Normal r).
Proof.
  split; [reflexivity|].
  intros H.
  destruct (H [nameless_crew]
              (CrewFilter.constrain CrewFilter.FSearch (lit "a") CrewFilter.clearFilters))
    as [r Hr].
  discriminate Hr.
Qed.

Lemma filter_total_on_well_typed_items_witness :
  (exists r, CrewFilter.filterCrewMembers (fun s => s) three_crew
               (CrewFilter.constrain CrewFilter.FSearch (lit "a") CrewFilter.clearFilters)
             = Normal r) /\
  (exists r, FlightsList.filterFlights (fun s => s) [] (lit "6E") = Normal r).
Proof.
  destruct (@filter_total_on_well_typed_items (fun s => s) three_crew
              (CrewFilter.constrain CrewFilter.FSearch (lit "a") CrewFilter.clearFilters)
              [] (lit "6E")) as (H1 & H2 & _).
  - repeat constructor; discriminate.
  - constructor.
  - split; assumption.
Defined.

(** ** Disruption chat *)

Section ChatClaims.
Import DisruptionChatbot.

Lemma trimStart_whitespace s :
  forallb is_whitespace s = true -> trimStart s = [].
Proof.
  induction s as [|c s IH]; simpl; trivial.
  intros H; apply andb_true_iff in H as [-> Hs]; auto.
Qed.

Lemma trim_whitespace s :
  forallb is_whitespace s = true -> trim s = [].
Proof.
  intros H; unfold trim, trimEnd. now rewrite (trimStart_whitespace s H).
Qed.

(** C8 (chat submit no-op laws).  When the text in the input box is empty or
    made of whitespace only, or when a previous request is still pending,
    [handleSendMessage] changes nothing: the message list is as it was, and
    so is every other part of the state; no request is sent. *)
Theorem submit_noop (now date : Z) (st : chat) :
  forallb is_whitespace (currentMessage st) = true \/ isLoading st = true ->
  handleSendMessage now date st = st /\
  messages (handleSendMessage now date st) = messages st /\
  requests (handleSendMessage now date st) = requests st.
Proof.
  intros H.
  assert (E : handleSendMessage now date st = st).
  { unfold handleSendMessage. destruct H as [H|H].
    - now rewrite (trim_whitespace _ H).
    - rewrite H. now rewrite orb_true_r. }
  now rewrite E.
Qed.

(** A chat request whose failure reaches the [catch] block (the fetch is
    rejected, or the body does not parse).  From any state in which the
    submit is accepted, the submit followed by such a failure appends the
    user's message and then exactly one fixed apology, in that order, to the
    messages there were; [isLoading] is false again; one error toast is
    raised; and the request log holds the one request of the submit and
    nothing more: the failure path sends nothing.  Such a failure settling
    in any state whatever appends just the apology and sends nothing. *)
Lemma thrown_failure_appends_one_apology (now date now' date' : Z)
    (a : Http.answer ChatData) (st : chat) :
  truthy_str (trim (currentMessage st)) = true ->
  isLoading st = false ->
  Http.throws a = true ->
  let apology :=
    {| id := Number_toString (now' + 1);
       type := bot;
       content := Some (lit "I apologize, but I'm having trouble processing your request right now. Please try again later.");
       timestamp := date';
       suggestedActions := None |} in
  let st1 := handleSendMessage now date st in
  let st2 := ChatAnswer.handleSendMessage_answered now' date' a st1 in
  Http.failed a = true /\
  messages st2 =
    messages st ++
      [ {| id := Number_toString now; type := user;
           content := Some (currentMessage st);
           timestamp := date; suggestedActions := None |};
        apology ] /\
  isLoading st2 = false /\
  requests st2 = requests st ++ [{| message := currentMessage st |}] /\
  toasts st2 = toasts st ++ [lit "Failed to send message"] /\
  (forall s : chat,
     let s' := ChatAnswer.handleSendMessage_answered now' date' a s in
     messages s' = messages s ++ [apology] /\
     isLoading s' = false /\
     requests s' = requests s).
Proof.
  intros Ht Hl Ha apology st1 st2. subst apology st1 st2.
  unfold ChatAnswer.handleSendMessage_answered, handleSendMessage.
  rewrite Ht, Hl; simpl.
  split.
  { unfold Http.throws, Http.body_of in Ha. unfold Http.failed.
    destruct a as [resp|e]; [|reflexivity]. cbn [bind] in Ha.
    destruct (Http.json resp); [discriminate Ha|]. apply orb_true_r. }
  unfold Http.throws in Ha.
  destruct (Http.body_of a) as [d|e]; [discriminate Ha|].
  cbn [handleSendMessage_settled messages isLoading requests toasts].
  rewrite <- app_assoc; simpl. repeat split.
Qed.

Lemma suggested_action_touches_input_only (action : jsstring) (st : chat) :
  let st' := staged_state (handleSuggestedAction action st) in
  messages st' = messages st /\ isLoading st' = isLoading st /\
  requests st' = requests st /\ toasts st' = toasts st.
Proof.
  unfold handleSuggestedAction.
  destruct (suggested_message action) as [|[n| |text]| |]; simpl; auto.
Qed.

(** The three known ids are staged as their canned queries. *)
Lemma suggested_action_known (st : chat) :
  handleSuggestedAction (lit "analyze_disruption") st =
    Staged (setCurrentMessage
      (lit "Please analyze the current disruption situation and provide recommendations.") st) /\
  handleSuggestedAction (lit "view_roster") st =
    Staged (setCurrentMessage
      (lit "Show me the current roster status and any conflicts.") st) /\
  handleSuggestedAction (lit "check_compliance") st =
    Staged (setCurrentMessage
      (lit "Check DGCA compliance for the current roster assignments.") st).
Proof. repeat split. Qed.

(** An action that is neither a known id nor a name answered by
    [Object.prototype] is staged verbatim. *)
Lemma suggested_action_verbatim (action : jsstring) (st : chat) :
  JSObject.own actionMessages action = None ->
  JSObject.mem_str action JSObject.Object_prototype_keys = false ->
  handleSuggestedAction action st = Staged (setCurrentMessage action st).
Proof.
  intros Hown Hkeys.
  unfold handleSuggestedAction, suggested_message, JSObject.get.
  rewrite Hown.
  unfold JSObject.Object_prototype_keys in Hkeys. simpl in Hkeys.
  apply orb_false_iff in Hkeys as [Hp Hm].
  fold JSObject.proto_key in Hp. rewrite Hp.
  unfold JSObject.mem_str. unfold JSObject.Object_prototype_methods. simpl.
  rewrite Hm. reflexivity.
Qed.

(** C10 at the failing input.  The action string ["constructor"] is not
    one of the three known ids, yet [actionMessages["constructor"]] is the
    function inherited from [Object.prototype], which is truthy: the setter
    is handed that function, and the text ["constructor"] is not staged. *)
Theorem suggested_action_inherited_member (st : chat) :
  JSObject.own actionMessages (lit "constructor") = None /\
  handleSuggestedAction (lit "constructor") st =
    NotAString (JSObject.VBuiltin (lit "constructor")) st /\
  handleSuggestedAction (lit "constructor") st <>
    Staged (setCurrentMessage (lit "constructor") st).
Proof. repeat split. discriminate. Qed.

End ChatClaims.

Lemma submit_noop_witness :
  DisruptionChatbot.messages
    (DisruptionChatbot.handleSendMessage 1700000000000 1700000000000
       (DisruptionChatbot.setCurrentMessage (lit "   ")
          (DisruptionChatbot.initial 0)))
  = [DisruptionChatbot.greeting 0].
Proof.
  exact (proj1 (proj2 (@submit_noop 1700000000000 1700000000000
           (DisruptionChatbot.setCurrentMessage (lit "   ")
              (DisruptionChatbot.initial 0))
           (or_introl eq_refl)))).
Defined.

Lemma thrown_failure_appends_one_apology_witness :
  DisruptionChatbot.messages
    (ChatAnswer.handleSendMessage_answered 1700000000500 1700000000501
       (Throw NetworkError)
       (DisruptionChatbot.handleSendMessage 1700000000000 1700000000001
          (DisruptionChatbot.setCurrentMessage (lit "CP001 called in sick")
             (DisruptionChatbot.initial 0))))
  = [ DisruptionChatbot.greeting 0;
      DisruptionChatbot.userMessage 1700000000000 1700000000001
        (lit "CP001 called in sick");
      DisruptionChatbot.errorMessage 1700000000500 1700000000501 ].
Proof.
  exact (proj1 (proj2 (@thrown_failure_appends_one_apology
           1700000000000 1700000000001 1700000000500 1700000000501
           (Throw NetworkError)
           (DisruptionChatbot.setCurrentMessage (lit "CP001 called in sick")
              (DisruptionChatbot.initial 0))
           eq_refl eq_refl eq_refl))).
Defined.

(** C9 at the failing input.  The chat endpoint answers the submitted text
    with status 500 and a JSON error body, which has no [response] field.
    The request has failed, yet the handler takes the success path: what is
    appended after the user's message is a bot message without content, not
    the apology; no error toast is raised; and the message list no longer
    renders, [formatBotMessage] being applied to [undefined]. *)
Theorem error_status_answer_gets_no_apology :
  let a : Http.answer DisruptionChatbot.ChatData :=
    Normal {| Http.ok := false;
              Http.json :=
                Normal {| DisruptionChatbot.response := None;
                          DisruptionChatbot.suggested_actions := None |} |} in
  let st1 :=
    DisruptionChatbot.handleSendMessage 1700000000000 1700000000001
      (DisruptionChatbot.setCurrentMessage (lit "CP001 called in sick")
         (DisruptionChatbot.initial 0)) in
  let st2 := ChatAnswer.handleSendMessage_answered 1700000000500 1700000000501 a st1 in
  Http.failed a = true /\
  DisruptionChatbot.messages st2
  = [ DisruptionChatbot.greeting 0;
      DisruptionChatbot.userMessage 1700000000000 1700000000001
        (lit "CP001 called in sick");
      {| DisruptionChatbot.id := Number_toString 1700000000501;
         DisruptionChatbot.type := DisruptionChatbot.bot;
         DisruptionChatbot.content := None;
         DisruptionChatbot.timestamp := 1700000000501;
         DisruptionChatbot.suggestedActions := None |} ] /\
  ~ In (DisruptionChatbot.errorMessage 1700000000500 1700000000501)
       (DisruptionChatbot.messages st2) /\
  DisruptionChatbot.isLoading st2 = false /\
  DisruptionChatbot.toasts st2 = [] /\
  ChatRender.render (DisruptionChatbot.messages st2) = Throw TypeError.
Proof.
  intros a st1 st2.
  split; [reflexivity|]. split; [reflexivity|].
  split; [|split; [reflexivity|split; [reflexivity|vm_compute; reflexivity]]].
  intros [H|[H|[H|[]]]]; discriminate H.
Qed.

(** ** Violations by category *)

Module HistogramFacts.
Import JSObject Index.

Lemma own_update_counts o k n :
  counts_only o -> (1 <= n)%Z -> counts_only (update o k (PNumber n)).
Proof.
  intros Ho Hn; induction Ho as [|[k' v'] o' Hx Ho' IH]; simpl.
  - repeat constructor. exists n; auto.
  - destruct (str_eqb k k'); constructor; trivial. exists n; auto.
Qed.

Lemma own_counts o k v :
  counts_only o -> own o k = Some v -> exists n, v = PNumber n /\ (1 <= n)%Z.
Proof.
  intros Ho; induction Ho as [|[k' v'] o' Hx Ho' IH]; simpl; [discriminate|].
  destruct (str_eqb k k'); [|exact IH].
  intros [= <-]. exact Hx.
Qed.

Lemma sum_update_present o k n :
  own o k = Some (PNumber n) ->
  sum_numbers (update o k (PNumber (n + 1))) = (sum_numbers o + 1)%Z.
Proof.
  induction o as [|[k' v'] o' IH]; simpl; [discriminate|].
  destruct (str_eqb k k').
  - intros [= ->]. simpl. lia.
  - intros H. simpl. destruct v'; rewrite (IH H); lia.
Qed.

Lemma sum_update_absent o k :
  own o k = None ->
  sum_numbers (update o k (PNumber 1)) = (sum_numbers o + 1)%Z.
Proof.
  induction o as [|[k' v'] o' IH]; simpl; trivial.
  destruct (str_eqb k k'); [discriminate|].
  intros H. simpl. destruct v'; rewrite (IH H); lia.
Qed.

Section Reducer.

Variable native_source : jsstring -> jsstring.

(** One step of the reducer on a plain category adds one to the total and
    keeps every own property a positive count. *)
Lemma count_violation_plain acc v :
  counts_only acc -> plain_category v ->
  counts_only (count_violation native_source acc v) /\
  sum_numbers (count_violation native_source acc v) = (sum_numbers acc + 1)%Z.
Proof.
  intros Ho Hp. unfold plain_category, Object_prototype_keys in Hp.
  simpl in Hp. apply orb_false_iff in Hp as [Hproto Hmeth].
  unfold count_violation, set, get.
  fold proto_key in Hproto. rewrite Hproto.
  destruct (own acc (category v)) as [p|] eqn:E.
  - destruct (own_counts _ Ho E) as (n & -> & Hn).
    unfold or_else; simpl.
    replace (n =? 0)%Z with false by (symmetry; apply Z.eqb_neq; lia).
    simpl. split.
    + apply own_update_counts; trivial; lia.
    + now apply sum_update_present.
  - unfold mem_str, Object_prototype_methods; simpl. rewrite Hmeth.
    unfold or_else; simpl. split.
    + apply own_update_counts; trivial; lia.
    + now apply sum_update_absent.
Qed.

Lemma reduce_plain vs : forall acc,
  counts_only acc -> Forall plain_category vs ->
  counts_only (fold_left (count_violation native_source) vs acc) /\
  sum_numbers (fold_left (count_violation native_source) vs acc)
  = (sum_numbers acc + Z.of_nat (length vs))%Z.
Proof.
  induction vs as [|v vs IH]; intros acc Ho Hp; simpl.
  - split; trivial; lia.
  - inversion Hp as [|? ? Hv Hvs]; subst.
    destruct (count_violation_plain Ho Hv) as [Ho' Hs'].
    destruct (IH _ Ho' Hvs) as [Ho'' Hs''].
    split; trivial. rewrite Hs'', Hs'. lia.
Qed.

End Reducer.

(** [Object.entries] lists every own property exactly once. *)
Lemma insert_by_index_perm e l : Permutation (insert_by_index e l) (e :: l).
Proof.
  induction l as [|e' l IH]; simpl; trivial.
  destruct (fst e <=? fst e')%N; trivial.
  rewrite IH. apply perm_swap.
Qed.

Lemma sort_by_index_perm l : Permutation (sort_by_index l) l.
Proof.
  induction l as [|e l IH]; simpl; trivial.
  rewrite insert_by_index_perm. now constructor.
Qed.

Lemma entries_perm o : Permutation (entries o) o.
Proof.
  unfold entries. rewrite (Permutation_map snd (sort_by_index_perm _)).
  unfold index_entries, string_entries.
  induction o as [|[k v] o IH]; simpl; trivial.
  destruct (array_index k); simpl.
  - now constructor.
  - rewrite <- Permutation_middle. now constructor.
Qed.

Lemma sum_numbers_perm o o' : Permutation o o' -> sum_numbers o = sum_numbers o'.
Proof.
  induction 1 as [|[k v] l l' _ IH|[k v] [k' v'] l|l l' l'' _ IH1 _ IH2]; simpl; trivial.
  - destruct v; now rewrite IH.
  - destruct v, v'; lia.
  - congruence.
Qed.

Lemma sum_counts_numbers o :
  counts_only o ->
  sum_counts (map (fun e => {| name := fst e; value := snd e |}) o)
  = Some (sum_numbers o).
Proof.
  induction 1 as [|[k v] o (n & Hv & _) _ IH]; simpl; trivial.
  simpl in Hv; subst v. now rewrite IH.
Qed.

(** On categories that avoid the names of [Object.prototype], every
    violation is counted exactly once: the emitted counts add up to the
    length of the violation list (and the empty list gives the empty
    histogram). *)
Lemma histogram_total_plain native_source (r : option (list FlightData))
    (vs : list Violation) :
  Forall plain_category vs ->
  sum_counts (getViolationsByCategory native_source
                (Some {| roster := r; violations := Some vs |}))
  = Some (Z.of_nat (length vs)).
Proof.
  intros Hp. unfold getViolationsByCategory; simpl.
  destruct (reduce_plain native_source (acc := []) (Forall_nil _) Hp) as [Ho Hs].
  rewrite sum_counts_numbers.
  - now rewrite (sum_numbers_perm (entries_perm _)), Hs.
  - unfold counts_only. now rewrite (entries_perm _).
Qed.

Lemma histogram_empty native_source (r : option (list FlightData)) :
  getViolationsByCategory native_source
    (Some {| roster := r; violations := Some [] |}) = [].
Proof. reflexivity. Qed.

End HistogramFacts.

(** C3 at the failing input.  A violation list holding one violation of
    category ["__proto__"] yields the empty histogram: reading
    [acc["__proto__"]] gives the prototype object, and assigning the string
    [ "[object Object]1" ] to [acc["__proto__"]] is ignored by the setter, so
    the violation is counted under no category and the emitted counts add up
    to 0 where the list has length 1. *)
Theorem histogram_loses_proto_category (native_source : jsstring -> jsstring) :
  let vs := [ {| Index.type := lit "Rest Period";
                 Index.category := lit "__proto__";
                 Index.message := lit "Insufficient rest" |} ] in
  let histogram :=
    Index.getViolationsByCategory native_source
      (Some {| Index.roster := None; Index.violations := Some vs |}) in
  histogram = [] /\
  Index.sum_counts histogram = Some 0%Z /\
  length vs = 1%nat.
Proof. repeat split. Qed.

(** A category named like a method of [Object.prototype] gets a string
    where its count should be: the inherited function, as text, followed by
    one ["1"] per occurrence. *)
Example histogram_constructor_category native_source :
  let v := {| Index.type := lit "t"; Index.category := lit "constructor";
              Index.message := lit "m" |} in
  let histogram :=
    Index.getViolationsByCategory native_source
      (Some {| Index.roster := None; Index.violations := Some [v; v] |}) in
  histogram =
    [ {| Index.name := lit "constructor";
         Index.value :=
           JSObject.PString (native_source (lit "constructor") ++ lit "11") |} ] /\
  Index.sum_counts histogram = None.
Proof.
  assert (T : forall (x : jsstring) c, truthy_str (x ++ [c]) = true)
    by (intros [|? ?] ?; reflexivity).
  cbv -[app truthy_str]. rewrite T. cbv -[app].
  rewrite <- app_assoc. split; reflexivity.
Qed.

(** The end-to-end scenario: [Rest, Rest, DutyTime] gives
    [{Rest: 2, DutyTime: 1}]. *)
Example histogram_rest_rest_dutytime native_source :
  let v c := {| Index.type := lit "t"; Index.category := lit c;
                Index.message := lit "m" |} in
  Index.getViolationsByCategory native_source
    (Some {| Index.roster := None;
             Index.violations := Some [v "Rest"; v "Rest"; v "DutyTime"]%string |})
  = [ {| Index.name := lit "Rest"; Index.value := JSObject.PNumber 2 |};
      {| Index.name := lit "DutyTime"; Index.value := JSObject.PNumber 1 |} ].
Proof. reflexivity. Qed.

(** ** Double arithmetic: signs *)

Module NumFacts.
Import Num.

Lemma iter_pos_invariant {A} (f : A -> A) (P : A -> Prop) :
  (forall x, P x -> P (f x)) -> forall p x, P x -> P (iter_pos f p x).
Proof. intros Hf; induction p; simpl; intros; auto. Qed.

Lemma shr_1_nonneg mrs : (0 <= shr_m mrs)%Z -> (0 <= shr_m (shr_1 mrs))%Z.
Proof.
  destruct mrs as [m r s]; simpl.
  destruct m as [|[p|p|]|[p|p|]]; simpl; lia.
Qed.

Lemma shr_fexp_nonneg m e l :
  (0 <= m)%Z -> (0 <= shr_m (fst (shr_fexp prec emax m e l)))%Z.
Proof.
  intros Hm. unfold shr_fexp, shr.
  assert (H0 : (0 <= shr_m (shr_record_of_loc m l))%Z)
    by (destruct l as [|[]]; exact Hm).
  destruct (fexp prec emax (Zdigits2 m + e) - e)%Z; simpl; trivial.
  now apply iter_pos_invariant; [apply shr_1_nonneg|].
Qed.

Lemma round_nearest_even_nonneg m l :
  (0 <= m)%Z -> (0 <= round_nearest_even m l)%Z.
Proof.
  intros Hm. destruct l as [|[]]; simpl; trivial; [|lia].
  destruct (Z.even m); lia.
Qed.

(** Rounding a non-negative mantissa never yields NaN and keeps the sign. *)
Lemma binary_round_aux_sign s m e l :
  (0 <= m)%Z -> has_sign s (binary_round_aux prec emax s m e l) = true.
Proof.
  intros Hm. unfold binary_round_aux.
  pose proof (shr_fexp_nonneg e l Hm) as H1.
  destruct (shr_fexp prec emax m e l) as [mrs' e'].
  simpl in H1.
  pose proof (shr_fexp_nonneg e' loc_Exact
                (round_nearest_even_nonneg (loc_of_shr_record mrs') H1)) as H2.
  destruct (shr_fexp prec emax _ e' loc_Exact) as [mrs'' e''].
  simpl in H2.
  destruct (shr_m mrs''); [| |lia]; simpl.
  - apply eqb_reflx.
  - destruct (e'' <=? _)%Z; simpl; apply eqb_reflx.
Qed.

Lemma binary_round_sign s m e :
  has_sign s (binary_round prec emax s m e) = true.
Proof.
  unfold binary_round. destruct (shl_align _ _ _) as [mz ez].
  now apply binary_round_aux_sign.
Qed.

Lemma of_Z_positive n : (0 < n)%Z -> has_sign false (of_Z n) = true.
Proof.
  destruct n; try lia. intros _. apply binary_round_sign.
Qed.

Lemma mul_nonneg x m e :
  has_sign false x = true ->
  has_sign false (mul x (S754_finite false m e)) = true.
Proof.
  destruct x as [[]|[]| |[] mx ex]; simpl; try discriminate; trivial.
  intros _. now apply binary_round_aux_sign.
Qed.

Lemma div_nonneg x m e :
  has_sign false x = true ->
  has_sign false (div x (S754_finite false m e)) = true.
Proof.
  destruct x as [[]|[]| |[] mx ex]; simpl; try discriminate; trivial.
  intros _. unfold SFdiv_core_binary.
  set (s := (ex - e - _)%Z).
  set (m' := match s with Z0 => Z.pos mx | Z.pos _ => Z.shiftl (Z.pos mx) s | Z.neg _ => 0%Z end).
  assert (Hm' : (0 <= m')%Z).
  { unfold m'. destruct s; try lia. apply Z.shiftl_nonneg. lia. }
  pose proof (Z.div_pos m' (Z.pos m) Hm' ltac:(lia)) as Hq.
  unfold Z.div in Hq.
  destruct (Z.div_eucl m' (Z.pos m)) as [q r].
  now apply binary_round_aux_sign.
Qed.

Lemma Math_round_nonneg x :
  has_sign false x = true -> has_sign false (Math_round x) = true.
Proof.
  destruct x as [[]|[]| |[] m e]; try (simpl; discriminate); try reflexivity.
  intros _. unfold Math_round. destruct (Z.leb_spec 0 e) as [|He]; [reflexivity|].
  set (d := (2 ^ (- e))%Z).
  destruct (Z.eqb_spec ((2 * Z.pos m + d) / (2 * d)) 0) as [_|Hn]; [reflexivity|].
  apply of_Z_positive.
  assert (0 <= d)%Z by (apply Z.pow_nonneg; lia).
  assert (d <> 0)%Z
    by (unfold d; apply Z.pow_nonzero; lia).
  assert (0 <= (2 * Z.pos m + d) / (2 * d))%Z by (apply Z.div_pos; lia).
  lia.
Qed.

(** ** Double arithmetic: subtraction of ordered operands *)

Lemma sub_diag x : is_finite x = true -> sub x x = zero.
Proof.
  destruct x as [[]| | |s m e]; try discriminate; try reflexivity.
  intros _. unfold sub, SFsub. cbv beta iota zeta.
  now rewrite Z.sub_diag.
Qed.

Lemma iter_xO_value m d : Z.pos (Pos.iter xO m d) = (Z.pos m * 2 ^ Z.pos d)%Z.
Proof.
  induction d as [|d IH] using Pos.peano_ind.
  - simpl. lia.
  - rewrite Pos.iter_succ, Pos2Z.inj_succ, Z.pow_succ_r by lia.
    rewrite Pos2Z.inj_xO, IH. ring.
Qed.

Lemma shl_align_value m e ez :
  (ez <= e)%Z -> Z.pos (fst (shl_align m e ez)) = (Z.pos m * 2 ^ (e - ez))%Z.
Proof.
  intros H. unfold shl_align. destruct (ez - e)%Z eqn:E; simpl.
  - replace (e - ez)%Z with 0%Z by lia. simpl; lia.
  - lia.
  - rewrite iter_xO_value. now replace (e - ez)%Z with (Z.pos p) by lia.
Qed.

Lemma digits2_bounds m :
  (2 ^ (Z.pos (digits2_pos m) - 1) <= Z.pos m < 2 ^ Z.pos (digits2_pos m))%Z.
Proof.
  induction m as [m IH|m IH|]; simpl digits2_pos.
  - rewrite Pos2Z.inj_succ.
    replace (Z.succ (Z.pos (digits2_pos m)) - 1)%Z
      with (Z.succ (Z.pos (digits2_pos m) - 1)) by lia.
    rewrite !Z.pow_succ_r by lia. rewrite (Pos2Z.inj_xI m). lia.
  - rewrite Pos2Z.inj_succ.
    replace (Z.succ (Z.pos (digits2_pos m)) - 1)%Z
      with (Z.succ (Z.pos (digits2_pos m) - 1)) by lia.
    rewrite !Z.pow_succ_r by lia. rewrite (Pos2Z.inj_xO m). lia.
  - simpl. lia.
Qed.

(** A canonical mantissa is below [2^53], its exponent at least [-1074],
    and above that exponent the mantissa has its top bit set. *)
Lemma canonical_facts m e :
  bounded prec emax m e = true ->
  (Z.pos m < 2 ^ 53)%Z /\ (-1074 <= e)%Z /\ ((-1074 < e)%Z -> (2 ^ 52 <= Z.pos m)%Z).
Proof.
  unfold bounded, canonical_mantissa, fexp, emin, prec, emax.
  intros H. apply andb_true_iff in H as [H _]. apply Z.eqb_eq in H.
  pose proof (digits2_bounds m) as [Hlo Hhi].
  set (d := Z.pos (digits2_pos m)) in *.
  assert (Hd : (d <= 53)%Z) by lia.
  split; [|split].
  - eapply Z.lt_le_trans; [exact Hhi|]. apply Z.pow_le_mono_r; lia.
  - lia.
  - intros He. assert (d = 53%Z) by lia.
    replace (2 ^ 52)%Z with (2 ^ (d - 1))%Z; [exact Hlo|].
    f_equal; lia.
Qed.

(** The aligned mantissa of the operand with the larger exponent exceeds
    that of the other, for canonical operands. *)
Lemma aligned_lt mx ex my ey :
  bounded prec emax mx ex = true -> bounded prec emax my ey = true ->
  (ex < ey)%Z ->
  (Z.pos (fst (shl_align mx ex (Z.min ey ex)))
   < Z.pos (fst (shl_align my ey (Z.min ey ex))))%Z.
Proof.
  intros Hx Hy Hlt.
  destruct (canonical_facts _ _ Hx) as (Hmx & Hex & _).
  destruct (canonical_facts _ _ Hy) as (_ & _ & Hmy).
  rewrite !shl_align_value by lia.
  replace (Z.min ey ex) with ex by lia.
  rewrite Z.sub_diag, Z.pow_0_r, Z.mul_1_r.
  assert (2 ^ 1 <= 2 ^ (ey - ex))%Z by (apply Z.pow_le_mono_r; lia).
  assert (2 ^ 52 <= Z.pos my)%Z by (apply Hmy; lia).
  change (2 ^ 1)%Z with 2%Z in *.
  change (2 ^ 53)%Z with (2 ^ 52 * 2)%Z in Hmx.
  nia.
Qed.

Lemma aligned_same m e : Z.pos (fst (shl_align m e (Z.min e e))) = Z.pos m.
Proof. rewrite shl_align_value by lia. rewrite Z.min_id, Z.sub_diag. simpl; lia. Qed.

Lemma binary_normalize_positive d e :
  (0 < d)%Z -> has_sign false (binary_normalize prec emax d e false) = true.
Proof. destruct d; try lia. intros _. apply binary_round_sign. Qed.

(** The difference of two finite doubles in strictly increasing order is
    positive: never NaN, never negative. *)
Lemma sub_positive x y :
  is_finite x = true -> is_finite y = true ->
  valid x = true -> valid y = true ->
  ltb x y = true ->
  has_sign false (sub y x) = true.
Proof.
  unfold ltb, SFltb, valid.
  destruct x as [sx| | |sx mx ex], y as [sy| | |sy my ey];
    try discriminate; intros _ _ Vx Vy Hlt.
  - destruct sy; simpl in Hlt; [discriminate Hlt|reflexivity].
  - destruct sx; simpl in Hlt; [reflexivity|discriminate Hlt].
  - simpl in Vx, Vy.
    unfold sub, SFsub. cbv beta iota zeta.
    apply binary_normalize_positive.
    pose proof (@aligned_lt _ _ _ _ Vx Vy) as Hxy.
    pose proof (@aligned_lt _ _ _ _ Vy Vx) as Hyx.
    rewrite (Z.min_comm ex ey) in Hyx.
    unfold SFcompare in Hlt.
    destruct sx, sy; unfold cond_Zopp; try discriminate.
    + (* both negative *)
      destruct (Z.compare_spec ex ey) as [E|E|E]; try discriminate.
      * subst ey. rewrite !aligned_same.
        destruct (Pos.compare_cont Eq mx my) eqn:C; try discriminate.
        apply Pos.compare_gt_iff in C. lia.
      * specialize (Hyx E). lia.
    + (* x negative, y positive *) lia.
    + (* both positive *)
      destruct (Z.compare_spec ex ey) as [E|E|E]; try discriminate.
      * subst ey. rewrite !aligned_same.
        destruct (Pos.compare_cont Eq mx my) eqn:C; try discriminate.
        assert (Hm : (mx < my)%positive) by exact C. lia.
      * specialize (Hxy E). lia.
Qed.

End NumFacts.

(** ** Duty hours *)

Module DutyHoursFacts.
Import Num NumFacts Index.

Lemma hour_in_ms :
  mul (mul (of_Z 1000) (of_Z 60)) (of_Z 60) = of_Z 3600000.
Proof. vm_compute. reflexivity. Qed.

Lemma of_Z_3600000 : of_Z 3600000 = S754_finite false 7730941132800000 (-31).
Proof. vm_compute. reflexivity. Qed.

Lemma of_Z_100 : of_Z 100 = S754_finite false 7036874417766400 (-46).
Proof. vm_compute. reflexivity. Qed.

Lemma duty_hours_formula s e :
  duty_hours s e =
  div (Math_round (mul (div (sub e s) (of_Z 3600000)) (of_Z 100))) (of_Z 100).
Proof. unfold duty_hours. now rewrite hour_in_ms. Qed.

Lemma duty_hours_nonneg s e :
  has_sign false (sub e s) = true -> has_sign false (duty_hours s e) = true.
Proof.
  intros H. rewrite duty_hours_formula, of_Z_3600000, of_Z_100.
  now apply div_nonneg, Math_round_nonneg, mul_nonneg, div_nonneg.
Qed.

Lemma duty_hours_equal s : is_finite s = true -> duty_hours s s = zero.
Proof.
  intros H. rewrite duty_hours_formula, (sub_diag s H).
  vm_compute. reflexivity.
Qed.

Lemma nonneg_leb x : has_sign false x = true -> leb zero x = true.
Proof. destruct x as [[]|[]| |[] m e]; simpl; try discriminate; reflexivity. Qed.

Lemma nth_error_firstn_lt {A} (l : list A) : forall n i,
  (i < n)%nat -> nth_error (firstn n l) i = nth_error l i.
Proof.
  induction l as [|x l IH]; intros [|n] [|i] H; simpl; trivial; try lia.
  apply IH; lia.
Qed.

End DutyHoursFacts.

(** C4, as amended.  For a flight among the first ten of the roster
    payload, with finite time values for its two duty stamps, the derived
    entry carries the flight's number and
    [hours = Math.round(((end - start) / 3600000) * 100) / 100], evaluated in
    double arithmetic.  When the two time values are equal the hours are
    [+0]; when the start is before the end the hours are not negative (they
    may be zero). *)
Theorem duty_hours_per_flight
    (Date_getTime : jsstring -> Num.number)
    (data : Index.RosterResponse) (flights : list Index.FlightData)
    (i : nat) (f : Index.FlightData) :
  Index.roster data = Some flights ->
  nth_error flights i = Some f ->
  (i < 10)%nat ->
  let start_ := Date_getTime (Index.Duty_Start f) in
  let end_ := Date_getTime (Index.Duty_End f) in
  Num.is_finite start_ = true -> Num.is_finite end_ = true ->
  Num.valid start_ = true -> Num.valid end_ = true ->
  exists d,
    nth_error (Index.getDutyHoursData Date_getTime (Some data)) i = Some d /\
    Index.flight d = Index.Flight_Number f /\
    Index.hours d =
      Num.div (Num.Math_round
                 (Num.mul (Num.div (Num.sub end_ start_) (Num.of_Z 3600000))
                          (Num.of_Z 100)))
              (Num.of_Z 100) /\
    (start_ = end_ -> Index.hours d = Num.zero) /\
    (Num.ltb start_ end_ = true -> Num.leb Num.zero (Index.hours d) = true).
Proof.
  intros Hr Hf Hi start_ end_ Fs Fe Vs Ve.
  exists (Index.duty_entry Date_getTime f).
  unfold Index.getDutyHoursData. rewrite Hr.
  rewrite DutyHoursFacts.nth_error_firstn_lt by exact Hi.
  rewrite (map_nth_error (Index.duty_entry Date_getTime) _ _ Hf).
  split; [reflexivity|]. split; [reflexivity|].
  split; [apply DutyHoursFacts.duty_hours_formula|]. split.
  - intros E. simpl. fold start_ end_. rewrite <- E.
    now apply DutyHoursFacts.duty_hours_equal.
  - intros Hlt. simpl. fold start_ end_.
    apply DutyHoursFacts.nonneg_leb, DutyHoursFacts.duty_hours_nonneg.
    now apply NumFacts.sub_positive.
Qed.

(** C4 as stated fails: a duty window of ten seconds has
    [Duty_Start < Duty_End], and its derived hours are [+0], which is not
    strictly positive ([0.00277...] hours rounds to [0] at two decimals). *)
Lemma duty_hours_zero_for_short_window :
  Num.ltb (sample_getTime (Index.Duty_Start short_duty_flight))
          (sample_getTime (Index.Duty_End short_duty_flight)) = true /\
  map Index.hours (Index.getDutyHoursData sample_getTime (Some short_duty_roster))
  = [Num.zero] /\
  Num.ltb Num.zero Num.zero = false.
Proof. vm_compute. repeat split. Qed.

Lemma duty_hours_per_flight_witness :
  exists d,
    nth_error (Index.getDutyHoursData sample_getTime (Some short_duty_roster)) 0
    = Some d /\
    Num.leb Num.zero (Index.hours d) = true.
Proof.
  destruct (@duty_hours_per_flight sample_getTime short_duty_roster
              [short_duty_flight] 0 short_duty_flight
              eq_refl eq_refl ltac:(lia) eq_refl eq_refl eq_refl eq_refl)
    as (d & Hd & _ & _ & _ & Hpos).
  exists d. split; [exact Hd|]. apply Hpos. reflexivity.
Defined.

(** ** Crew detail modal *)

Module CrewDetailsFacts.
Import CrewDetailsModal.Payload CrewDetailsModal.

Ltac norm :=
  cbv beta iota zeta
      delta [run resume request_of goto at_ crewId seen_schedule bind].

(** What one call leaves behind, section by section, once the profile
    request has found the crew member.  The call always returns. *)
Lemma run_from_crew server rnd p st c :
  at_ p = AwaitCrew ->
  profile_found server (crewId p) c ->
  let final := run 5 server rnd (st, Some p) in
  snd final = None /\
  crewDetails (fst final) = Some c /\
  loading (fst final) = false /\
  schedule (fst final) =
    match server (GetSchedule (crewId p)) with
    | Normal b => or_empty (schedules b)
    | Throw _ => []
    end /\
  preferences (fst final) =
    match server (GetPreferences (crewId p)) with
    | Normal b => or_empty (Payload.preferences b)
    | Throw _ => []
    end /\
  match latest_roster_flights server (crewId p) with
  | Throw _ => flightAssignments (fst final) = [] /\ violations (fst final) = []
  | Normal None => flightAssignments (fst final) = flightAssignments st
  | Normal (Some crewFlights) => flightAssignments (fst final) = crewFlights
  end.
Proof.
  intros Hat (crewData & members & Hc & Hm & Hf) final; subst final.
  destruct p as [crew seen pt]; simpl in *; subst pt.
  unfold latest_roster_flights.
  norm. rewrite Hc; norm. rewrite Hm, Hf; norm.
  destruct (server (GetSchedule crew)) as [bs|es]; norm;
    destruct (server (GetPreferences crew)) as [bp|ep]; norm;
    destruct (server GetRosterHistory) as [bh|eh]; norm;
    try (simpl; repeat split; fail);
    destruct (rosters bh) as [[|latest more]|]; norm;
    try (simpl; repeat split; fail);
    destruct (server (GetRoster (id latest))) as [br|er]; norm;
    try (simpl; repeat split; fail);
    destruct (crew_flights crew br) as [crewFlights|ef]; norm;
    simpl; repeat split.
Qed.

(** A call started at the profile request returns within five
    resumptions, whatever the server answers. *)
Lemma run_returns server rnd p st :
  at_ p = AwaitCrew -> snd (run 5 server rnd (st, Some p)) = None.
Proof.
  intros Hat. destruct p as [crew seen pt]; simpl in *; subst pt.
  norm.
  destruct (server GetCrew) as [bc|]; [|reflexivity]. norm.
  destruct (crew_members bc) as [members|]; [|reflexivity]. norm.
  destruct (server (GetSchedule crew)) as [bs|es]; norm;
    destruct (server (GetPreferences crew)) as [bp|ep]; norm;
    destruct (server GetRosterHistory) as [bh|eh]; norm;
    try reflexivity;
    destruct (rosters bh) as [[|latest more]|]; norm;
    try reflexivity;
    destruct (server (GetRoster (id latest))) as [br|er]; norm;
    try reflexivity;
    destruct (crew_flights crew br) as [crewFlights|ef];
    reflexivity.
Qed.

Lemma nth_error_last {A} (pre : list A) (p : A) :
  nth_error (pre ++ [p]) (length pre) = Some p.
Proof. induction pre; simpl; auto. Qed.

Lemma nth_error_end {A} (pre : list A) : nth_error pre (length pre) = None.
Proof. induction pre; simpl; auto. Qed.

Lemma replace_nth_last {A} (pre : list A) (p : A) (x : option A) :
  replace_nth (length pre) x (pre ++ [p]) =
  pre ++ match x with Some y => [y] | None => [] end.
Proof.
  induction pre as [|y pre IH]; simpl.
  - now destruct x.
  - now rewrite IH.
Qed.

Lemma serve_n_idle n server rnd k a :
  nth_error (inflight a) k = None -> serve_n n server rnd k a = a.
Proof.
  intros H; induction n as [|n IH]; simpl; trivial.
  unfold serve. now rewrite H.
Qed.

Lemma run_returned n server rnd st : run n server rnd (st, None) = (st, None).
Proof. now destruct n. Qed.

(** Serving the last call in flight [n] times is running it for [n]
    resumptions. *)
Lemma serve_n_last n server rnd : forall a pre p,
  inflight a = pre ++ [p] ->
  serve_n n server rnd (length pre) a =
  {| selectedCrewId := selectedCrewId a;
     isModalOpen := isModalOpen a;
     view := fst (run n server rnd (view a, Some p));
     inflight := pre ++ match snd (run n server rnd (view a, Some p)) with
                        | Some p' => [p']
                        | None => []
                        end |}.
Proof.
  induction n as [|n IH]; intros a pre p H.
  - simpl. rewrite <- H. now destruct a.
  - cbn [serve_n run]. unfold serve at 1.
    rewrite H, nth_error_last. unfold step.
    rewrite H, nth_error_last.
    destruct (resume rnd p (server (request_of p)) (view a)) as [st next] eqn:E.
    rewrite replace_nth_last.
    destruct next as [p'|].
    + rewrite (IH _ pre p') by reflexivity. reflexivity.
    + rewrite serve_n_idle.
      * rewrite run_returned. reflexivity.
      * simpl. rewrite app_nil_r. apply nth_error_end.
Qed.

End CrewDetailsFacts.

(** ** Flights list: the request in flight *)

Module FlightsFetchFacts.
Import FlightsList FlightsFetch.

Lemma step_coherent s e : coherent s -> coherent (step s e).
Proof.
  intros H. destruct e as [p|k r]; cbn [step].
  - destruct H as [[L A]|[L A]]; rewrite L; [now left|].
    destruct (params_eq_dec p (current s)); [now right|].
    left. cbn [loading awaited current]. now rewrite A.
  - destruct H as [[L A]|[L A]]; rewrite A.
    + destruct k as [|k]; cbn [nth_error].
      * right. destruct r; split; reflexivity.
      * destruct k; cbn [nth_error]; left; split; assumption.
    + destruct k; cbn [nth_error]; right; split; assumption.
Qed.

Lemma steps_coherent es : forall s, coherent s -> coherent (steps s es).
Proof.
  unfold steps. induction es as [|e es IH]; intros s H; simpl; trivial.
  now apply IH, step_coherent.
Qed.

(** In a coherent page the only request that can settle is the one for the
    current parameters. *)
Lemma coherent_awaited s k q :
  coherent s -> nth_error (awaited s) k = Some q ->
  k = 0%nat /\ q = query_of (current s) /\ awaited s = [q].
Proof.
  intros [[L A]|[L A]] H; rewrite A in H.
  - destruct k as [|k]; cbn [nth_error] in H.
    + injection H as <-. now rewrite A.
    + destruct k; discriminate H.
  - destruct k; discriminate H.
Qed.

End FlightsFetchFacts.

(** ** Crew detail modal: answers with a status *)

Module PartialFailureFacts.
Import CrewDetailsModal.Payload CrewDetailsModal CrewDetailsSpec PartialFailure.

Lemma answered_observed hs r b : answered hs r b -> observed hs r = Normal b.
Proof.
  intros (resp & Hr & _ & Hj). unfold observed, Http.body_of.
  rewrite Hr. exact Hj.
Qed.

Lemma answered_intro hs r (resp : Http.response body) b :
  hs r = Normal resp -> Http.ok resp = true -> Http.json resp = Normal b ->
  answered hs r b.
Proof. intros; exists resp; auto. Qed.

(** A request that throws has failed; one that does not throw and is
    answered with 2xx is answered. *)
Lemma throws_failed {A} (a : Http.answer A) :
  Http.throws a = true -> Http.failed a = true.
Proof.
  unfold Http.throws, Http.failed, Http.body_of.
  destruct a as [resp|e]; simpl; trivial.
  destruct (Http.json resp); [discriminate|].
  intros _. now rewrite orb_true_r.
Qed.

Lemma body_cases {A} (a : Http.answer A) :
  (exists e, Http.body_of a = Throw e /\ Http.failed a = true) \/
  (exists resp b, a = Normal resp /\ Http.json resp = Normal b /\
                  Http.body_of a = Normal b /\
                  Http.failed a = negb (Http.ok resp)).
Proof.
  unfold Http.body_of, Http.failed.
  destruct a as [resp|e]; simpl; [|left; eauto].
  destruct (Http.json resp) as [b|e] eqn:J.
  - right. exists resp, b. rewrite J. repeat split. now rewrite orb_false_r.
  - left. exists e. split; trivial. now rewrite orb_true_r.
Qed.

(** What the crew filter returns is the flights that carry the crew member. *)
Lemma crew_flights_result crew rosterData crewFlights :
  crew_flights crew rosterData = Normal crewFlights ->
  crewFlights = filter (carries crew) (or_empty (roster_data rosterData)).
Proof.
  unfold crew_flights. destruct (roster_data rosterData) as [flights|]; simpl.
  - intros H. apply (@filterM_filter _ (assigned_to crew) _ flights crewFlights H).
    intros f b _. unfold assigned_to, carries.
    destruct (Crew_Members f); simpl; [now intros [= <-]|discriminate].
  - now intros [= <-].
Qed.

Lemma latest_roster_observed hs crew rosterData crewFlights :
  latest_roster hs rosterData ->
  crew_flights crew rosterData = Normal crewFlights ->
  latest_roster_flights (observed hs) crew = Normal (Some crewFlights).
Proof.
  intros (rostersData & latest & older & Hh & Hr & Hd) Hc.
  unfold latest_roster_flights.
  rewrite (answered_observed Hh). cbn [bind]. rewrite Hr.
  rewrite (answered_observed Hd). cbn [bind]. rewrite Hc. reflexivity.
Qed.

(** Every failure the component isolates is a failure of the sub-fetch. *)
Lemma isolated_failed hs crew s : isolated hs crew s -> failed hs crew s.
Proof.
  destruct s; simpl.
  - intros [H|(resp & b & Hr & Hk & Hj & _)]; [now apply throws_failed|].
    rewrite Hr. simpl. now rewrite Hk.
  - intros [H|(resp & b & Hr & Hk & Hj & _)]; [now apply throws_failed|].
    rewrite Hr. simpl. now rewrite Hk.
  - intros [e He]. unfold latest_roster_flights in He.
    destruct (body_cases (hs GetRosterHistory))
      as [(e1 & _ & F)|(resp & b & Hr & Hj & Hb & F)]; [now left|].
    unfold observed in He at 1. rewrite Hb in He. cbn [bind] in He.
    destruct (Http.ok resp) eqn:K; [|left; now rewrite F].
    destruct (rosters b) as [[|latest older]|] eqn:R; try discriminate He.
    right. exists b, latest, older.
    split; [now apply (@answered_intro hs _ resp b)|]. split; [exact R|].
    destruct (body_cases (hs (GetRoster (id latest))))
      as [(e2 & _ & F2)|(resp2 & b2 & Hr2 & Hj2 & Hb2 & F2)]; [now left|].
    unfold observed in He. rewrite Hb2 in He. cbn [bind] in He.
    destruct (Http.ok resp2) eqn:K2; [|left; now rewrite F2].
    right. exists b2.
    destruct (crew_flights crew b2) as [cf|e3] eqn:C; [discriminate He|].
    exists e3. split; [now apply (@answered_intro hs _ resp2 b2)|reflexivity].
Qed.

End PartialFailureFacts.

Section CrewDetailsClaims.
Import CrewDetailsModal.Payload CrewDetailsModal CrewDetailsFacts.
Import CrewDetailsSpec PartialFailure PartialFailureFacts.

(** Partial-failure isolation, for the failures the component turns into an
    empty section.  Take a crew detail fetch whose profile request finds
    the crew member.  Let exactly one of the three secondary fetches fail in
    a way the component turns into an empty section (for the schedule and the
    preferences: the request throws, or it is answered with a status that is
    not 2xx and a body without the list; for the flight assignments: the
    derivation throws), and let the other two succeed (2xx answers with
    bodies that parse; for the flight assignments, a history that lists a
    roster, the detail of that roster, and a crew filter that returns).
    Then the call returns, the failing section is empty, each of the other
    two sections shows the data of its response (the flights being those of
    the latest roster that carry the crew member), and the profile section
    renders. *)
Theorem partial_failure_isolation
    (hs : http_server) (rnd : draws)
    (crew : jsstring) (st : modal) (c : CrewMember) (s : section) :
  truthy_str crew = true ->
  profile_found (observed hs) crew c ->
  isolated hs crew s ->
  (forall s', s' <> s -> succeeded hs crew s') ->
  let result := run 5 (observed hs) rnd (fetchCrewDetails (Some crew) st) in
  snd result = None /\
  failed hs crew s /\
  emptied s (fst result) /\
  (forall s', s' <> s -> populated hs crew s' (fst result)) /\
  crewDetails (fst result) = Some c /\
  renders_profile (fst result) = true.
Proof.
  intros Ht Hp Hfail Hok result. subst result.
  unfold fetchCrewDetails. rewrite Ht.
  set (p := {| crewId := crew; seen_schedule := schedule st; at_ := AwaitCrew |}).
  destruct (@run_from_crew (observed hs) rnd p (setLoading true st) c eq_refl Hp)
    as (Hret & Hcrew & Hload & Hs & Hpr & Hfl).
  cbn [crewId p] in Hs, Hpr, Hfl.
  set (final := fst (run 5 (observed hs) rnd (setLoading true st, Some p))) in *.
  split; [exact Hret|].
  split; [exact (@isolated_failed hs crew s Hfail)|].
  assert (Hrender : renders_profile final = true)
    by (unfold renders_profile; now rewrite Hload, Hcrew).
  assert (Psched : succeeded hs crew Schedule -> populated hs crew Schedule final).
  { intros [b Hb]. exists b. split; [exact Hb|].
    now rewrite Hs, (@answered_observed hs _ b Hb). }
  assert (Ppref : succeeded hs crew Preferences -> populated hs crew Preferences final).
  { intros [b Hb]. exists b. split; [exact Hb|].
    now rewrite Hpr, (@answered_observed hs _ b Hb). }
  assert (Pfl : succeeded hs crew Flights -> populated hs crew Flights final).
  { intros (rosterData & crewFlights & Hl & Hc).
    exists rosterData. split; [exact Hl|].
    rewrite (@latest_roster_observed hs crew rosterData crewFlights Hl Hc) in Hfl.
    rewrite Hfl. now apply crew_flights_result. }
  destruct s.
  - (* the schedule fetch fails *)
    split; [|split; [|now split]].
    + simpl. rewrite Hs. destruct Hfail as [Hth|(resp & b & Hr & _ & Hj & Hn)].
      * unfold Http.throws in Hth. fold (observed hs (GetSchedule crew)) in Hth.
        now destruct (observed hs (GetSchedule crew)).
      * unfold observed, Http.body_of. rewrite Hr. cbn [bind]. now rewrite Hj, Hn.
    + intros [] Hne; try congruence; [apply Ppref|apply Pfl]; now apply Hok.
  - (* the preferences fetch fails *)
    split; [|split; [|now split]].
    + simpl. rewrite Hpr. destruct Hfail as [Hth|(resp & b & Hr & _ & Hj & Hn)].
      * unfold Http.throws in Hth. fold (observed hs (GetPreferences crew)) in Hth.
        now destruct (observed hs (GetPreferences crew)).
      * unfold observed, Http.body_of. rewrite Hr. cbn [bind]. now rewrite Hj, Hn.
    + intros [] Hne; try congruence; [apply Psched|apply Pfl]; now apply Hok.
  - (* the flight-assignment derivation fails *)
    split; [|split; [|now split]].
    + destruct Hfail as [e He]. rewrite He in Hfl. exact Hfl.
    + intros [] Hne; try congruence; [apply Psched|apply Ppref]; now apply Hok.
Qed.

(** In the modal, a fetch that is answered after a later one overwrites
    what the later one displayed. *)
Lemma modal_last_settled_response_wins
    (server : request -> completion body) (rnd rnd' : draws)
    (A B : jsstring) (st0 : modal) (cA : CrewMember) :
  truthy_str A = true -> truthy_str B = true ->
  profile_found server A cA ->
  let a0 := {| selectedCrewId := None; isModalOpen := false;
               view := st0; inflight := [] |} in
  let issued := steps a0 [Click A; Close; Click B] in
  let later_served := serve_n 5 server rnd 1 issued in
  let final := serve_n 5 server rnd' 0 later_served in
  selectedCrewId final = Some B /\
  inflight final = [] /\
  crewDetails (view final) = Some cA /\
  loading (view final) = false /\
  schedule (view final) =
    match server (GetSchedule A) with
    | Normal b => or_empty (schedules b)
    | Throw _ => []
    end /\
  preferences (view final) =
    match server (GetPreferences A) with
    | Normal b => or_empty (Payload.preferences b)
    | Throw _ => []
    end.
Proof.
  intros HA HB Hp a0 issued later_served final.
  set (pA := {| crewId := A; seen_schedule := schedule st0; at_ := AwaitCrew |}).
  set (pB := {| crewId := B; seen_schedule := schedule (setLoading true st0);
                at_ := AwaitCrew |}).
  assert (Hissued : issued =
            {| selectedCrewId := Some B; isModalOpen := true;
               view := setLoading true (setLoading true st0);
               inflight := [pA; pB] |}).
  { unfold issued, a0, steps. simpl. unfold fetchCrewDetails.
    rewrite HA. simpl. rewrite andb_false_r. rewrite HB. reflexivity. }
  assert (Hlater : later_served =
            {| selectedCrewId := Some B; isModalOpen := true;
               view := fst (run 5 server rnd (view issued, Some pB));
               inflight := [pA] |}).
  { unfold later_served.
    pose proof (@serve_n_last 5 server rnd issued [pA] pB
                  ltac:(now rewrite Hissued)) as X.
    cbn [length] in X. rewrite X.
    rewrite (@run_returns server rnd pB (view issued) eq_refl).
    now rewrite Hissued. }
  assert (Hfinal : final =
            {| selectedCrewId := Some B; isModalOpen := true;
               view := fst (run 5 server rnd' (view later_served, Some pA));
               inflight := [] |}).
  { unfold final.
    pose proof (@serve_n_last 5 server rnd' later_served [] pA
                  ltac:(now rewrite Hlater)) as X.
    cbn [length] in X. rewrite X.
    rewrite (@run_returns server rnd' pA (view later_served) eq_refl).
    now rewrite Hlater. }
  destruct (@run_from_crew server rnd' pA (view later_served) cA eq_refl Hp)
    as (_ & Hcrew & Hload & Hs & Hpr & _).
  rewrite Hfinal. cbn [selectedCrewId inflight view].
  repeat split; assumption.
Qed.


(** C2, as amended.  In the crew detail modal no request carries a
    snapshot tag and no response is checked against the current selection:
    every response is applied when it arrives.  When the fetch issued for
    crew [A] gets its answers after the later fetch issued for crew [B] has
    got all of its own, the modal ends up showing [A]'s profile, schedule and
    preferences while the selection is [B]: the displayed state reflects the
    response that settled last.  In the flights list no stale response can
    arise: while a fetch is outstanding only the spinner is rendered and no
    parameter can change, so after any sequence of parameter changes and
    answers the only request that can settle is the one for the current
    parameters, and when it is answered its flights and total are what the
    list shows. *)
Theorem last_settled_response_wins
    (server : request -> completion body) (rnd rnd' : draws)
    (A B : jsstring) (st0 : modal) (cA : CrewMember)
    (s : FlightsList.page) (es : list FlightsList.event) :
  truthy_str A = true -> truthy_str B = true ->
  profile_found server A cA ->
  FlightsFetch.coherent s ->
  (let a0 := {| selectedCrewId := None; isModalOpen := false;
                view := st0; inflight := [] |} in
   let issued := steps a0 [Click A; Close; Click B] in
   let later_served := serve_n 5 server rnd 1 issued in
   let final := serve_n 5 server rnd' 0 later_served in
   selectedCrewId final = Some B /\
   inflight final = [] /\
   crewDetails (view final) = Some cA /\
   loading (view final) = false /\
   schedule (view final) =
     match server (GetSchedule A) with
     | Normal b => or_empty (schedules b)
     | Throw _ => []
     end /\
   preferences (view final) =
     match server (GetPreferences A) with
     | Normal b => or_empty (Payload.preferences b)
     | Throw _ => []
     end) /\
  (let now_ := FlightsList.steps s es in
   forall k q,
     nth_error (FlightsList.awaited now_) k = Some q ->
     q = FlightsList.query_of (FlightsList.current now_) /\
     FlightsList.awaited now_ = [q] /\
     forall d,
       let shown := FlightsList.step now_ (FlightsList.Settle k (Normal d)) in
       FlightsList.flights shown = or_empty (FlightsList.Payload.flights d) /\
       FlightsList.totalFlights shown = FlightsList.or_zero (FlightsList.Payload.total d) /\
       FlightsList.current shown = FlightsList.current now_ /\
       FlightsList.awaited shown = [] /\
       FlightsList.loading shown = false).
Proof.
  intros HA HB Hp Hs. split.
  - now apply modal_last_settled_response_wins.
  - intros now_ k q Hk.
    assert (C : FlightsFetch.coherent now_)
      by (apply FlightsFetchFacts.steps_coherent; exact Hs).
    destruct (@FlightsFetchFacts.coherent_awaited now_ k q C Hk) as (-> & Hq & Ha).
    split; [exact Hq|]. split; [exact Ha|].
    intros d shown. subst shown. cbn [FlightsList.step]. rewrite Hk.
    cbn [FlightsList.flights FlightsList.totalFlights FlightsList.current
         FlightsList.awaited FlightsList.loading].
    rewrite Ha. repeat split.
Qed.

End CrewDetailsClaims.

(** With the schedule endpoint answering 500 and an error body, crew CP001
    still gets a profile, a preference and a flight; only the schedule is
    empty. *)
Lemma partial_failure_isolation_witness :
  let result :=
    CrewDetailsModal.run 5 (PartialFailure.observed schedule_refused_server) no_draws
      (CrewDetailsModal.fetchCrewDetails (Some (lit "CP001")) CrewDetailsModal.initial) in
  PartialFailure.failed schedule_refused_server (lit "CP001") CrewDetailsModal.Schedule /\
  CrewDetailsModal.schedule (fst result) = [] /\
  CrewDetailsModal.preferences (fst result) = [sample_preference "Sunday"] /\
  CrewDetailsModal.flightAssignments (fst result) = [sample_assignment] /\
  CrewDetailsModal.renders_profile (fst result) = true.
Proof.
  destruct (@partial_failure_isolation schedule_refused_server no_draws
              (lit "CP001") CrewDetailsModal.initial
              (crew_of "CP001" "Asha" "DEL" "First Officer")
              CrewDetailsModal.Schedule eq_refl)
    as (_ & Hf & Hs & Hothers & _ & Hr).
  - eexists; eexists. repeat split; reflexivity.
  - right. eexists; eexists. repeat split; reflexivity.
  - intros [] H; try congruence; simpl.
    + eexists. eexists. repeat split; reflexivity.
    + eexists. eexists. split.
      * eexists. exists {| CrewDetailsModal.id := 7 |}, [].
        split; [eexists; repeat split; reflexivity|].
        split; [reflexivity|]. eexists; repeat split; reflexivity.
      * reflexivity.
  - split; [exact Hf|]. split; [exact Hs|].
    destruct (Hothers CrewDetailsModal.Preferences ltac:(discriminate))
      as (bp & (rp & Hrp & _ & Hjp) & Hpop).
    destruct (Hothers CrewDetailsModal.Flights ltac:(discriminate))
      as (rd & (h & latest & older & _ & _ & (rr & Hrr & _ & Hjr)) & Hfl).
    injection Hrp as <-. injection Hjp as <-.
    injection Hrr as <-. injection Hjr as <-.
    repeat split; assumption.
Defined.

(** C1 at the failing input.  CP001's details are on display; then CP003
    is opened while the roster-history endpoint answers 500 with a JSON error
    body, which has no [rosters] field.  The flight-assignment derivation has
    failed, the schedule and the preferences have succeeded and the profile
    is found; but nothing is caught and the flights section is not downgraded
    to empty: no branch of the history block sets it, so it still lists
    CP001's flight, which does not carry CP003. *)
Theorem error_status_history_keeps_previous_flights :
  let before :=
    fst (CrewDetailsModal.run 5 (PartialFailure.observed ok_server) no_draws
           (CrewDetailsModal.fetchCrewDetails (Some (lit "CP001"))
              CrewDetailsModal.initial)) in
  let result :=
    CrewDetailsModal.run 5 (PartialFailure.observed history_refused_server) no_draws
      (CrewDetailsModal.fetchCrewDetails (Some (lit "CP003")) before) in
  PartialFailure.failed history_refused_server (lit "CP003") CrewDetailsModal.Flights /\
  PartialFailure.succeeded history_refused_server (lit "CP003") CrewDetailsModal.Schedule /\
  PartialFailure.succeeded history_refused_server (lit "CP003")
    CrewDetailsModal.Preferences /\
  CrewDetailsModal.profile_found (PartialFailure.observed history_refused_server)
    (lit "CP003") (crew_of "CP003" "Chitra" "BOM" "Captain") /\
  snd result = None /\
  CrewDetailsModal.flightAssignments (fst result) = [sample_assignment] /\
  CrewDetailsSpec.carries (lit "CP003") sample_assignment = false /\
  ~ CrewDetailsModal.emptied CrewDetailsModal.Flights (fst result).
Proof.
  intros before result.
  split; [left; reflexivity|].
  split; [eexists; eexists; repeat split; reflexivity|].
  split; [eexists; eexists; repeat split; reflexivity|].
  split; [eexists; eexists; repeat split; reflexivity|].
  split; [reflexivity|]. split; [reflexivity|]. split; [reflexivity|].
  intros [H _]. discriminate H.
Qed.

(** C2 as stated fails: CP001 is selected, the modal is closed, CP002 is
    selected; the answers for CP002 arrive first, those for CP001 after.
    The selection is CP002 and nothing is in flight any more, yet the modal
    shows the profile, the schedule and the preference of CP001. *)
Lemma stale_response_overwrites_selection :
  let issued :=
    CrewDetailsModal.steps closed_app
      [CrewDetailsModal.Click (lit "CP001"); CrewDetailsModal.Close;
       CrewDetailsModal.Click (lit "CP002")] in
  let final :=
    CrewDetailsModal.serve_n 5 sample_server no_draws 0
      (CrewDetailsModal.serve_n 5 sample_server no_draws 1 issued) in
  CrewDetailsModal.selectedCrewId final = Some (lit "CP002") /\
  CrewDetailsModal.inflight final = [] /\
  CrewDetailsModal.crewDetails (CrewDetailsModal.view final)
    = Some (crew_of "CP001" "Asha" "DEL" "First Officer") /\
  CrewDetailsModal.schedule (CrewDetailsModal.view final) = [sample_schedule 1] /\
  CrewDetailsModal.preferences (CrewDetailsModal.view final)
    = [sample_preference "Sunday"] /\
  CrewDetailsModal.loading (CrewDetailsModal.view final) = false.
Proof. vm_compute. repeat split. Qed.

Lemma last_settled_response_wins_witness :
  (let issued :=
     CrewDetailsModal.steps closed_app
       [CrewDetailsModal.Click (lit "CP001"); CrewDetailsModal.Close;
        CrewDetailsModal.Click (lit "CP002")] in
   let final :=
     CrewDetailsModal.serve_n 5 sample_server no_draws 0
       (CrewDetailsModal.serve_n 5 sample_server no_draws 1 issued) in
   CrewDetailsModal.selectedCrewId final = Some (lit "CP002") /\
   CrewDetailsModal.crewDetails (CrewDetailsModal.view final)
     = Some (crew_of "CP001" "Asha" "DEL" "First Officer")) /\
  (let shown :=
     FlightsList.steps FlightsFetch.mounted
       [FlightsList.Settle 0 (Normal (flights_data "6E202" "BLR"));
        FlightsList.SetParams (page_params 1 "DEL");
        FlightsList.SetParams (page_params 1 "BLR");
        FlightsList.Settle 0 (Normal (flights_data "6E101" "DEL"))] in
   FlightsList.current shown = page_params 1 "DEL" /\
   FlightsList.flights shown = [sample_flight "6E101" "DEL"]).
Proof.
  destruct (@last_settled_response_wins sample_server no_draws no_draws
              (lit "CP001") (lit "CP002") CrewDetailsModal.initial
              (crew_of "CP001" "Asha" "DEL" "First Officer")
              FlightsFetch.mounted
              [FlightsList.Settle 0 (Normal (flights_data "6E202" "BLR"));
               FlightsList.SetParams (page_params 1 "DEL");
               FlightsList.SetParams (page_params 1 "BLR")]
              eq_refl eq_refl)
    as ((Hsel & _ & Hcrew & _) & Hflights).
  - eexists; eexists. repeat split; reflexivity.
  - left. split; reflexivity.
  - split; [split; assumption|].
    destruct (Hflights 0%nat (FlightsList.query_of (page_params 1 "DEL")) eq_refl)
      as (_ & _ & Hshown).
    destruct (Hshown (flights_data "6E101" "DEL")) as (Hfl & _ & Hcur & _).
    split; [exact Hcur|exact Hfl].
Defined.

(** ** Filter engine: further laws *)

Module CrewFilterLaws.
Import CrewFilter CrewFilterFacts CrewFilterSpec.

Section Laws.

Variable toLowerCase : jsstring -> jsstring.

Local Abbreviation filterCrew := (filterCrewMembers toLowerCase).
Local Abbreviation stage := (CrewFilter.stage toLowerCase).
Local Abbreviation keeps := (CrewFilter.keeps toLowerCase).
Local Abbreviation matches := (CrewFilterSpec.matches toLowerCase).

(** Where the search stage has returned, it kept the items whose name or id
    contains the term. *)
Lemma keeps_search c items r x :
  stage FSearch c items = Normal r -> In x items ->
  keeps FSearch c x =
  negb (truthy_str (searchTerm c))
  || text_matches toLowerCase (searchTerm c) (Name x)
  || text_matches toLowerCase (searchTerm c) (Crew_ID x).
Proof.
  unfold CrewFilter.stage, CrewFilter.keeps; simpl.
  destruct (truthy_str (searchTerm c)); simpl; [|reflexivity].
  intros H Hx. destruct (filterM_inv _ _ H x Hx) as [b Hb].
  rewrite Hb; simpl.
  unfold search_callback, orelse, lower_includes in Hb. unfold text_matches.
  destruct (Name x) as [n|]; simpl in Hb; [|discriminate].
  unfold ret in Hb.
  destruct (includes (toLowerCase n) _); simpl in *; [congruence|].
  destruct (Crew_ID x) as [i|]; simpl in Hb; [congruence|discriminate].
Qed.

Lemma keeps_base c x :
  keeps FBase c x =
  str_eqb (selectedBase c) (lit "all") || strict_eq (Base x) (selectedBase c).
Proof.
  unfold CrewFilter.keeps; simpl. now destruct (str_eqb (selectedBase c) _).
Qed.

Lemma keeps_rank c x :
  keeps FRank c x =
  str_eqb (selectedRank c) (lit "all") || strict_eq (Rank x) (selectedRank c).
Proof.
  unfold CrewFilter.keeps; simpl. now destruct (str_eqb (selectedRank c) _).
Qed.

Lemma keeps_aircraft c x :
  keeps FAircraft c x =
  str_eqb (selectedAircraft c) (lit "all")
  || licence_matches (selectedAircraft c) (Aircraft_Type_License x).
Proof.
  unfold CrewFilter.keeps; simpl.
  destruct (str_eqb (selectedAircraft c) _); simpl; trivial.
  unfold aircraft_callback, licence_matches.
  now destruct (Aircraft_Type_License x).
Qed.

Lemma filter_result (items r : list CrewMember) (c : Criteria) :
  filterCrewMembers toLowerCase items c = Normal r ->
  r = filter (CrewFilterSpec.matches toLowerCase c) items.
Proof.
  intros H. rewrite filterCrew_stages in H.
  destruct (stage FSearch c items) as [r1|] eqn:E1; [|discriminate].
  cbn [bind] in H.
  destruct (stage FBase c r1) as [r2|] eqn:E2; [|discriminate].
  cbn [bind] in H.
  destruct (stage FRank c r2) as [r3|] eqn:E3; [|discriminate].
  cbn [bind] in H.
  rewrite (@stage_result toLowerCase _ _ _ _ H),
          (@stage_result toLowerCase _ _ _ _ E3),
          (@stage_result toLowerCase _ _ _ _ E2),
          (@stage_result toLowerCase _ _ _ _ E1).
  rewrite !filter_filter. apply filter_ext_in. intros x Hx.
  rewrite (@keeps_search c items r1 x E1 Hx), keeps_base, keeps_rank, keeps_aircraft.
  unfold CrewFilterSpec.matches. now rewrite !andb_assoc.
Qed.

(** Whenever the crew filter returns, it returns exactly the items that
    pass every constraining criterion (the search term occurs in the name or
    the id; the base and the rank are the chosen ones; the aircraft type
    occurs in the licence list), in the order of the input: nothing is
    added, dropped by mistake, duplicated or reordered. *)
Theorem filter_keeps_exactly_the_matching (items r : list CrewMember) (c : Criteria) :
  filterCrewMembers toLowerCase items c = Normal r ->
  r = filter (CrewFilterSpec.matches toLowerCase c) items /\
  (forall x, In x r <-> In x items /\ CrewFilterSpec.matches toLowerCase c x = true) /\
  (length r <= length items)%nat.
Proof.
  intros H. pose proof (@filter_result items r c H) as E.
  split; [exact E|]. split.
  - intros x. rewrite E. apply filter_In.
  - rewrite E. apply filter_length_le.
Qed.

(** The search callback returns on every item of a list on which the filter
    has returned. *)
Lemma search_returns_on_input items r c :
  filterCrewMembers toLowerCase items c = Normal r ->
  exists r1, stage FSearch c items = Normal r1.
Proof.
  intros H. rewrite filterCrew_stages in H.
  destruct (stage FSearch c items) as [r1|]; [eauto|discriminate].
Qed.

(** Filtering is idempotent: the filter returns on its own result, and
    returns it unchanged. *)
Theorem filter_idempotent (items r : list CrewMember) (c : Criteria) :
  filterCrewMembers toLowerCase items c = Normal r ->
  filterCrewMembers toLowerCase r c = Normal r.
Proof.
  intros H.
  pose proof (@filter_result items r c H) as Hr.
  destruct (@search_returns_on_input items r c H) as [r1 H1].
  assert (Hin : forall x, In x r -> In x items /\ matches c x = true)
    by (intros x Hx; rewrite Hr in Hx; now apply filter_In in Hx).
  assert (Hret : exists r', filterCrewMembers toLowerCase r c = Normal r').
  { eexists. apply filterCrew_total. intros f. eexists. apply stage_total.
    intros Ha x Hx. destruct (Hin x Hx) as [Hi Hm].
    destruct f; simpl in *.
    - unfold CrewFilter.stage in H1. simpl in H1. rewrite Ha in H1.
      exact (filterM_inv _ _ H1 x Hi).
    - unfold base_callback; eauto.
    - unfold rank_callback; eauto.
    - unfold CrewFilterSpec.matches in Hm. rewrite !andb_true_iff in Hm.
      destruct Hm as (_ & Hm). apply negb_true_iff in Ha. rewrite Ha in Hm.
      simpl in Hm. unfold aircraft_callback, licence_matches in *.
      destruct (Aircraft_Type_License x); [simpl; eauto|discriminate]. }
  destruct Hret as [r' Hr'].
  rewrite Hr'. f_equal.
  rewrite (@filter_result r r' c Hr'), Hr.
  rewrite filter_filter. apply filter_ext. intros x.
  now destruct (CrewFilterSpec.matches toLowerCase c x).
Qed.

(** The crew list of [src/components/CrewList.tsx] filters like the crew
    list with the modal whenever no categorical criterion is the empty
    string. *)
Lemma crew_list_filters_agree_when_chosen (items : list CrewMember) (c : Criteria) :
  no_empty_choice c ->
  filterCrewMembers_CrewList toLowerCase items c = filterCrewMembers toLowerCase items c.
Proof.
  intros (Hb & Hr & Ha).
  unfold filterCrewMembers_CrewList, filterCrewMembers.
  now rewrite Hb, Hr, Ha.
Qed.

(** With an empty-string base the two differ: the crew list with the modal
    keeps only crew whose [Base] is the empty string, the other one skips
    the criterion. *)
Lemma crew_list_filters_differ_on_empty_choice (x : CrewMember) :
  Base x <> Some (lit "") ->
  let c := constrain FBase (lit "") clearFilters in
  filterCrewMembers toLowerCase [x] c = Normal [] /\
  filterCrewMembers_CrewList toLowerCase [x] c = Normal [x].
Proof.
  intros Hb c. split; [|reflexivity].
  unfold filterCrewMembers, c; simpl.
  unfold base_callback, strict_eq. destruct (Base x) as [b|]; simpl; trivial.
  rewrite str_eqb_neq; [reflexivity|congruence].
Qed.

(** The two crew lists of the repository filter alike, but for one case.
    Whenever no categorical criterion is the empty string they give the same
    result (or throw alike) on every input.  With the empty string as base
    they part: the crew list with the modal keeps only crew whose [Base] is
    the empty string, the other one skips the criterion and keeps
    everyone. *)
Theorem crew_list_versions_agree_unless_empty_choice :
  (forall items c,
     no_empty_choice c ->
     filterCrewMembers_CrewList toLowerCase items c
     = filterCrewMembers toLowerCase items c) /\
  (forall x,
     Base x <> Some (lit "") ->
     let c := constrain FBase (lit "") clearFilters in
     filterCrewMembers toLowerCase [x] c = Normal [] /\
     filterCrewMembers_CrewList toLowerCase [x] c = Normal [x]).
Proof.
  split.
  - exact crew_list_filters_agree_when_chosen.
  - exact crew_list_filters_differ_on_empty_choice.
Qed.

End Laws.
End CrewFilterLaws.

Lemma filter_keeps_exactly_the_matching_witness :
  [crew_of "CP002" "Bala" "DEL" "Captain"] =
  filter (CrewFilterSpec.matches (fun s => s)
            (CrewFilter.constrain CrewFilter.FRank (lit "Captain")
               (CrewFilter.constrain CrewFilter.FBase (lit "DEL") CrewFilter.clearFilters)))
         three_crew.
Proof.
  exact (proj1 (@CrewFilterLaws.filter_keeps_exactly_the_matching (fun s => s)
           three_crew [crew_of "CP002" "Bala" "DEL" "Captain"]
           (CrewFilter.constrain CrewFilter.FRank (lit "Captain")
              (CrewFilter.constrain CrewFilter.FBase (lit "DEL") CrewFilter.clearFilters))
           eq_refl)).
Defined.

Lemma filter_idempotent_witness :
  CrewFilter.filterCrewMembers (fun s => s)
    [crew_of "CP002" "Bala" "DEL" "Captain"; crew_of "CP003" "Chitra" "BOM" "Captain"]
    (CrewFilter.constrain CrewFilter.FSearch (lit "a") 
       (CrewFilter.constrain CrewFilter.FRank (lit "Captain") CrewFilter.clearFilters))
  = Normal [crew_of "CP002" "Bala" "DEL" "Captain"; crew_of "CP003" "Chitra" "BOM" "Captain"].
Proof.
  exact (@CrewFilterLaws.filter_idempotent (fun s => s) three_crew
           [crew_of "CP002" "Bala" "DEL" "Captain"; crew_of "CP003" "Chitra" "BOM" "Captain"]
           (CrewFilter.constrain CrewFilter.FSearch (lit "a")
              (CrewFilter.constrain CrewFilter.FRank (lit "Captain") CrewFilter.clearFilters))
           eq_refl).
Defined.

(** ** Crew list page: unique values *)

Module UniqueValuesFacts.
Import CrewListPage.

Lemma field_mem_In v l : field_mem v l = true <-> In v l.
Proof.
  unfold field_mem; rewrite existsb_exists; split.
  - intros [y [Hy E]]. now destruct (field_eq_dec v y) as [->|].
  - intros H; exists v; split; trivial. now destruct (field_eq_dec v v).
Qed.

Lemma Set_from (values : list field) : forall seen,
  NoDup seen ->
  let r := fold_left (fun seen v => if field_mem v seen then seen else seen ++ [v])
                     values seen in
  NoDup r /\ (forall v, In v r <-> In v seen \/ In v values).
Proof.
  induction values as [|x values IH]; intros seen Hnd; simpl.
  - split; trivial. intros v; tauto.
  - destruct (field_mem x seen) eqn:M.
    + destruct (IH seen Hnd) as [H1 H2]. split; trivial.
      intros v. rewrite H2. apply field_mem_In in M.
      split; [tauto|]. intros [H|[<-|H]]; auto.
    + assert (Hnd' : NoDup (seen ++ [x])).
      { apply NoDup_app; trivial.
        - repeat constructor; auto.
        - intros y Hy [<-|[]]. apply field_mem_In in Hy. congruence. }
      destruct (IH _ Hnd') as [H1 H2]. split; trivial.
      intros v. rewrite H2, in_app_iff. simpl. tauto.
Qed.

Lemma Set_of_distinct (values : list field) : forall seen,
  NoDup (seen ++ values) ->
  fold_left (fun seen v => if field_mem v seen then seen else seen ++ [v])
            values seen = seen ++ values.
Proof.
  induction values as [|x values IH]; intros seen H; simpl.
  - now rewrite app_nil_r.
  - assert (M : field_mem x seen = false).
    { destruct (field_mem x seen) eqn:M; trivial.
      apply field_mem_In in M. apply NoDup_remove_2 in H.
      exfalso; apply H, in_app_iff; auto. }
    rewrite M. rewrite IH; rewrite <- app_assoc; trivial.
Qed.

End UniqueValuesFacts.

(** The options offered for a field hold no duplicate, no missing value and
    no empty string, and they are exactly the non-empty values the field
    takes among the crew members; when those values are already distinct,
    they come in the order of the crew list. *)
Theorem unique_values_are_the_distinct_present_values
    (crewMembers : list CrewMember) (field : CrewMember -> JS.field) :
  let options := CrewListPage.getUniqueValues crewMembers field in
  NoDup options /\
  (forall v, In v options <->
     exists s crew, v = Some s /\ s <> [] /\ In crew crewMembers /\ field crew = Some s) /\
  (NoDup (filter CrewListPage.truthy_field (map field crewMembers)) ->
   options = filter CrewListPage.truthy_field (map field crewMembers)).
Proof.
  intros options. unfold options, CrewListPage.getUniqueValues, CrewListPage.Set_values.
  destruct (UniqueValuesFacts.Set_from
              (filter CrewListPage.truthy_field (map field crewMembers))
              (NoDup_nil _)) as [Hnd Hin].
  split; [exact Hnd|]. split.
  - intros v. rewrite Hin. simpl. rewrite filter_In, in_map_iff. split.
    + intros [[]|[(crew & <- & Hc) Ht]].
      destruct (field crew) as [s|] eqn:E; [|discriminate].
      exists s, crew. repeat split; trivial. now destruct s.
    + intros (s & crew & -> & Hs & Hc & E). right. split.
      * exists crew; auto.
      * simpl. now destruct s.
  - intros H. now apply (UniqueValuesFacts.Set_of_distinct _ []).
Qed.

(** ** Violations by category: the count of each category *)

Module HistogramCounts.
Import JSObject Index HistogramFacts ViolationTally.

(** The count the accumulator holds for a key. *)
Lemma own_update o k' v k :
  own (update o k' v) k = if str_eqb k k' then Some v else own o k.
Proof.
  induction o as [|[k0 v0] o IH]; simpl; trivial.
  destruct (str_eqb k' k0) eqn:E0; simpl.
  - apply str_eqb_eq in E0; subst k0. now destruct (str_eqb k k').
  - rewrite IH. destruct (str_eqb k k0) eqn:E1; trivial.
    destruct (str_eqb k k') eqn:E2; trivial.
    apply str_eqb_eq in E1, E2. subst. now rewrite str_eqb_refl in E0.
Qed.

Lemma own_none_keys o k : own o k = None <-> ~ In k (map fst o).
Proof.
  induction o as [|[k0 v0] o IH]; simpl; [tauto|].
  destruct (str_eqb k k0) eqn:E.
  - apply str_eqb_eq in E; subst. split; [discriminate|tauto].
  - rewrite IH. split; [|tauto]. intros H [->|H']; [|tauto].
    now rewrite str_eqb_refl in E.
Qed.

Lemma update_keys o k v x :
  In x (map fst (update o k v)) -> x = k \/ In x (map fst o).
Proof.
  induction o as [|[k0 v0] o IH]; simpl.
  - intros [->|[]]; auto.
  - destruct (str_eqb k k0); simpl; intros [->|H]; auto.
    destruct (IH H); auto.
Qed.

Lemma update_keys_nodup o k v : NoDup (map fst o) -> NoDup (map fst (update o k v)).
Proof.
  induction o as [|[k0 v0] o IH]; simpl; intros H.
  - repeat constructor; auto.
  - inversion H as [|? ? Hn Hd]; subst.
    destruct (str_eqb k k0) eqn:E; simpl; constructor; auto.
    intros Hin. apply update_keys in Hin as [->|Hin]; [|tauto].
    now rewrite str_eqb_refl in E.
Qed.

Lemma own_In o k v : NoDup (map fst o) -> (In (k, v) o <-> own o k = Some v).
Proof.
  induction o as [|[k0 v0] o IH]; simpl; intros H.
  - split; [tauto|discriminate].
  - inversion H as [|? ? Hn Hd]; subst.
    destruct (str_eqb k k0) eqn:E.
    + apply str_eqb_eq in E; subst k0. split.
      * intros [[= ->]|Hin]; trivial.
        exfalso; apply Hn. apply in_map_iff. now exists (k, v).
      * intros [= ->]; auto.
    + rewrite <- (IH Hd). split; [|tauto].
      intros [[= -> ->]|Hin]; trivial. now rewrite str_eqb_refl in E.
Qed.

Section Reducer.

Variable native_source : jsstring -> jsstring.

(** On a plain category the reducer writes the old count plus one. *)
Lemma count_violation_is_update acc v :
  counts_only acc -> plain_category v ->
  count_violation native_source acc v =
  update acc (category v) (PNumber (tally acc (category v) + 1)).
Proof.
  intros Ho Hp. unfold plain_category, Object_prototype_keys in Hp.
  simpl in Hp. apply orb_false_iff in Hp as [Hproto Hmeth].
  unfold count_violation, set, get, tally.
  fold proto_key in Hproto. rewrite Hproto.
  destruct (own acc (category v)) as [p|] eqn:E.
  - destruct (own_counts _ Ho E) as (n & -> & Hn).
    unfold or_else; simpl.
    replace (n =? 0)%Z with false by (symmetry; apply Z.eqb_neq; lia).
    reflexivity.
  - unfold mem_str, Object_prototype_methods; simpl. rewrite Hmeth.
    reflexivity.
Qed.

Lemma reduce_tally vs : forall acc k,
  counts_only acc -> NoDup (map fst acc) -> Forall plain_category vs ->
  let o := fold_left (count_violation native_source) vs acc in
  counts_only o /\ NoDup (map fst o) /\
  tally o k = (tally acc k + Z.of_nat (count_occ jsstring_eq_dec (map category vs) k))%Z.
Proof.
  induction vs as [|v vs IH]; intros acc k Ho Hd Hp; simpl.
  - repeat split; trivial. lia.
  - inversion Hp as [|? ? Hv Hvs]; subst.
    destruct (count_violation_plain native_source Ho Hv) as [Ho' _].
    assert (Hd' : NoDup (map fst (count_violation native_source acc v)))
      by (rewrite count_violation_is_update by trivial; now apply update_keys_nodup).
    destruct (IH _ k Ho' Hd' Hvs) as (H1 & H2 & H3).
    repeat split; trivial. rewrite H3.
    rewrite count_violation_is_update by trivial.
    unfold tally at 1. rewrite own_update.
    destruct (jsstring_eq_dec (category v) k) as [->|Hne].
    + rewrite str_eqb_refl. lia.
    + rewrite str_eqb_neq by congruence. fold (tally acc k). lia.
Qed.

End Reducer.

Lemma tally_own o k :
  counts_only o ->
  own o k = if (tally o k =? 0)%Z then None else Some (PNumber (tally o k)).
Proof.
  intros Ho. unfold tally. destruct (own o k) as [p|] eqn:E; [|reflexivity].
  destruct (own_counts _ Ho E) as (n & -> & Hn).
  replace (n =? 0)%Z with false by (symmetry; apply Z.eqb_neq; lia).
  reflexivity.
Qed.

End HistogramCounts.

(** For violations whose categories avoid the names of [Object.prototype]:
    the histogram names each category of the list once, and the value beside
    a category is the number of violations of that category. *)
Theorem histogram_counts_each_category
    (native_source : jsstring -> jsstring)
    (r : option (list Index.FlightData)) (vs : list Index.Violation) :
  Forall Index.plain_category vs ->
  let histogram :=
    Index.getViolationsByCategory native_source
      (Some {| Index.roster := r; Index.violations := Some vs |}) in
  NoDup (map Index.name histogram) /\
  forall k v,
    In {| Index.name := k; Index.value := v |} histogram <->
    In k (map Index.category vs) /\
    v = JSObject.PNumber
          (Z.of_nat (count_occ jsstring_eq_dec (map Index.category vs) k)).
Proof.
  intros Hp histogram. unfold histogram, Index.getViolationsByCategory; simpl.
  set (o := fold_left (Index.count_violation native_source) vs []).
  assert (Hred : forall k,
            Index.counts_only o /\ NoDup (map fst o) /\
            ViolationTally.tally o k =
            Z.of_nat (count_occ jsstring_eq_dec (map Index.category vs) k)).
  { intros k.
    destruct (@HistogramCounts.reduce_tally native_source vs [] k
                (Forall_nil _) (NoDup_nil _) Hp) as (H1 & H2 & H3).
    repeat split; trivial. }
  destruct (Hred []) as (Ho & Hd & _).
  pose proof (HistogramFacts.entries_perm o) as Hperm.
  assert (Hd' : NoDup (map fst (JSObject.entries o)))
    by (eapply Permutation_NoDup; [apply Permutation_map, Permutation_sym, Hperm|exact Hd]).
  split.
  - rewrite map_map. simpl. exact Hd'.
  - intros k v. rewrite in_map_iff.
    assert (E : (exists e, {| Index.name := fst e; Index.value := snd e |}
                           = {| Index.name := k; Index.value := v |}
                           /\ In e (JSObject.entries o)) <-> In (k, v) o).
    { split.
      - intros ([k' v'] & [= -> ->] & Hin). eapply Permutation_in; eauto.
      - intros Hin. exists (k, v). split; trivial.
        eapply Permutation_in; [apply Permutation_sym, Hperm|exact Hin]. }
    rewrite E. rewrite (@HistogramCounts.own_In o k v Hd).
    rewrite (@HistogramCounts.tally_own o k Ho).
    destruct (Hred k) as (_ & _ & ->).
    rewrite (count_occ_In jsstring_eq_dec).
    set (n := count_occ jsstring_eq_dec (map Index.category vs) k).
    destruct (Z.eqb_spec (Z.of_nat n) 0) as [Hz|Hz]; split.
    + discriminate.
    + intros [Hpos _]. lia.
    + intros [= <-]. split; [lia|reflexivity].
    + intros [_ ->]. reflexivity.
Qed.

Lemma histogram_counts_each_category_witness :
  let v c := {| Index.type := lit "t"; Index.category := lit c;
                Index.message := lit "m" |} in
  In {| Index.name := lit "Rest"; Index.value := JSObject.PNumber 2 |}
     (Index.getViolationsByCategory (fun s => s)
        (Some {| Index.roster := None;
                 Index.violations := Some [v "Rest"; v "DutyTime"; v "Rest"]%string |})).
Proof.
  intros v.
  apply (proj2 (@histogram_counts_each_category (fun s => s) None
                  [v "Rest"; v "DutyTime"; v "Rest"]%string
                  ltac:(repeat constructor))
           (lit "Rest") (JSObject.PNumber 2)).
  split; [left; reflexivity|reflexivity].
Defined.

(** ** Duty hours: reversed and unparsable stamps *)

Module DutyHoursEdges.
Import Num NumFacts Index.

Lemma of_Z_negative n : (n < 0)%Z -> has_sign true (of_Z n) = true.
Proof.
  destruct n; try lia. intros _. apply binary_round_sign.
Qed.

Lemma mul_nonpos x m e :
  has_sign true x = true ->
  has_sign true (mul x (S754_finite false m e)) = true.
Proof.
  destruct x as [[]|[]| |[] mx ex]; simpl; try discriminate; trivial.
  intros _. now apply binary_round_aux_sign.
Qed.

Lemma div_nonpos x m e :
  has_sign true x = true ->
  has_sign true (div x (S754_finite false m e)) = true.
Proof.
  destruct x as [[]|[]| |[] mx ex]; simpl; try discriminate; trivial.
  intros _. unfold SFdiv_core_binary.
  set (s := (ex - e - _)%Z).
  set (m' := match s with Z0 => Z.pos mx | Z.pos _ => Z.shiftl (Z.pos mx) s | Z.neg _ => 0%Z end).
  assert (Hm' : (0 <= m')%Z).
  { unfold m'. destruct s; try lia. apply Z.shiftl_nonneg. lia. }
  pose proof (Z.div_pos m' (Z.pos m) Hm' ltac:(lia)) as Hq.
  unfold Z.div in Hq.
  destruct (Z.div_eucl m' (Z.pos m)) as [q r].
  now apply binary_round_aux_sign.
Qed.

Lemma Math_round_nonpos x :
  has_sign true x = true -> has_sign true (Math_round x) = true.
Proof.
  destruct x as [[]|[]| |[] m e]; try (simpl; discriminate); try reflexivity.
  intros _. unfold Math_round. destruct (Z.leb_spec 0 e) as [|He]; [reflexivity|].
  set (d := (2 ^ (- e))%Z).
  destruct (Z.eqb_spec ((2 * Z.neg m + d) / (2 * d)) 0) as [_|Hn]; [reflexivity|].
  apply of_Z_negative.
  assert (0 < d)%Z by (apply Z.pow_pos_nonneg; lia).
  assert ((2 * Z.neg m + d) / (2 * d) < 1)%Z
    by (apply Z.div_lt_upper_bound; lia).
  lia.
Qed.

Lemma binary_normalize_negative d e :
  (d < 0)%Z -> has_sign true (binary_normalize prec emax d e false) = true.
Proof. destruct d; try lia. intros _. apply binary_round_sign. Qed.

(** The difference of two finite doubles in strictly decreasing order is
    negative: never NaN, never positive. *)
Lemma sub_negative x y :
  is_finite x = true -> is_finite y = true ->
  valid x = true -> valid y = true ->
  ltb x y = true ->
  has_sign true (sub x y) = true.
Proof.
  unfold ltb, SFltb, valid.
  destruct x as [sx| | |sx mx ex], y as [sy| | |sy my ey];
    try discriminate; intros _ _ Vx Vy Hlt.
  - destruct sy; simpl in Hlt; [discriminate Hlt|reflexivity].
  - destruct sx; simpl in Hlt; [reflexivity|discriminate Hlt].
  - simpl in Vx, Vy.
    unfold sub, SFsub. cbv beta iota zeta.
    apply binary_normalize_negative.
    pose proof (@aligned_lt _ _ _ _ Vx Vy) as Hxy.
    pose proof (@aligned_lt _ _ _ _ Vy Vx) as Hyx.
    rewrite (Z.min_comm ey ex) in Hxy.
    unfold SFcompare in Hlt.
    destruct sx, sy; unfold cond_Zopp; try discriminate.
    + destruct (Z.compare_spec ex ey) as [E|E|E]; try discriminate.
      * subst ey. rewrite !aligned_same.
        destruct (Pos.compare_cont Eq mx my) eqn:C; try discriminate.
        apply Pos.compare_gt_iff in C. lia.
      * specialize (Hyx E). lia.
    + lia.
    + destruct (Z.compare_spec ex ey) as [E|E|E]; try discriminate.
      * subst ey. rewrite !aligned_same.
        destruct (Pos.compare_cont Eq mx my) eqn:C; try discriminate.
        assert (Hm : (mx < my)%positive) by exact C. lia.
      * specialize (Hxy E). lia.
Qed.

Lemma duty_hours_nonpos s e :
  has_sign true (sub e s) = true -> has_sign true (duty_hours s e) = true.
Proof.
  intros H.
  rewrite DutyHoursFacts.duty_hours_formula,
          DutyHoursFacts.of_Z_3600000, DutyHoursFacts.of_Z_100.
  now apply div_nonpos, Math_round_nonpos, mul_nonpos, div_nonpos.
Qed.

Lemma nonpos_leb x : has_sign true x = true -> leb x zero = true.
Proof. destruct x as [[]|[]| |[] m e]; simpl; try discriminate; reflexivity. Qed.

Lemma nonpos_not_positive x : has_sign true x = true -> ltb zero x = false.
Proof. destruct x as [[]|[]| |[] m e]; simpl; try discriminate; reflexivity. Qed.

Lemma duty_hours_nan s e :
  s = S754_nan \/ e = S754_nan -> duty_hours s e = S754_nan.
Proof.
  intros [->| ->]; rewrite DutyHoursFacts.duty_hours_formula.
  - destruct e as [[]|[]| |[] m x]; reflexivity.
  - reflexivity.
Qed.

End DutyHoursEdges.

(** The duty-hours chart does not reorder or clamp.  For a flight among the
    first ten of the roster payload whose [Duty_End] is earlier than its
    [Duty_Start] (both finite time values), the charted hours carry the minus
    sign: they are at most zero and never positive. *)
Theorem duty_hours_negative_when_end_precedes_start
    (Date_getTime : jsstring -> Num.number)
    (data : Index.RosterResponse) (flights : list Index.FlightData)
    (i : nat) (f : Index.FlightData) :
  Index.roster data = Some flights ->
  nth_error flights i = Some f ->
  (i < 10)%nat ->
  let start_ := Date_getTime (Index.Duty_Start f) in
  let end_ := Date_getTime (Index.Duty_End f) in
  Num.is_finite start_ = true -> Num.is_finite end_ = true ->
  Num.valid start_ = true -> Num.valid end_ = true ->
  Num.ltb end_ start_ = true ->
  exists d,
    nth_error (Index.getDutyHoursData Date_getTime (Some data)) i = Some d /\
    Index.flight d = Index.Flight_Number f /\
    Num.has_sign true (Index.hours d) = true /\
    Num.leb (Index.hours d) Num.zero = true /\
    Num.ltb Num.zero (Index.hours d) = false.
Proof.
  intros Hr Hf Hi start_ end_ Fs Fe Vs Ve Hlt.
  exists (Index.duty_entry Date_getTime f).
  unfold Index.getDutyHoursData. rewrite Hr.
  rewrite DutyHoursFacts.nth_error_firstn_lt by exact Hi.
  rewrite (map_nth_error (Index.duty_entry Date_getTime) _ _ Hf).
  assert (S : Num.has_sign true (Index.hours (Index.duty_entry Date_getTime f)) = true).
  { simpl. fold start_ end_.
    apply DutyHoursEdges.duty_hours_nonpos.
    now apply DutyHoursEdges.sub_negative. }
  repeat split; trivial.
  - now apply DutyHoursEdges.nonpos_leb.
  - now apply DutyHoursEdges.nonpos_not_positive.
Qed.

Lemma duty_hours_negative_when_end_precedes_start_witness :
  exists d,
    nth_error (Index.getDutyHoursData sample_getTime
                 (Some {| Index.roster := Some [short_duty_flight; reversed_duty_flight];
                          Index.violations := None |})) 1
    = Some d /\
    Num.ltb Num.zero (Index.hours d) = false.
Proof.
  destruct (@duty_hours_negative_when_end_precedes_start sample_getTime
              {| Index.roster := Some [short_duty_flight; reversed_duty_flight];
                 Index.violations := None |}
              [short_duty_flight; reversed_duty_flight] 1 reversed_duty_flight
              eq_refl eq_refl ltac:(lia) eq_refl eq_refl eq_refl eq_refl eq_refl)
    as (d & Hd & _ & _ & _ & Hn).
  exists d. split; [exact Hd|exact Hn].
Defined.

(** A duty stamp that does not parse as a date poisons the entry, not the
    chart: for a flight among the first ten whose [Duty_Start] or [Duty_End]
    has the time value NaN, the entry is still emitted, with the flight's
    number and route, and its hours are NaN. *)
Theorem duty_hours_nan_for_unparsable_stamp
    (Date_getTime : jsstring -> Num.number)
    (data : Index.RosterResponse) (flights : list Index.FlightData)
    (i : nat) (f : Index.FlightData) :
  Index.roster data = Some flights ->
  nth_error flights i = Some f ->
  (i < 10)%nat ->
  Date_getTime (Index.Duty_Start f) = S754_nan \/
  Date_getTime (Index.Duty_End f) = S754_nan ->
  nth_error (Index.getDutyHoursData Date_getTime (Some data)) i =
  Some {| Index.flight := Index.Flight_Number f;
          Index.hours := S754_nan;
          Index.route := Index.Origin f ++ lit "-" ++ Index.Destination f |}.
Proof.
  intros Hr Hf Hi Hnan.
  unfold Index.getDutyHoursData. rewrite Hr.
  rewrite DutyHoursFacts.nth_error_firstn_lt by exact Hi.
  rewrite (map_nth_error (Index.duty_entry Date_getTime) _ _ Hf).
  unfold Index.duty_entry.
  now rewrite (DutyHoursEdges.duty_hours_nan Hnan).
Qed.

Lemma duty_hours_nan_for_unparsable_stamp_witness :
  nth_error
    (Index.getDutyHoursData sample_getTime
       (Some {| Index.roster := Some [undated_duty_flight];
                Index.violations := None |})) 0
  = Some {| Index.flight := lit "6E303";
            Index.hours := S754_nan;
            Index.route := lit "BLR-DEL" |}.
Proof.
  exact (@duty_hours_nan_for_unparsable_stamp sample_getTime
           {| Index.roster := Some [undated_duty_flight];
              Index.violations := None |}
           [undated_duty_flight] 0 undated_duty_flight
           eq_refl eq_refl ltac:(lia) (or_introl eq_refl)).
Defined.

(** ** Disruption chat: sessions *)

Module ChatSessionFacts.
Import DisruptionChatbot ChatSession.

Lemma turns_snoc : forall n d m,
  (length d <= n)%nat -> turns d = true ->
  is_user m = negb (Nat.odd (length d)) ->
  turns (d ++ [m]) = true.
Proof.
  induction n as [|n IH]; intros d m Hn Ht Hm.
  - destruct d; [|simpl in Hn; lia]. simpl in *. now rewrite Hm.
  - destruct d as [|u [|b rest]].
    + simpl in *. now rewrite Hm.
    + simpl in *. rewrite Ht, Hm. reflexivity.
    + change (turns ((u :: b :: rest) ++ [m]))
        with (is_user u && negb (is_user b) && turns (rest ++ [m])).
      change (turns (u :: b :: rest))
        with (is_user u && negb (is_user b) && turns rest) in Ht.
      apply andb_true_iff in Ht as [Hub Hr]. rewrite Hub. simpl.
      apply IH; [simpl in Hn; lia|exact Hr|].
      rewrite Hm. simpl length. now rewrite Nat.odd_succ_succ.
Qed.

Lemma filter_snoc {A} (p : A -> bool) l x :
  filter p (l ++ [x]) = filter p l ++ (if p x then [x] else []).
Proof. now rewrite filter_app. Qed.

Lemma send_balanced now date s :
  balanced s -> balanced (submit (handleSendMessage now date) s).
Proof.
  unfold balanced, submit, handleSendMessage. intros H.
  destruct (negb (truthy_str (trim (currentMessage (view s)))) || isLoading (view s))
    eqn:G; cbn [view in_flight].
  - rewrite H. lia.
  - apply orb_false_iff in G as [_ G]. rewrite G in H.
    cbn [isLoading requests]. rewrite length_app. simpl. lia.
Qed.

Lemma step_balanced s e : balanced s -> balanced (step s e).
Proof.
  intros H. destruct e as [text|key shiftKey now date|now date|date|now date r];
    cbn [step].
  - exact H.
  - unfold handleKeyPress.
    destruct (str_eqb key (lit "Enter") && negb shiftKey).
    + now apply send_balanced.
    + unfold balanced, submit in *. cbn [view in_flight]. rewrite H. lia.
  - now apply send_balanced.
  - exact H.
  - unfold balanced in *. destruct (in_flight s) as [|n] eqn:E.
    + now rewrite E.
    + cbn [view in_flight]. destruct (isLoading (view s)); [|discriminate].
      destruct r; cbn [handleSendMessage_settled isLoading]; congruence.
Qed.

Lemma send_in_turns date now date' s :
  in_turns date s -> in_turns date (submit (handleSendMessage now date') s).
Proof.
  unfold in_turns, submit, handleSendMessage.
  intros (d & Hm & Ht & Hl & Hr).
  destruct (negb (truthy_str (trim (currentMessage (view s)))) || isLoading (view s))
    eqn:G; cbn [view].
  - exists d. auto.
  - apply orb_false_iff in G as [_ G].
    exists (d ++ [userMessage now date' (currentMessage (view s))]).
    cbn [messages isLoading requests]. rewrite Hm.
    rewrite G in Hl.
    split; [reflexivity|]. split; [|split].
    + apply (@turns_snoc (length d)); trivial. now rewrite <- Hl.
    + rewrite length_app. simpl length. rewrite Nat.add_1_r, Nat.odd_succ.
      rewrite <- Nat.negb_odd, <- Hl. reflexivity.
    + rewrite filter_snoc, !map_app, Hr. reflexivity.
Qed.

Lemma step_in_turns date s e :
  is_clear e = false -> balanced s -> in_turns date s -> in_turns date (step s e).
Proof.
  intros Hc Hb H.
  destruct e as [text|key shiftKey now date'|now date'|date'|now date' r];
    cbn [step]; try discriminate Hc.
  - exact H.
  - unfold handleKeyPress.
    destruct (str_eqb key (lit "Enter") && negb shiftKey).
    + now apply send_in_turns.
    + exact H.
  - now apply send_in_turns.
  - unfold balanced in Hb. destruct (in_flight s) as [|n] eqn:E; [exact H|].
    destruct H as (d & Hm & Ht & Hl & Hr).
    destruct (isLoading (view s)) eqn:L; [|discriminate].
    set (reply := match r with
                  | Normal data => botMessage now date' data
                  | Throw _ => errorMessage now date'
                  end).
    exists (d ++ [reply]).
    assert (Hbot : is_user reply = false) by (destruct r; reflexivity).
    unfold in_turns. cbn [view].
    split; [destruct r; cbn [handleSendMessage_settled messages]; now rewrite Hm|].
    split; [|split].
    + apply (@turns_snoc (length d)); trivial. now rewrite Hbot, <- Hl.
    + rewrite length_app. simpl length. rewrite Nat.add_1_r, Nat.odd_succ.
      rewrite <- Nat.negb_odd, <- Hl.
      destruct r; reflexivity.
    + rewrite filter_snoc, Hbot, app_nil_r.
      destruct r; cbn [handleSendMessage_settled requests]; exact Hr.
Qed.

Lemma run_from_balanced es : forall s, balanced s -> balanced (fold_left step es s).
Proof.
  induction es as [|e es IH]; intros s H; simpl; trivial.
  now apply IH, step_balanced.
Qed.

Lemma run_from_in_turns date es : forall s,
  forallb (fun e => negb (is_clear e)) es = true ->
  balanced s -> in_turns date s -> in_turns date (fold_left step es s).
Proof.
  induction es as [|e es IH]; intros s Hc Hb H; simpl; trivial.
  simpl in Hc. apply andb_true_iff in Hc as [He Hes].
  apply negb_true_iff in He.
  apply IH; trivial.
  - now apply step_balanced.
  - now apply step_in_turns.
Qed.

End ChatSessionFacts.

(** Whatever is typed, clicked, cleared or answered, and in whatever order,
    the dialog never has more than one request out: the number of requests
    in flight is 1 while [isLoading] is true and 0 while it is false, so a
    submit is accepted only when nothing is pending and every answer finds
    the spinner on. *)
Theorem chat_at_most_one_request_in_flight
    (date : Z) (es : list ChatSession.event) :
  let s := ChatSession.run date es in
  ChatSession.in_flight s =
    (if DisruptionChatbot.isLoading (ChatSession.view s) then 1%nat else 0%nat) /\
  (ChatSession.in_flight s <= 1)%nat /\
  forall now date',
    ChatSession.in_flight s = 1%nat ->
    ChatSession.step s (ChatSession.SendClick now date') = s /\
    ChatSession.step s (ChatSession.KeyPress (lit "Enter") false now date') = s.
Proof.
  intros s.
  assert (H : ChatSession.balanced s).
  { apply ChatSessionFacts.run_from_balanced. reflexivity. }
  unfold ChatSession.balanced in H. clearbody s.
  split; [exact H|]. split.
  - rewrite H. destruct (DisruptionChatbot.isLoading _); lia.
  - intros now date' E. rewrite E in H.
    destruct (DisruptionChatbot.isLoading (ChatSession.view s)) eqn:L;
      [|discriminate].
    assert (N : DisruptionChatbot.handleSendMessage now date' (ChatSession.view s)
                = ChatSession.view s).
    { unfold DisruptionChatbot.handleSendMessage. rewrite L.
      now rewrite orb_true_r. }
    assert (K : ChatSession.handleKeyPress (lit "Enter") false now date'
                  (ChatSession.view s) = ChatSession.view s).
    { unfold ChatSession.handleKeyPress. rewrite str_eqb_refl. exact N. }
    cbn [ChatSession.step]. unfold ChatSession.submit.
    rewrite N, K, Nat.sub_diag, Nat.add_0_r.
    destruct s; split; reflexivity.
Qed.

(** As long as Clear Chat is not used, the conversation is the greeting
    followed by turns: a user message, then the bot's one reply to it (an
    answer or the apology), and so on, the last user message being without
    reply exactly while [isLoading] is true; and the texts posted to the
    server are, in order, the texts shown as the user's messages. *)
Theorem chat_conversation_in_turns
    (date : Z) (es : list ChatSession.event) :
  forallb (fun e => negb (ChatSession.is_clear e)) es = true ->
  let v := ChatSession.view (ChatSession.run date es) in
  exists d,
    DisruptionChatbot.messages v = DisruptionChatbot.greeting date :: d /\
    ChatSession.turns d = true /\
    DisruptionChatbot.isLoading v = Nat.odd (length d) /\
    map (fun r => Some (DisruptionChatbot.message r)) (DisruptionChatbot.requests v)
    = map DisruptionChatbot.content (filter ChatSession.is_user d).
Proof.
  intros Hc v.
  apply (@ChatSessionFacts.run_from_in_turns date es (ChatSession.opened date) Hc).
  - reflexivity.
  - exists []. repeat split.
Qed.

Lemma chat_conversation_in_turns_witness :
  exists d,
    DisruptionChatbot.messages
      (ChatSession.view
         (ChatSession.run 0
            [ChatSession.Input sick_report;
             ChatSession.SendClick 1700000000000 1700000000000;
             ChatSession.Settle 1700000000500 1700000000500 (Normal sample_reply)]))
    = DisruptionChatbot.greeting 0 :: d /\
    ChatSession.turns d = true /\ length d = 2%nat.
Proof.
  destruct (@chat_conversation_in_turns 0
              [ChatSession.Input sick_report;
               ChatSession.SendClick 1700000000000 1700000000000;
               ChatSession.Settle 1700000000500 1700000000500 (Normal sample_reply)]
              eq_refl) as (d & Hm & Ht & _).
  exists d. split; [exact Hm|]. split; [exact Ht|].
  vm_compute in Hm. injection Hm as <-. reflexivity.
Defined.

(** Clear Chat does not cancel the request in flight: cleared while a
    request is out, the conversation is no longer in turns once the answer
    arrives, for the answer follows the greeting with no user message before
    it. *)
Example chat_clear_keeps_request_in_flight :
  let s := ChatSession.run 0
             [ChatSession.Input sick_report;
              ChatSession.SendClick 1700000000000 1700000000000;
              ChatSession.Clear 1700000000200;
              ChatSession.Settle 1700000000500 1700000000500 (Normal sample_reply)] in
  DisruptionChatbot.messages (ChatSession.view s)
  = [DisruptionChatbot.greeting 1700000000200;
     DisruptionChatbot.botMessage 1700000000500 1700000000500 sample_reply] /\
  ChatSession.turns (tl (DisruptionChatbot.messages (ChatSession.view s))) = false.
Proof. vm_compute. split; reflexivity. Qed.

(** The accepted submit followed by the server's answer: the user's message
    and then one bot message carrying [data.response] and
    [data.suggested_actions] are appended, in that order; the text posted is
    the input as typed (not trimmed); the input is emptied, [isLoading] is
    false again, and no error toast is raised. *)
Theorem chat_success_appends_reply
    (now date now' date' : Z) (data : DisruptionChatbot.ChatData)
    (st : DisruptionChatbot.chat) :
  truthy_str (trim (DisruptionChatbot.currentMessage st)) = true ->
  DisruptionChatbot.isLoading st = false ->
  let st1 := DisruptionChatbot.handleSendMessage now date st in
  let st2 := DisruptionChatbot.handleSendMessage_settled now' date' (Normal data) st1 in
  DisruptionChatbot.messages st2 =
    DisruptionChatbot.messages st ++
      [DisruptionChatbot.userMessage now date (DisruptionChatbot.currentMessage st);
       {| DisruptionChatbot.id := Number_toString (now' + 1);
          DisruptionChatbot.type := DisruptionChatbot.bot;
          DisruptionChatbot.content := DisruptionChatbot.response data;
          DisruptionChatbot.timestamp := date';
          DisruptionChatbot.suggestedActions :=
            DisruptionChatbot.suggested_actions data |}] /\
  DisruptionChatbot.isLoading st1 = true /\
  DisruptionChatbot.isLoading st2 = false /\
  DisruptionChatbot.currentMessage st2 = lit "" /\
  DisruptionChatbot.requests st2 =
    DisruptionChatbot.requests st ++
      [{| DisruptionChatbot.message := DisruptionChatbot.currentMessage st |}] /\
  DisruptionChatbot.toasts st2 = DisruptionChatbot.toasts st.
Proof.
  intros Ht Hl st1 st2. subst st1 st2.
  unfold DisruptionChatbot.handleSendMessage.
  rewrite Ht, Hl; simpl. rewrite <- app_assoc; simpl. repeat split.
Qed.

Lemma chat_success_appends_reply_witness :
  DisruptionChatbot.messages
    (DisruptionChatbot.handleSendMessage_settled 1700000000500 1700000000500
       (Normal sample_reply)
       (DisruptionChatbot.handleSendMessage 1700000000000 1700000000000
          (DisruptionChatbot.setCurrentMessage sick_report
             (DisruptionChatbot.initial 0))))
  = [DisruptionChatbot.greeting 0;
     DisruptionChatbot.userMessage 1700000000000 1700000000000 sick_report;
     DisruptionChatbot.botMessage 1700000000500 1700000000500 sample_reply].
Proof.
  exact (proj1 (@chat_success_appends_reply 1700000000000 1700000000000
                  1700000000500 1700000000500 sample_reply
                  (DisruptionChatbot.setCurrentMessage sick_report
                     (DisruptionChatbot.initial 0))
                  eq_refl eq_refl)).
Defined.

(** ** Disruption chat: rendering *)

Module ChatRenderFacts.
Import DisruptionChatbot ChatRender.

Section Replace.

Variable match_at : jsstring -> option (jsstring * jsstring).

(** Text on which the pattern matches nowhere is copied. *)
Lemma replace_pass s : forall fuel,
  (forall a t, In a s -> match_at (a :: t) = None) ->
  replace_from match_at fuel s = s.
Proof.
  induction s as [|a s IH]; intros [|fuel] H; simpl; trivial.
  rewrite (H a s (or_introl eq_refl)). f_equal. apply IH.
  intros b t Hb. apply H. now right.
Qed.

Lemma replace_prefix pre : forall fuel s,
  (forall a t, In a pre -> match_at (a :: t) = None) ->
  (length pre <= fuel)%nat ->
  replace_from match_at fuel (pre ++ s)
  = pre ++ replace_from match_at (fuel - length pre) s.
Proof.
  induction pre as [|a pre IH]; intros fuel s H Hf; simpl.
  - now rewrite Nat.sub_0_r.
  - destruct fuel as [|fuel]; [simpl in Hf; lia|]. simpl.
    rewrite (H a (pre ++ s) (or_introl eq_refl)). f_equal.
    apply IH; [|simpl in Hf; lia].
    intros b t Hb. apply H. now right.
Qed.

End Replace.

Lemma bold_at_no_star a t : no_star a = true -> bold_at (a :: t) = None.
Proof.
  unfold no_star, bold_at. intros H. apply negb_true_iff in H.
  destruct t; trivial. now rewrite H.
Qed.

Lemma em_at_no_star a t : no_star a = true -> em_at (a :: t) = None.
Proof.
  unfold no_star, em_at. intros H. apply negb_true_iff in H. now rewrite H.
Qed.

Lemma br_at_no_newline a t : no_newline a = true -> br_at (a :: t) = None.
Proof.
  unfold no_newline, br_at. intros H. apply negb_true_iff in H. now rewrite H.
Qed.

Lemma forallb_In {A} (p : A -> bool) l a :
  forallb p l = true -> In a l -> p a = true.
Proof. intros H Ha. now apply (proj1 (forallb_forall p l) H). Qed.

Lemma close_bold_span x : forall post,
  forallb (fun c => no_star c && negb (is_line_terminator c)) x = true ->
  close_bold (x ++ star :: star :: post) = Some (x, post).
Proof.
  induction x as [|a x IH]; intros post H.
  - reflexivity.
  - simpl in H. apply andb_true_iff in H as [Ha Hx].
    apply andb_true_iff in Ha as [Hs Hl].
    unfold no_star in Hs. apply negb_true_iff in Hs, Hl.
    specialize (IH post Hx).
    change ((a :: x) ++ star :: star :: post)
      with (a :: (x ++ star :: star :: post)).
    destruct (x ++ star :: star :: post) as [|b rest] eqn:E.
    + destruct x; discriminate E.
    + cbn [close_bold]. fold close_bold. rewrite Hs, Hl. cbn [andb].
      cbn [close_bold] in IH. now rewrite IH.
Qed.

Lemma close_em_span x : forall post,
  forallb (fun c => no_star c && negb (is_line_terminator c)) x = true ->
  close_em (x ++ star :: post) = Some (x, post).
Proof.
  induction x as [|a x IH]; intros post H.
  - reflexivity.
  - simpl in H. apply andb_true_iff in H as [Ha Hx].
    apply andb_true_iff in Ha as [Hs Hl].
    unfold no_star in Hs. apply negb_true_iff in Hs, Hl.
    simpl. now rewrite Hs, Hl, (IH post Hx).
Qed.

Lemma stars_cons a s :
  stars (a :: s) = ((if N.eqb star a then 1 else 0) + stars s)%nat.
Proof. unfold stars; cbn [filter]. now destruct (N.eqb star a). Qed.

Lemma close_bold_stars s : forall c r,
  close_bold s = Some (c, r) -> (2 <= stars s)%nat.
Proof.
  induction s as [|a s IH]; intros c r H; [discriminate|].
  cbn [close_bold] in H. destruct s as [|b rest]; [discriminate|].
  destruct (N.eqb a star && N.eqb b star) eqn:E.
  - apply andb_true_iff in E as [Ea Eb].
    apply N.eqb_eq in Ea, Eb. subst.
    rewrite !stars_cons. change (N.eqb star star) with true. cbv iota. lia.
  - destruct (is_line_terminator a); [discriminate|].
    destruct (close_bold (b :: rest)) as [[c' r']|] eqn:R; [|discriminate].
    specialize (IH _ _ eq_refl). rewrite stars_cons. lia.
Qed.

Lemma bold_at_stars s : (stars s < 4)%nat -> bold_at s = None.
Proof.
  intros H. unfold bold_at. destruct s as [|a [|b rest]]; trivial.
  destruct (N.eqb a star && N.eqb b star) eqn:E; trivial.
  apply andb_true_iff in E as [Ea Eb]. apply N.eqb_eq in Ea, Eb. subst.
  destruct (close_bold rest) as [[c r]|] eqn:R; trivial.
  apply close_bold_stars in R.
  rewrite !stars_cons in H. change (N.eqb star star) with true in H.
  cbv iota in H. lia.
Qed.

Lemma replace_bold_few_stars s : forall fuel,
  (stars s < 4)%nat -> replace_from bold_at fuel s = s.
Proof.
  induction s as [|a s IH]; intros [|fuel] H; trivial.
  cbn [replace_from].
  rewrite (@bold_at_stars (a :: s) H). f_equal. apply IH.
  rewrite stars_cons in H. lia.
Qed.

Lemma stars_app a b : stars (a ++ b) = (stars a + stars b)%nat.
Proof. unfold stars. now rewrite filter_app, length_app. Qed.

Lemma stars_none s : forallb no_star s = true -> stars s = 0%nat.
Proof.
  induction s as [|a s IH]; simpl; trivial.
  intros H. apply andb_true_iff in H as [Ha Hs].
  rewrite stars_cons, (IH Hs). unfold no_star in Ha.
  apply negb_true_iff in Ha. rewrite N.eqb_sym in Ha. now rewrite Ha.
Qed.

Lemma forallb_weaken {A} (p q : A -> bool) l :
  (forall a, p a = true -> q a = true) ->
  forallb p l = true -> forallb q l = true.
Proof.
  intros H. induction l as [|a l IH]; simpl; trivial.
  intros E. apply andb_true_iff in E as [Ea El].
  now rewrite (H a Ea), (IH El).
Qed.

Lemma line_terminator_newline c :
  is_line_terminator c = false -> no_newline c = true.
Proof.
  unfold is_line_terminator, no_newline, newline. simpl.
  intros H. apply orb_false_iff in H as [H _]. now rewrite H.
Qed.

Lemma plain_no_star s : forallb plain s = true -> forallb no_star s = true.
Proof.
  apply forallb_weaken. intros a H. now apply andb_true_iff in H as [H _].
Qed.

Lemma plain_no_newline s : forallb plain s = true -> forallb no_newline s = true.
Proof.
  apply forallb_weaken. intros a H. now apply andb_true_iff in H as [_ H].
Qed.

Lemma spanned_plain s : forallb spanned s = true -> forallb plain s = true.
Proof.
  apply forallb_weaken. intros a H. unfold plain.
  apply andb_true_iff in H as [H1 H2]. rewrite H1.
  apply negb_true_iff in H2. now apply line_terminator_newline.
Qed.

Lemma pass_bold s fuel : forallb no_star s = true -> replace_from bold_at fuel s = s.
Proof.
  intros H. apply replace_pass. intros a t Ha.
  apply bold_at_no_star. now apply (@forallb_In _ _ _ a H).
Qed.

Lemma pass_em s fuel : forallb no_star s = true -> replace_from em_at fuel s = s.
Proof.
  intros H. apply replace_pass. intros a t Ha.
  apply em_at_no_star. now apply (@forallb_In _ _ _ a H).
Qed.

Lemma pass_br s fuel : forallb no_newline s = true -> replace_from br_at fuel s = s.
Proof.
  intros H. apply replace_pass. intros a t Ha.
  apply br_at_no_newline. now apply (@forallb_In _ _ _ a H).
Qed.

(** The line-break stage leaves no newline behind. *)
Lemma br_stage_no_newline fuel : forall s,
  (length s <= fuel)%nat -> ~ In newline (replace_from br_at fuel s).
Proof.
  induction fuel as [|fuel IH]; intros s H.
  - destruct s; [intros []|simpl in H; lia].
  - destruct s as [|a s]; [intros []|].
    simpl in H. cbn [replace_from br_at].
    destruct (N.eqb_spec a newline) as [->|Hn].
    + intros Hin. apply in_app_or in Hin as [Hin|Hin].
      * vm_compute in Hin. intuition discriminate.
      * revert Hin. apply IH. lia.
    + intros [Hin|Hin]; [congruence|]. revert Hin. apply IH. lia.
Qed.

(** The line-break stage turns each newline into [<br />] and keeps every
    other code unit. *)
Lemma br_stage fuel : forall s,
  (length s <= fuel)%nat -> replace_from br_at fuel s = flat_map line_break s.
Proof.
  induction fuel as [|fuel IH]; intros s H.
  - destruct s; [reflexivity|simpl in H; lia].
  - destruct s as [|a s]; [reflexivity|].
    simpl in H. cbn [replace_from br_at flat_map]. unfold line_break at 1.
    destruct (N.eqb a newline); cbn [app]; rewrite IH by lia; reflexivity.
Qed.

Lemma newlines_app a b : newlines (a ++ b) = (newlines a + newlines b)%nat.
Proof. unfold newlines. now rewrite filter_app, length_app. Qed.

Lemma newlines_cons a s :
  newlines (a :: s) = ((if N.eqb newline a then 1 else 0) + newlines s)%nat.
Proof. unfold newlines; cbn [filter]. now destruct (N.eqb newline a). Qed.

Lemma line_terminator_newlines a :
  is_line_terminator a = false -> N.eqb newline a = false.
Proof.
  unfold is_line_terminator, newline. cbn [existsb]. intros H.
  apply orb_false_iff in H as [H _]. rewrite N.eqb_sym. exact H.
Qed.

(** What a closed span has consumed. *)
Lemma close_bold_consumed s : forall c r,
  close_bold s = Some (c, r) -> s = c ++ star :: star :: r /\ newlines c = 0%nat.
Proof.
  induction s as [|a s IH]; intros c r H; [discriminate|].
  cbn [close_bold] in H. destruct s as [|b rest]; [discriminate|].
  destruct (N.eqb a star && N.eqb b star) eqn:E.
  - apply andb_true_iff in E as [Ea Eb]. apply N.eqb_eq in Ea, Eb. subst.
    injection H as <- <-. split; reflexivity.
  - destruct (is_line_terminator a) eqn:L; [discriminate|].
    destruct (close_bold (b :: rest)) as [[c' r']|] eqn:R; [|discriminate].
    injection H as <- <-. destruct (IH _ _ eq_refl) as [E1 E2].
    split; [simpl; now rewrite E1|].
    now rewrite newlines_cons, (line_terminator_newlines a L), E2.
Qed.

Lemma close_em_consumed s : forall c r,
  close_em s = Some (c, r) -> s = c ++ star :: r /\ newlines c = 0%nat.
Proof.
  induction s as [|a s IH]; intros c r H; [discriminate|].
  cbn [close_em] in H. destruct (N.eqb a star) eqn:E.
  - apply N.eqb_eq in E. subst. injection H as <- <-. split; reflexivity.
  - destruct (is_line_terminator a) eqn:L; [discriminate|].
    destruct (close_em s) as [[c' r']|] eqn:R; [|discriminate].
    injection H as <- <-. destruct (IH _ _ eq_refl) as [E1 E2].
    split; [simpl; now rewrite E1|].
    now rewrite newlines_cons, (line_terminator_newlines a L), E2.
Qed.

(** A pass whose matches consume no newline and put none keeps the newlines
    of the text. *)
Lemma replace_keeps_newlines (match_at : jsstring -> option (jsstring * jsstring)) :
  (forall s out rest,
     match_at s = Some (out, rest) ->
     exists consumed,
       s = consumed ++ rest /\ newlines consumed = 0%nat /\ newlines out = 0%nat) ->
  forall fuel s, newlines (replace_from match_at fuel s) = newlines s.
Proof.
  intros Hm. induction fuel as [|fuel IH]; intros s; [reflexivity|].
  destruct s as [|a t]; [reflexivity|]. cbn [replace_from].
  destruct (match_at (a :: t)) as [[out rest]|] eqn:M.
  - destruct (Hm _ _ _ M) as (consumed & E & Nc & No).
    rewrite newlines_app, IH, No, E, newlines_app, Nc. reflexivity.
  - now rewrite !newlines_cons, IH.
Qed.

Lemma bold_keeps_newlines fuel s :
  newlines (replace_from bold_at fuel s) = newlines s.
Proof.
  apply replace_keeps_newlines. intros t out rest H.
  unfold bold_at in H. destruct t as [|a [|b t]]; try discriminate.
  destruct (N.eqb a star && N.eqb b star) eqn:E; [|discriminate].
  apply andb_true_iff in E as [Ea Eb]. apply N.eqb_eq in Ea, Eb. subst.
  destruct (close_bold t) as [[c r]|] eqn:C; [|discriminate].
  injection H as <- <-. destruct (close_bold_consumed _ C) as [E N].
  exists (star :: star :: c ++ [star; star]). split; [|split].
  - simpl. rewrite <- app_assoc. simpl. now rewrite <- E.
  - rewrite !newlines_cons, newlines_app, N. reflexivity.
  - rewrite !newlines_cons, newlines_app, N. reflexivity.
Qed.

Lemma em_keeps_newlines fuel s :
  newlines (replace_from em_at fuel s) = newlines s.
Proof.
  apply replace_keeps_newlines. intros t out rest H.
  unfold em_at in H. destruct t as [|a t]; try discriminate.
  destruct (N.eqb a star) eqn:E; [|discriminate].
  apply N.eqb_eq in E. subst.
  destruct (close_em t) as [[c r]|] eqn:C; [|discriminate].
  injection H as <- <-. destruct (close_em_consumed _ C) as [E N].
  exists (star :: c ++ [star]). split; [|split].
  - simpl. rewrite <- app_assoc. simpl. now rewrite <- E.
  - rewrite !newlines_cons, newlines_app, N. reflexivity.
  - rewrite !newlines_cons, newlines_app, N. reflexivity.
Qed.

Lemma render_returns ms :
  (exists hs, render ms = Normal hs) <-> forallb has_text ms = true.
Proof.
  induction ms as [|m ms IH]; simpl.
  - split; eauto.
  - unfold inner_html, has_text, formatBotMessage.
    destruct (type m), (content m); simpl; rewrite <- ?IH.
    all: try (split; [intros [hs H]; destruct (render ms); [eauto|discriminate]
                     |intros [hs ->]; simpl; eauto]).
    split; [intros [hs H]; discriminate|intros H; discriminate].
Qed.

Lemma render_throws ms : forall e, render ms = Throw e -> e = TypeError.
Proof.
  induction ms as [|m ms IH]; simpl; intros e; [discriminate|].
  unfold inner_html, formatBotMessage.
  destruct (type m), (content m); simpl;
    try (destruct (render ms); simpl; [discriminate|intros [= <-]; now apply IH]).
  now intros [= <-].
Qed.

End ChatRenderFacts.

(** [formatBotMessage] does no escaping: a text with no star and no newline
    is handed to [innerHTML] exactly as the server sent it, markup
    included. *)
Theorem format_passes_plain_text_through (s : jsstring) :
  forallb (fun c => negb (N.eqb c ChatRender.star) &&
                    negb (N.eqb c ChatRender.newline)) s = true ->
  ChatRender.formatBotMessage (Some s) = Normal s.
Proof.
  intros H. change (forallb ChatRender.plain s = true) in H.
  unfold ChatRender.formatBotMessage, ChatRender.replace_all. simpl.
  rewrite (@ChatRenderFacts.pass_bold s _ (@ChatRenderFacts.plain_no_star s H)).
  rewrite (@ChatRenderFacts.pass_em s _ (@ChatRenderFacts.plain_no_star s H)).
  now rewrite (@ChatRenderFacts.pass_br s _ (@ChatRenderFacts.plain_no_newline s H)).
Qed.

Lemma format_passes_plain_text_through_witness :
  ChatRender.formatBotMessage (Some (lit "<u>CP001</u> & FO002"))
  = Normal (lit "<u>CP001</u> & FO002").
Proof.
  exact (@format_passes_plain_text_through (lit "<u>CP001</u> & FO002") eq_refl).
Defined.

(** Inside a text that has no other star and no newline, a span [**x**]
    becomes [<strong>x</strong>] and a span [*x*] becomes [<em>x</em>],
    where [x] has no star and no line terminator; the text around the span
    is unchanged. *)
Theorem format_marks_bold_and_emphasis (pre x post : jsstring) :
  forallb ChatRender.plain pre = true ->
  forallb ChatRender.spanned x = true ->
  forallb ChatRender.plain post = true ->
  ChatRender.formatBotMessage (Some (pre ++ lit "**" ++ x ++ lit "**" ++ post))
  = Normal (pre ++ lit "<strong>" ++ x ++ lit "</strong>" ++ post) /\
  ChatRender.formatBotMessage (Some (pre ++ lit "*" ++ x ++ lit "*" ++ post))
  = Normal (pre ++ lit "<em>" ++ x ++ lit "</em>" ++ post).
Proof.
  intros Hpre Hx Hpost.
  pose proof (@ChatRenderFacts.plain_no_star pre Hpre) as Spre.
  pose proof (@ChatRenderFacts.plain_no_star post Hpost) as Spost.
  pose proof (@ChatRenderFacts.plain_no_star x (@ChatRenderFacts.spanned_plain x Hx)) as Sx.
  assert (Hout : forall (o c : jsstring),
             forallb ChatRender.plain o = true ->
             forallb ChatRender.plain c = true ->
             forallb ChatRender.plain (pre ++ o ++ x ++ c ++ post) = true).
  { intros o c Ho Hc. rewrite !forallb_app, Hpre, Ho, Hc, Hpost.
    now rewrite (@ChatRenderFacts.spanned_plain x Hx). }
  unfold ChatRender.formatBotMessage, ChatRender.replace_all. cbn [deref bind ret].
  split.
  - (* bold *)
    assert (B : forall fuel, (length pre < fuel)%nat ->
              ChatRender.replace_from ChatRender.bold_at fuel
                (pre ++ lit "**" ++ x ++ lit "**" ++ post)
              = pre ++ lit "<strong>" ++ x ++ lit "</strong>" ++ post).
    { intros fuel Hf.
      rewrite ChatRenderFacts.replace_prefix; [|
        intros a t Ha; apply ChatRenderFacts.bold_at_no_star;
        now apply (@ChatRenderFacts.forallb_In _ _ _ a Spre) | lia].
      f_equal. destruct (fuel - length pre)%nat as [|n] eqn:E; [lia|].
      change (lit "**" ++ x ++ lit "**" ++ post)
        with (ChatRender.star :: ChatRender.star ::
              (x ++ ChatRender.star :: ChatRender.star :: post)).
      cbn [ChatRender.replace_from ChatRender.bold_at].
      change (N.eqb ChatRender.star ChatRender.star) with true. cbn [andb].
      rewrite (@ChatRenderFacts.close_bold_span x post Hx).
      rewrite (@ChatRenderFacts.pass_bold post _ Spost).
      now rewrite <- !app_assoc. }
    rewrite B by (rewrite length_app; simpl; lia).
    assert (P : forallb ChatRender.plain
                  (pre ++ lit "<strong>" ++ x ++ lit "</strong>" ++ post) = true)
      by (apply Hout; reflexivity).
    rewrite (@ChatRenderFacts.pass_em _ _ (@ChatRenderFacts.plain_no_star _ P)).
    now rewrite (@ChatRenderFacts.pass_br _ _ (@ChatRenderFacts.plain_no_newline _ P)).
  - (* emphasis *)
    rewrite ChatRenderFacts.replace_bold_few_stars.
    2:{ rewrite !ChatRenderFacts.stars_app.
        rewrite (@ChatRenderFacts.stars_none pre Spre),
                (@ChatRenderFacts.stars_none x Sx),
                (@ChatRenderFacts.stars_none post Spost).
        simpl. lia. }
    assert (E : forall fuel, (length pre < fuel)%nat ->
              ChatRender.replace_from ChatRender.em_at fuel
                (pre ++ lit "*" ++ x ++ lit "*" ++ post)
              = pre ++ lit "<em>" ++ x ++ lit "</em>" ++ post).
    { intros fuel Hf.
      rewrite ChatRenderFacts.replace_prefix; [|
        intros a t Ha; apply ChatRenderFacts.em_at_no_star;
        now apply (@ChatRenderFacts.forallb_In _ _ _ a Spre) | lia].
      f_equal. destruct (fuel - length pre)%nat as [|n] eqn:E; [lia|].
      change (lit "*" ++ x ++ lit "*" ++ post)
        with (ChatRender.star :: (x ++ ChatRender.star :: post)).
      cbn [ChatRender.replace_from ChatRender.em_at].
      change (N.eqb ChatRender.star ChatRender.star) with true.
      rewrite (@ChatRenderFacts.close_em_span x post Hx).
      rewrite (@ChatRenderFacts.pass_em post _ Spost).
      now rewrite <- !app_assoc. }
    rewrite E by (rewrite length_app; simpl; lia).
    assert (P : forallb ChatRender.plain
                  (pre ++ lit "<em>" ++ x ++ lit "</em>" ++ post) = true)
      by (apply Hout; reflexivity).
    now rewrite (@ChatRenderFacts.pass_br _ _ (@ChatRenderFacts.plain_no_newline _ P)).
Qed.

Lemma format_marks_bold_and_emphasis_witness :
  ChatRender.formatBotMessage (Some (lit "Crew **FO002** is sick"))
  = Normal (lit "Crew <strong>FO002</strong> is sick").
Proof.
  exact (proj1 (@format_marks_bold_and_emphasis
                  (lit "Crew ") (lit "FO002") (lit " is sick")
                  eq_refl eq_refl eq_refl)).
Defined.

(** [formatBotMessage] returns for every text.  Its result is the text as
    marked by the bold and emphasis passes, with each newline turned into
    [<br />] and every other code unit kept.  The two marking passes neither
    remove nor add a newline (and leave a text without stars as it is), so
    every newline of the text has become a [<br />] and the result holds no
    newline. *)
Theorem format_turns_newlines_into_breaks (s : jsstring) :
  let marked :=
    ChatRender.replace_all ChatRender.em_at
      (ChatRender.replace_all ChatRender.bold_at s) in
  ChatRender.formatBotMessage (Some s)
  = Normal (flat_map ChatRender.line_break marked) /\
  ChatRender.newlines marked = ChatRender.newlines s /\
  ~ In ChatRender.newline (flat_map ChatRender.line_break marked) /\
  (forallb ChatRender.no_star s = true ->
   ChatRender.formatBotMessage (Some s)
   = Normal (flat_map ChatRender.line_break s)).
Proof.
  intros marked.
  assert (E : ChatRender.formatBotMessage (Some s)
              = Normal (flat_map ChatRender.line_break marked)).
  { unfold ChatRender.formatBotMessage. cbn [deref bind ret].
    unfold ChatRender.replace_all at 1. fold marked.
    rewrite (@ChatRenderFacts.br_stage (length marked) marked (le_n _)).
    reflexivity. }
  split; [exact E|]. split; [|split].
  - subst marked. unfold ChatRender.replace_all.
    now rewrite ChatRenderFacts.em_keeps_newlines,
                ChatRenderFacts.bold_keeps_newlines.
  - rewrite <- (@ChatRenderFacts.br_stage (length marked) marked (le_n _)).
    apply ChatRenderFacts.br_stage_no_newline. reflexivity.
  - intros H. rewrite E. subst marked. unfold ChatRender.replace_all.
    rewrite (@ChatRenderFacts.pass_bold s _ H).
    now rewrite (@ChatRenderFacts.pass_em s _ H).
Qed.

(** The message list renders exactly when every bot message has a content:
    a bot message without one makes the render throw a TypeError
    ([content.replace] on [undefined]).  So an answer whose payload has no
    [response] field, which [handleSendMessage] appends as it is, breaks the
    render of the dialog. *)
Theorem render_needs_reply_text :
  (forall ms,
     (exists hs, ChatRender.render ms = Normal hs) <->
     forallb ChatRender.has_text ms = true) /\
  (forall ms,
     ChatRender.render ms = Throw TypeError <->
     forallb ChatRender.has_text ms = false) /\
  (forall now date data st,
     DisruptionChatbot.response data = None ->
     ChatRender.render
       (DisruptionChatbot.messages
          (DisruptionChatbot.handleSendMessage_settled now date (Normal data) st))
     = Throw TypeError).
Proof.
  assert (T : forall ms,
             ChatRender.render ms = Throw TypeError <->
             forallb ChatRender.has_text ms = false).
  { intros ms. pose proof (ChatRenderFacts.render_returns ms) as R.
    destruct (ChatRender.render ms) as [hs|e] eqn:E.
    - split; [discriminate|]. intros H.
      rewrite (proj1 R (ex_intro _ hs eq_refl)) in H. discriminate.
    - rewrite (@ChatRenderFacts.render_throws ms e E).
      split; trivial. intros _.
      destruct (forallb ChatRender.has_text ms); trivial.
      destruct (proj2 R eq_refl) as [hs H]. discriminate. }
  split; [exact ChatRenderFacts.render_returns|]. split; [exact T|].
  intros now date data st H. apply T. simpl.
  rewrite forallb_app. simpl.
  unfold ChatRender.has_text at 2. simpl. rewrite H.
  now rewrite andb_false_r.
Qed.

(** ** Crew detail modal: the profile request, the closure, the flights *)

Module CrewDetailsEdges.
Import CrewDetailsModal.Payload CrewDetailsModal CrewDetailsSpec CrewDetailsFacts.

(** What one call leaves behind once the profile request has answered with
    a crew list, whether or not the list holds the crew member. *)
Lemma run_sections server rnd p st crewData members :
  at_ p = AwaitCrew ->
  server GetCrew = Normal crewData ->
  crew_members crewData = Some members ->
  let final := run 5 server rnd (st, Some p) in
  snd final = None /\
  crewDetails (fst final) =
    match find (fun c => strict_eq (Crew_ID c) (crewId p)) members with
    | Some c => Some c
    | None => crewDetails st
    end /\
  loading (fst final) = false /\
  toasts (fst final) = toasts st /\
  schedule (fst final) =
    match server (GetSchedule (crewId p)) with
    | Normal b => or_empty (schedules b)
    | Throw _ => []
    end /\
  preferences (fst final) =
    match server (GetPreferences (crewId p)) with
    | Normal b => or_empty (Payload.preferences b)
    | Throw _ => []
    end /\
  match latest_roster_flights server (crewId p) with
  | Throw _ => flightAssignments (fst final) = [] /\ violations (fst final) = []
  | Normal None =>
      flightAssignments (fst final) = flightAssignments st /\
      violations (fst final) = violations st
  | Normal (Some crewFlights) =>
      flightAssignments (fst final) = crewFlights /\
      violations (fst final) = mockViolations rnd (seen_schedule p) crewFlights
  end.
Proof.
  intros Hat Hc Hm final; subst final.
  destruct p as [crew seen pt]; simpl in *; subst pt.
  unfold latest_roster_flights.
  norm. rewrite Hc; norm. rewrite Hm; norm.
  destruct (find (fun c => strict_eq (Crew_ID c) crew) members) as [c|]; norm;
  destruct (server (GetSchedule crew)) as [bs|es]; norm;
    destruct (server (GetPreferences crew)) as [bp|ep]; norm;
    destruct (server GetRosterHistory) as [bh|eh]; norm;
    try (simpl; repeat split; fail);
    destruct (rosters bh) as [[|latest more]|]; norm;
    try (simpl; repeat split; fail);
    destruct (server (GetRoster (id latest))) as [br|er]; norm;
    try (simpl; repeat split; fail);
    destruct (crew_flights crew br) as [crewFlights|ef]; norm;
    simpl; repeat split.
Qed.

Lemma run_loading_off server rnd p st :
  at_ p = AwaitCrew -> loading (fst (run 5 server rnd (st, Some p))) = false.
Proof.
  intros Hat. destruct p as [crew seen pt]; simpl in *; subst pt.
  norm.
  destruct (server GetCrew) as [bc|]; [|reflexivity]. norm.
  destruct (crew_members bc) as [members|]; [|reflexivity]. norm.
  destruct (find (fun c => strict_eq (Crew_ID c) crew) members) as [c|]; norm;
  destruct (server (GetSchedule crew)) as [bs|es]; norm;
    destruct (server (GetPreferences crew)) as [bp|ep]; norm;
    destruct (server GetRosterHistory) as [bh|eh]; norm;
    try reflexivity;
    destruct (rosters bh) as [[|latest more]|]; norm;
    try reflexivity;
    destruct (server (GetRoster (id latest))) as [br|er]; norm;
    try reflexivity;
    destruct (crew_flights crew br) as [crewFlights|ef];
    reflexivity.
Qed.

Lemma crew_flights_carries crew rosterData flights :
  roster_data rosterData = Some flights ->
  Forall (fun f => Crew_Members f <> None) flights ->
  crew_flights crew rosterData = Normal (filter (carries crew) flights).
Proof.
  intros Hr Hf. unfold crew_flights. rewrite Hr.
  apply filterM_ok. intros f Hin.
  pose proof (proj1 (Forall_forall _ _) Hf f Hin) as Hm.
  cbv beta in Hm.
  unfold assigned_to, carries. destruct (Crew_Members f); [reflexivity|congruence].
Qed.

End CrewDetailsEdges.

(** [fetchCrewDetails] always comes to an end: whatever each of its (at
    most five) requests is answered with, the call returns; when it was
    started (a crew id that is not empty) it leaves the spinner off, and for
    a missing or empty crew id it does nothing at all. *)
Theorem crew_details_fetch_always_settles
    (server : CrewDetailsModal.request -> completion CrewDetailsModal.Payload.body)
    (rnd : CrewDetailsModal.draws) (crew : option jsstring)
    (st : CrewDetailsModal.modal) :
  let result :=
    CrewDetailsModal.run 5 server rnd (CrewDetailsModal.fetchCrewDetails crew st) in
  snd result = None /\
  match crew with
  | Some c =>
      if truthy_str c
      then CrewDetailsModal.loading (fst result) = false
      else fst result = st
  | None => fst result = st
  end.
Proof.
  intros result. subst result. unfold CrewDetailsModal.fetchCrewDetails.
  destruct crew as [c|]; [|split; reflexivity].
  destruct (truthy_str c); [|split; reflexivity].
  split.
  - now apply CrewDetailsFacts.run_returns.
  - now apply CrewDetailsEdges.run_loading_off.
Qed.

(** When the profile request fails (the fetch is rejected, the body does
    not parse, or it has no [crew_members]) the whole call is given up after
    that one request: schedule, preferences and flights are not asked for,
    every section keeps what it showed before (possibly another crew
    member's data), the spinner is turned off and the one toast
    'Failed to fetch crew details' is raised. *)
Theorem profile_failure_aborts_crew_details
    (server : CrewDetailsModal.request -> completion CrewDetailsModal.Payload.body)
    (rnd : CrewDetailsModal.draws) (crew : jsstring)
    (st : CrewDetailsModal.modal) :
  truthy_str crew = true ->
  (forall b, server CrewDetailsModal.GetCrew = Normal b ->
             CrewDetailsModal.Payload.crew_members b = None) ->
  let result :=
    CrewDetailsModal.run 1 server rnd
      (CrewDetailsModal.fetchCrewDetails (Some crew) st) in
  snd result = None /\
  CrewDetailsSpec.same_sections (fst result) st /\
  CrewDetailsModal.loading (fst result) = false /\
  CrewDetailsModal.toasts (fst result) =
    CrewDetailsModal.toasts st ++ [lit "Failed to fetch crew details"] /\
  CrewDetailsModal.run 5 server rnd
    (CrewDetailsModal.fetchCrewDetails (Some crew) st) = result.
Proof.
  intros Ht Hfail result. subst result.
  unfold CrewDetailsModal.fetchCrewDetails. rewrite Ht.
  CrewDetailsFacts.norm.
  destruct (server CrewDetailsModal.GetCrew) as [b|e] eqn:E.
  - rewrite (Hfail b eq_refl). CrewDetailsFacts.norm.
    unfold CrewDetailsSpec.same_sections. simpl. repeat split.
  - CrewDetailsFacts.norm.
    unfold CrewDetailsSpec.same_sections. simpl. repeat split.
Qed.

Lemma profile_failure_aborts_crew_details_witness :
  CrewDetailsModal.toasts
    (fst (CrewDetailsModal.run 1 profile_down_server no_draws
            (CrewDetailsModal.fetchCrewDetails (Some (lit "CP001"))
               CrewDetailsModal.initial)))
  = [lit "Failed to fetch crew details"].
Proof.
  destruct (@profile_failure_aborts_crew_details profile_down_server no_draws
              (lit "CP001") CrewDetailsModal.initial eq_refl
              ltac:(intros b H; discriminate H))
    as (_ & _ & _ & H & _).
  exact H.
Defined.

(** When the crew list answers but does not hold the selected id, nothing
    says so: no toast is raised, the profile shown is the one that was there
    before the call (none, or the previously opened crew member's), and the
    schedule and preferences of the selected id are loaded next to it. *)
Theorem unknown_crew_keeps_previous_profile
    (server : CrewDetailsModal.request -> completion CrewDetailsModal.Payload.body)
    (rnd : CrewDetailsModal.draws) (crew : jsstring)
    (st : CrewDetailsModal.modal)
    (crewData : CrewDetailsModal.Payload.body) (members : list CrewMember) :
  truthy_str crew = true ->
  server CrewDetailsModal.GetCrew = Normal crewData ->
  CrewDetailsModal.Payload.crew_members crewData = Some members ->
  Forall (fun c => strict_eq (Crew_ID c) crew = false) members ->
  let result :=
    CrewDetailsModal.run 5 server rnd
      (CrewDetailsModal.fetchCrewDetails (Some crew) st) in
  snd result = None /\
  CrewDetailsModal.crewDetails (fst result) = CrewDetailsModal.crewDetails st /\
  CrewDetailsModal.toasts (fst result) = CrewDetailsModal.toasts st /\
  CrewDetailsModal.loading (fst result) = false /\
  CrewDetailsModal.schedule (fst result) =
    match server (CrewDetailsModal.GetSchedule crew) with
    | Normal b => or_empty (CrewDetailsModal.Payload.schedules b)
    | Throw _ => []
    end /\
  CrewDetailsModal.preferences (fst result) =
    match server (CrewDetailsModal.GetPreferences crew) with
    | Normal b => or_empty (CrewDetailsModal.Payload.preferences b)
    | Throw _ => []
    end.
Proof.
  intros Ht Hc Hm Hnone result. subst result.
  unfold CrewDetailsModal.fetchCrewDetails. rewrite Ht.
  set (p := {| CrewDetailsModal.crewId := crew;
               CrewDetailsModal.seen_schedule := CrewDetailsModal.schedule st;
               CrewDetailsModal.at_ := CrewDetailsModal.AwaitCrew |}).
  destruct (@CrewDetailsEdges.run_sections server rnd p
              (CrewDetailsModal.setLoading true st) crewData members
              eq_refl Hc Hm)
    as (Hret & Hcrew & Hload & Htoast & Hs & Hpr & _).
  assert (Hfind : find (fun c => strict_eq (Crew_ID c) crew) members = None).
  { clear -Hnone. induction Hnone as [|c l Hc _ IH]; simpl; trivial.
    now rewrite Hc. }
  cbn [CrewDetailsModal.crewId p] in Hcrew, Hs, Hpr.
  rewrite Hfind in Hcrew.
  repeat split; assumption.
Qed.

Lemma unknown_crew_keeps_previous_profile_witness :
  CrewDetailsModal.crewDetails
    (fst (CrewDetailsModal.run 5 sample_server no_draws
            (CrewDetailsModal.fetchCrewDetails (Some (lit "CP404"))
               CrewDetailsModal.initial)))
  = None.
Proof.
  destruct (@unknown_crew_keeps_previous_profile sample_server no_draws
              (lit "CP404") CrewDetailsModal.initial _ three_crew
              eq_refl eq_refl eq_refl
              ltac:(repeat constructor))
    as (_ & H & _).
  exact H.
Defined.

(** The violations listed by the modal are made from the schedule the
    component held when the call started, not from the schedule the same
    call has just fetched: their number is the [violation_count] of the
    first entry of that earlier schedule.  So the first time the modal is
    opened (nothing held yet) no violation is listed, whatever the fetched
    schedule reports. *)
Theorem mock_violations_follow_the_schedule_held_before
    (server : CrewDetailsModal.request -> completion CrewDetailsModal.Payload.body)
    (rnd : CrewDetailsModal.draws) (crew : jsstring)
    (st : CrewDetailsModal.modal)
    (crewData : CrewDetailsModal.Payload.body) (members : list CrewMember)
    (crewFlights : list CrewDetailsModal.FlightAssignment) :
  truthy_str crew = true ->
  server CrewDetailsModal.GetCrew = Normal crewData ->
  CrewDetailsModal.Payload.crew_members crewData = Some members ->
  CrewDetailsModal.latest_roster_flights server crew = Normal (Some crewFlights) ->
  let final :=
    fst (CrewDetailsModal.run 5 server rnd
           (CrewDetailsModal.fetchCrewDetails (Some crew) st)) in
  CrewDetailsModal.violations final =
    CrewDetailsModal.mockViolations rnd (CrewDetailsModal.schedule st) crewFlights /\
  length (CrewDetailsModal.violations final) =
    match CrewDetailsModal.schedule st with
    | first :: _ => Z.to_nat (CrewDetailsModal.violation_count first)
    | [] => 0%nat
    end /\
  CrewDetailsModal.schedule final =
    match server (CrewDetailsModal.GetSchedule crew) with
    | Normal b => or_empty (CrewDetailsModal.Payload.schedules b)
    | Throw _ => []
    end /\
  (CrewDetailsModal.schedule st = [] -> CrewDetailsModal.violations final = []).
Proof.
  intros Ht Hc Hm Hfl final. subst final.
  unfold CrewDetailsModal.fetchCrewDetails. rewrite Ht.
  set (p := {| CrewDetailsModal.crewId := crew;
               CrewDetailsModal.seen_schedule := CrewDetailsModal.schedule st;
               CrewDetailsModal.at_ := CrewDetailsModal.AwaitCrew |}).
  destruct (@CrewDetailsEdges.run_sections server rnd p
              (CrewDetailsModal.setLoading true st) crewData members
              eq_refl Hc Hm)
    as (_ & _ & _ & _ & Hs & _ & Hv).
  cbn [CrewDetailsModal.crewId CrewDetailsModal.seen_schedule p] in Hs, Hv.
  rewrite Hfl in Hv. destruct Hv as [_ Hv].
  split; [exact Hv|]. split; [|split; [exact Hs|]].
  - rewrite Hv. unfold CrewDetailsModal.mockViolations.
    destruct (CrewDetailsModal.schedule st) as [|first rest]; [reflexivity|].
    destruct (Z.ltb_spec 0 (CrewDetailsModal.violation_count first)) as [Hpos|Hneg].
    + now rewrite length_map, length_seq.
    + simpl. destruct (CrewDetailsModal.violation_count first); try reflexivity. lia.
  - intros He. rewrite Hv, He. reflexivity.
Qed.

Lemma mock_violations_follow_the_schedule_held_before_witness :
  CrewDetailsModal.violations
    (fst (CrewDetailsModal.run 5 sample_server no_draws
            (CrewDetailsModal.fetchCrewDetails (Some (lit "CP001"))
               CrewDetailsModal.initial)))
  = [].
Proof.
  destruct (@mock_violations_follow_the_schedule_held_before sample_server no_draws
              (lit "CP001") CrewDetailsModal.initial _ three_crew [sample_assignment]
              eq_refl eq_refl eq_refl eq_refl)
    as (_ & _ & _ & H).
  exact (H eq_refl).
Defined.

(** The flights shown for a crew member are exactly the flights of the
    latest roster that list the crew id among their [Crew_Members], in the
    roster's order, whenever each flight of that roster has a [Crew_Members]
    list; the roster itself is kept as [latestRoster]. *)
Theorem displayed_flights_are_the_crew_members_flights
    (server : CrewDetailsModal.request -> completion CrewDetailsModal.Payload.body)
    (rnd : CrewDetailsModal.draws) (crew : jsstring)
    (st : CrewDetailsModal.modal)
    (crewData rostersData rosterData : CrewDetailsModal.Payload.body)
    (members : list CrewMember)
    (latest : CrewDetailsModal.RosterHistoryItem)
    (older : list CrewDetailsModal.RosterHistoryItem)
    (flights : list CrewDetailsModal.FlightAssignment) :
  truthy_str crew = true ->
  server CrewDetailsModal.GetCrew = Normal crewData ->
  CrewDetailsModal.Payload.crew_members crewData = Some members ->
  server CrewDetailsModal.GetRosterHistory = Normal rostersData ->
  CrewDetailsModal.Payload.rosters rostersData = Some (latest :: older) ->
  server (CrewDetailsModal.GetRoster (CrewDetailsModal.id latest)) = Normal rosterData ->
  CrewDetailsModal.Payload.roster_data rosterData = Some flights ->
  Forall (fun f => CrewDetailsModal.Crew_Members f <> None) flights ->
  let final :=
    fst (CrewDetailsModal.run 5 server rnd
           (CrewDetailsModal.fetchCrewDetails (Some crew) st)) in
  CrewDetailsModal.flightAssignments final =
    filter (CrewDetailsSpec.carries crew) flights /\
  (forall f, In f (CrewDetailsModal.flightAssignments final) <->
             In f flights /\ CrewDetailsSpec.carries crew f = true).
Proof.
  intros Ht Hc Hm Hh Hr Hg Hd Hf final.
  assert (E : CrewDetailsModal.flightAssignments final =
              filter (CrewDetailsSpec.carries crew) flights).
  { subst final.
    unfold CrewDetailsModal.fetchCrewDetails. rewrite Ht.
    set (p := {| CrewDetailsModal.crewId := crew;
                 CrewDetailsModal.seen_schedule := CrewDetailsModal.schedule st;
                 CrewDetailsModal.at_ := CrewDetailsModal.AwaitCrew |}).
    destruct (@CrewDetailsEdges.run_sections server rnd p
                (CrewDetailsModal.setLoading true st) crewData members
                eq_refl Hc Hm)
      as (_ & _ & _ & _ & _ & _ & Hv).
    cbn [CrewDetailsModal.crewId p] in Hv.
    unfold CrewDetailsModal.latest_roster_flights in Hv.
    rewrite Hh in Hv. cbn [bind] in Hv. rewrite Hr, Hg in Hv. cbn [bind] in Hv.
    rewrite (@CrewDetailsEdges.crew_flights_carries crew rosterData flights Hd Hf)
      in Hv.
    cbn [bind ret] in Hv. exact (proj1 Hv). }
  split; [exact E|].
  intros f. rewrite E. apply filter_In.
Qed.

Lemma displayed_flights_are_the_crew_members_flights_witness :
  CrewDetailsModal.flightAssignments
    (fst (CrewDetailsModal.run 5 sample_server no_draws
            (CrewDetailsModal.fetchCrewDetails (Some (lit "CP002"))
               CrewDetailsModal.initial)))
  = filter (CrewDetailsSpec.carries (lit "CP002")) [sample_assignment].
Proof.
  exact (proj1 (@displayed_flights_are_the_crew_members_flights sample_server
                  no_draws (lit "CP002") CrewDetailsModal.initial _ _ _
                  three_crew {| CrewDetailsModal.id := 7 |} [] [sample_assignment]
                  eq_refl eq_refl eq_refl eq_refl eq_refl eq_refl eq_refl
                  ltac:(repeat constructor; discriminate))).
Defined.

(** ** Flights list: the search *)

Module FlightsFilterLaws.
Import FlightsList FlightsFilterSpec.

Section Laws.

Variable toLowerCase : jsstring -> jsstring.

Lemma flight_callback_matches term x b :
  truthy_str term = true ->
  flight_callback toLowerCase term x = Normal b ->
  flight_matches toLowerCase term x = b.
Proof.
  intros Ht. unfold flight_callback, flight_matches, orelse, lower_includes.
  rewrite Ht. cbn [negb orb].
  unfold CrewFilterSpec.text_matches.
  destruct (Flight_Number x) as [n|]; cbn [deref bind ret]; [|discriminate].
  destruct (includes (toLowerCase n) (toLowerCase term)); cbn [orb].
  - now intros [= <-].
  - destruct (Origin x) as [o|]; cbn [deref bind ret]; [|discriminate].
    destruct (includes (toLowerCase o) (toLowerCase term)); cbn [orb].
    + now intros [= <-].
    + destruct (Destination x) as [d|]; cbn [deref bind ret]; [|discriminate].
      now intros [= <-].
Qed.

(** Whenever the flight search returns, the rows shown are exactly the
    fetched flights whose number, origin or destination contains the search
    term (case-insensitively), in the fetched order; with an empty term they
    are all the fetched flights. *)
Theorem flights_search_keeps_exactly_the_matching
    (flights r : list Flight) (term : jsstring) :
  filterFlights toLowerCase flights term = Normal r ->
  r = filter (flight_matches toLowerCase term) flights /\
  (truthy_str term = false -> r = flights).
Proof.
  unfold filterFlights. destruct (truthy_str term) eqn:Ht; cbn [bind ret].
  - destruct (filterM (flight_callback toLowerCase term) flights) as [r'|e] eqn:H;
      cbn [bind]; [|discriminate].
    intros [= <-]. split; [|discriminate].
    apply (@filterM_filter _ (flight_callback toLowerCase term) _ flights r' H).
    intros x b _ Hx. now apply flight_callback_matches.
  - intros [= <-]. split; [|reflexivity].
    unfold flight_matches. rewrite Ht. cbn [negb orb].
    symmetry. apply filter_true.
Qed.

End Laws.
End FlightsFilterLaws.

Lemma flights_search_keeps_exactly_the_matching_witness :
  [sample_flight "6E101" "DEL"]
  = filter (FlightsFilterSpec.flight_matches (fun s => s) (lit "DEL")) two_flights.
Proof.
  exact (proj1 (@FlightsFilterLaws.flights_search_keeps_exactly_the_matching
                  (fun s => s) two_flights [sample_flight "6E101" "DEL"] (lit "DEL")
                  eq_refl)).
Defined.

(** ** Crew list: the dialog of the selected crew member *)

Module CrewSelectionFacts.
Import CrewDetailsModal.Payload CrewSelection.

Lemma nth_error_app_at {A} (pre : list A) x post :
  nth_error (pre ++ x :: post) (length pre) = Some x.
Proof. induction pre; simpl; auto. Qed.

Lemma remove_nth_app_at {A} (pre : list A) x post :
  FlightsList.remove_nth (length pre) (pre ++ x :: post) = pre ++ post.
Proof. induction pre as [|y pre IH]; simpl; [reflexivity|now rewrite IH]. Qed.

End CrewSelectionFacts.

(** The two fetches of a selection do not depend on each other: whichever
    of them is answered first, and whether either fails, the dialog ends
    with the selected crew member, the schedule of the schedule response
    (empty if that fetch failed) and the preferences of the preferences
    response (empty if that fetch failed), and nothing of the selection is
    left pending. *)
Theorem crew_selection_fetches_are_independent
    (crew : CrewMember) (s : CrewSelection.panel)
    (rs rp : completion CrewDetailsModal.Payload.body) :
  let n := length (CrewSelection.pending s) in
  let final :=
    {| CrewSelection.selectedCrew := Some crew;
       CrewSelection.crewSchedule :=
         match rs with
         | Normal data => or_empty (CrewDetailsModal.Payload.schedules data)
         | Throw _ => []
         end;
       CrewSelection.crewPreferences :=
         match rp with
         | Normal data => or_empty (CrewDetailsModal.Payload.preferences data)
         | Throw _ => []
         end;
       CrewSelection.pending := CrewSelection.pending s |} in
  CrewSelection.steps s
    [CrewSelection.Select crew; CrewSelection.Settle n rs; CrewSelection.Settle n rp]
  = final /\
  CrewSelection.steps s
    [CrewSelection.Select crew; CrewSelection.Settle (S n) rp; CrewSelection.Settle n rs]
  = final.
Proof.
  intros n final. subst n final.
  unfold CrewSelection.steps. cbn [fold_left].
  set (pre := CrewSelection.pending s).
  set (cs := CrewSelection.fetchCrewSchedule (Crew_ID crew)).
  set (cp := CrewSelection.fetchCrewPreferences (Crew_ID crew)).
  assert (E1 : nth_error (pre ++ [cs; cp]) (length pre) = Some cs)
    by apply CrewSelectionFacts.nth_error_app_at.
  assert (E2 : nth_error (pre ++ [cs; cp]) (S (length pre)) = Some cp).
  { change (pre ++ [cs; cp]) with (pre ++ [cs] ++ [cp]).
    rewrite app_assoc.
    replace (S (length pre)) with (length (pre ++ [cs]))
      by (rewrite length_app; simpl; lia).
    apply CrewSelectionFacts.nth_error_app_at. }
  assert (R1 : FlightsList.remove_nth (length pre) (pre ++ [cs; cp]) = pre ++ [cp])
    by apply CrewSelectionFacts.remove_nth_app_at.
  assert (R2 : FlightsList.remove_nth (S (length pre)) (pre ++ [cs; cp]) = pre ++ [cs]).
  { change (pre ++ [cs; cp]) with (pre ++ [cs] ++ [cp]).
    rewrite app_assoc.
    replace (S (length pre)) with (length (pre ++ [cs]))
      by (rewrite length_app; simpl; lia).
    rewrite CrewSelectionFacts.remove_nth_app_at. now rewrite app_nil_r. }
  assert (E3 : forall c, nth_error (pre ++ [c]) (length pre) = Some c)
    by (intros c; apply CrewSelectionFacts.nth_error_app_at).
  assert (R3 : forall c, FlightsList.remove_nth (length pre) (pre ++ [c]) = pre).
  { intros c. rewrite CrewSelectionFacts.remove_nth_app_at. now rewrite app_nil_r. }
  split.
  - unfold CrewSelection.step at 2. cbn [CrewSelection.step CrewSelection.handleCrewSelect
                                        CrewSelection.pending].
    fold pre cs cp. rewrite E1.
    unfold CrewSelection.step. cbn [CrewSelection.pending CrewSelection.settled
      CrewSelection.selectedCrew CrewSelection.crewSchedule CrewSelection.crewPreferences].
    rewrite R1, E3. cbn [CrewSelection.pending CrewSelection.settled
      CrewSelection.selectedCrew CrewSelection.crewSchedule CrewSelection.crewPreferences].
    now rewrite R3.
  - unfold CrewSelection.step at 2. cbn [CrewSelection.step CrewSelection.handleCrewSelect
                                        CrewSelection.pending].
    fold pre cs cp. rewrite E2.
    unfold CrewSelection.step. cbn [CrewSelection.pending CrewSelection.settled
      CrewSelection.selectedCrew CrewSelection.crewSchedule CrewSelection.crewPreferences].
    rewrite R2, E3. cbn [CrewSelection.pending CrewSelection.settled
      CrewSelection.selectedCrew CrewSelection.crewSchedule CrewSelection.crewPreferences].
    now rewrite R3.
Qed.

(** ** Roster page: generating and deleting a roster *)

Module RosterPageFacts.
Import Index RosterPage.

Lemma resources_of_events Date_getTime flights : forall k,
  map Event.resource
      (map (calendar_event Date_getTime) (combine (seq k (length flights)) flights))
  = flights /\
  map Event.id
      (map (calendar_event Date_getTime) (combine (seq k (length flights)) flights))
  = seq k (length flights).
Proof.
  induction flights as [|f flights IH]; intros k; simpl; [split; reflexivity|].
  destruct (IH (S k)) as [-> ->]. split; reflexivity.
Qed.

End RosterPageFacts.

(** A generate request replaces the roster only when it is answered with
    an [ok] status and a body that parses.  Then the roster shown is that
    body, the calendar has one event per flight of its [roster], in order
    and numbered from 0 (the events stay as they were when the body has no
    [roster]), the duty chart is derived from it, the success toast is
    raised and the history is refreshed.  In every other case (rejected
    fetch, error status, unparsable body) the roster, its charts, the
    calendar and the history stay as they were and the one toast
    'Failed to generate roster' is raised.  Either way the spinner ends
    off. *)
Theorem generate_roster_outcomes
    (native_source : jsstring -> jsstring)
    (Date_getTime : jsstring -> Num.number)
    (gen : completion (RosterPage.response Index.RosterResponse))
    (hist : completion (RosterPage.response RosterPage.history_body))
    (st : RosterPage.page) :
  let st' := RosterPage.generateRoster Date_getTime gen hist st in
  RosterPage.loading st' = false /\
  match RosterPage.accepted gen with
  | Some data =>
      RosterPage.rosterData st' = Some data /\
      RosterPage.toasts st' =
        RosterPage.toasts st
        ++ RosterPage.success (lit "Roster generated successfully!")
           :: RosterPage.refresh_toasts hist /\
      RosterPage.rosterHistory st' =
        RosterPage.refreshed hist (RosterPage.rosterHistory st) /\
      match Index.roster data with
      | Some flights =>
          map RosterPage.Event.resource (RosterPage.events st') = flights /\
          map RosterPage.Event.id (RosterPage.events st') = seq 0 (length flights) /\
          Index.getDutyHoursData Date_getTime (RosterPage.rosterData st') =
            firstn 10 (map (Index.duty_entry Date_getTime) flights)
      | None =>
          RosterPage.events st' = RosterPage.events st /\
          Index.getDutyHoursData Date_getTime (RosterPage.rosterData st') = []
      end
  | None =>
      RosterPage.rosterData st' = RosterPage.rosterData st /\
      RosterPage.rosterHistory st' = RosterPage.rosterHistory st /\
      RosterPage.events st' = RosterPage.events st /\
      RosterPage.toasts st' =
        RosterPage.toasts st ++ [RosterPage.error (lit "Failed to generate roster")] /\
      Index.getViolationsByCategory native_source (RosterPage.rosterData st') =
        Index.getViolationsByCategory native_source (RosterPage.rosterData st) /\
      Index.getDutyHoursData Date_getTime (RosterPage.rosterData st') =
        Index.getDutyHoursData Date_getTime (RosterPage.rosterData st)
  end.
Proof.
  intros st'. subst st'.
  unfold RosterPage.generateRoster, RosterPage.accepted.
  destruct gen as [[okay body]|e]; cbn [RosterPage.ok RosterPage.json negb].
  2:{ split; [reflexivity|]. repeat split. }
  destruct okay; cbn [negb].
  2:{ split; [reflexivity|]. repeat split. }
  destruct body as [data|e].
  2:{ split; [reflexivity|]. repeat split. }
  unfold RosterPage.fetchRosterHistory, RosterPage.body_of,
         RosterPage.refreshed, RosterPage.refresh_toasts.
  assert (Ev : forall flights,
             map RosterPage.Event.resource
                 (RosterPage.calendarEvents Date_getTime flights) = flights /\
             map RosterPage.Event.id
                 (RosterPage.calendarEvents Date_getTime flights)
             = seq 0 (length flights)).
  { intros flights. apply RosterPageFacts.resources_of_events. }
  destruct hist as [[okay' [h|e']]|e']; cbn [bind RosterPage.json];
    (split; [reflexivity|]);
    (split; [reflexivity|]);
    (split; [simpl; now rewrite <- ?app_assoc|]);
    (split; [reflexivity|]);
    simpl; destruct (Index.roster data) as [flights|] eqn:R;
    try (destruct (Ev flights) as [E1 E2]; split; [exact E1|split; [exact E2|]]);
    try (split; [reflexivity|]);
    unfold Index.getDutyHoursData; cbn [RosterPage.rosterData]; rewrite ?R; reflexivity.
Qed.

(** A delete request is taken as done only when it is answered with an
    [ok] status: then the success toast is raised and the history is
    refreshed (a failing refresh leaves the deleted roster listed, under the
    toast 'Failed to fetch roster history').  On a rejected fetch or an
    error status the history is not refreshed and the one toast
    'Failed to delete roster' is raised.  The roster shown, the calendar
    and the spinner are never touched. *)
Theorem delete_roster_outcomes
    (A : Type) (del : completion (RosterPage.response A))
    (hist : completion (RosterPage.response RosterPage.history_body))
    (st : RosterPage.page) :
  let st' := RosterPage.deleteRoster del hist st in
  RosterPage.rosterData st' = RosterPage.rosterData st /\
  RosterPage.events st' = RosterPage.events st /\
  RosterPage.loading st' = RosterPage.loading st /\
  if RosterPage.deleted del then
    RosterPage.rosterHistory st' =
      RosterPage.refreshed hist (RosterPage.rosterHistory st) /\
    RosterPage.toasts st' =
      RosterPage.toasts st
      ++ RosterPage.success (lit "Roster deleted successfully")
         :: RosterPage.refresh_toasts hist
  else
    RosterPage.rosterHistory st' = RosterPage.rosterHistory st /\
    RosterPage.toasts st' =
      RosterPage.toasts st ++ [RosterPage.error (lit "Failed to delete roster")].
Proof.
  intros st'. subst st'.
  unfold RosterPage.deleteRoster, RosterPage.deleted.
  destruct del as [[okay body]|e]; cbn [RosterPage.ok negb];
    [destruct okay; cbn [negb]|]; try (repeat split; fail).
  unfold RosterPage.fetchRosterHistory, RosterPage.body_of,
         RosterPage.refreshed, RosterPage.refresh_toasts.
  destruct hist as [[okay' [h|e']]|e']; cbn [bind RosterPage.json];
    simpl; rewrite <- ?app_assoc; repeat split.
Qed.

(** ** System status: the span of the flight data *)

Module DateRangeFacts.
Import Num NumFacts SystemStatus.

Lemma day_in_ms :
  mul (mul (mul (of_Z 1000) (of_Z 60)) (of_Z 60)) (of_Z 24)
  = S754_finite false 5798205849600000 (-26).
Proof. vm_compute. reflexivity. Qed.

Lemma Math_ceil_nonneg x :
  has_sign false x = true -> has_sign false (Math_ceil x) = true.
Proof.
  destruct x as [[]|[]| |[] m e]; try (simpl; discriminate); try reflexivity.
  intros _. unfold Math_ceil. destruct (Z.leb_spec 0 e) as [|He]; [reflexivity|].
  set (d := (2 ^ (- e))%Z).
  destruct (Z.eqb_spec (- (- Z.pos m / d)) 0) as [_|Hn]; [reflexivity|].
  apply of_Z_positive.
  assert (0 < d)%Z by (apply Z.pow_pos_nonneg; lia).
  assert (- Z.pos m / d < 0)%Z by (apply Z.div_lt_upper_bound; lia).
  lia.
Qed.

Lemma add_nonneg x m e :
  has_sign false x = true ->
  has_sign false (add x (S754_finite false m e)) = true.
Proof.
  destruct x as [[]|[]| |[] mx ex]; simpl; try discriminate; trivial.
  intros _. apply binary_round_sign.
Qed.

Lemma of_Z_1 : of_Z 1 = S754_finite false 4503599627370496 (-52).
Proof. vm_compute. reflexivity. Qed.

End DateRangeFacts.

(** The span shown on the status card.  With no date range it is 0.  For a
    range whose two dates have finite time values: when they are equal the
    span is exactly 1 day, and when the first is before the last the span
    is a number that is not negative (never NaN).  When either date does
    not parse, the span is NaN. *)
Theorem date_range_days
    (Date_getTime : jsstring -> Num.number)
    (data : SystemStatus.SystemData) (range : SystemStatus.DateRange) :
  SystemStatus.flights_date_range data = Some range ->
  let start_ := Date_getTime (SystemStatus.min range) in
  let end_ := Date_getTime (SystemStatus.max range) in
  let days := SystemStatus.getDateRangeDays Date_getTime (Some data) in
  (Num.is_finite start_ = true -> start_ = end_ -> days = Num.of_Z 1) /\
  (Num.is_finite start_ = true -> Num.is_finite end_ = true ->
   Num.valid start_ = true -> Num.valid end_ = true ->
   Num.ltb start_ end_ = true ->
   Num.has_sign false days = true /\ Num.leb Num.zero days = true) /\
  (start_ = S754_nan \/ end_ = S754_nan -> days = S754_nan) /\
  SystemStatus.getDateRangeDays Date_getTime None = Num.zero /\
  (forall c f,
     SystemStatus.getDateRangeDays Date_getTime
       (Some {| SystemStatus.crew_count := c; SystemStatus.flights_count := f;
                SystemStatus.flights_date_range := None |}) = Num.zero).
Proof.
  intros Hr start_ end_ days.
  assert (E : days =
              Num.add (SystemStatus.Math_ceil
                         (Num.div (Num.sub end_ start_)
                                  (S754_finite false 5798205849600000 (-26))))
                      (S754_finite false 4503599627370496 (-52))).
  { subst days. unfold SystemStatus.getDateRangeDays. rewrite Hr.
    now rewrite DateRangeFacts.day_in_ms, DateRangeFacts.of_Z_1. }
  split; [|split; [|split; [|split]]].
  - intros F Heq. rewrite E, <- Heq, (NumFacts.sub_diag start_ F).
    vm_compute. reflexivity.
  - intros Fs Fe Vs Ve Hlt.
    assert (S : Num.has_sign false days = true).
    { rewrite E. apply DateRangeFacts.add_nonneg, DateRangeFacts.Math_ceil_nonneg,
        NumFacts.div_nonneg.
      now apply NumFacts.sub_positive. }
    split; [exact S|]. now apply DutyHoursFacts.nonneg_leb.
  - intros [H|H]; rewrite E, H.
    + destruct end_ as [[]|[]| |[] m e]; reflexivity.
    + reflexivity.
  - reflexivity.
  - reflexivity.
Qed.

Lemma date_range_days_witness :
  SystemStatus.getDateRangeDays sample_getTime (Some one_day_status) = Num.of_Z 1.
Proof.
  exact (proj1 (@date_range_days sample_getTime one_day_status _ eq_refl)
           eq_refl eq_refl).
Defined.

(** ** Roster page: two runs *)

(** An error status is a failure even when the body parses: the page is
    left as it was, under the error toast. *)
Example generation_refused_by_status :
  RosterPage.generateRoster sample_getTime refused_generation history_down
    empty_roster_page
  = RosterPage.raise (RosterPage.error (lit "Failed to generate roster"))
      empty_roster_page.
Proof. reflexivity. Qed.

(** A generation that succeeds while the history refresh fails: the roster
    is shown, under the success toast and then the history toast. *)
Example generation_granted_history_down :
  let st := RosterPage.generateRoster sample_getTime granted_generation history_down
              empty_roster_page in
  RosterPage.rosterData st = Some short_duty_roster /\
  RosterPage.toasts st =
    [RosterPage.success (lit "Roster generated successfully!");
     RosterPage.error (lit "Failed to fetch roster history")] /\
  map RosterPage.Event.id (RosterPage.events st) = [0%nat].
Proof. repeat split. Qed.

(** ** Violations by category: the order of the categories *)

Module CategoryOrderFacts.
Import JSObject Index HistogramFacts ViolationTally CategoryOrder.

Lemma mem_str_keys o k : mem_str k (map fst o) = match own o k with
                                                   | Some _ => true
                                                   | None => false
                                                   end.
Proof.
  induction o as [|[k' v'] o IH]; simpl; trivial.
  destruct (str_eqb k k'); simpl; trivial.
Qed.

Lemma update_keys_order o k v :
  map fst (update o k v) =
  if mem_str k (map fst o) then map fst o else map fst o ++ [k].
Proof.
  induction o as [|[k' v'] o IH]; simpl; trivial.
  destruct (str_eqb k k') eqn:E; simpl; trivial.
  rewrite IH. now destruct (mem_str k (map fst o)).
Qed.

Lemma ordinary_plain v : ordinary v = true -> plain_category v.
Proof.
  unfold ordinary, plain_category. intros H.
  apply andb_true_iff in H as [H _]. now apply negb_true_iff in H.
Qed.

Lemma ordinary_no_index v :
  ordinary v = true -> array_index (category v) = None.
Proof.
  unfold ordinary. intros H. apply andb_true_iff in H as [_ H].
  now destruct (array_index (category v)).
Qed.

Section Reducer.

Variable native_source : jsstring -> jsstring.

Lemma reduce_keys vs : forall acc,
  counts_only acc -> forallb ordinary vs = true ->
  map fst (fold_left (count_violation native_source) vs acc)
  = map fst acc ++ distinct (map fst acc) (map category vs).
Proof.
  induction vs as [|v vs IH]; intros acc Ho Hv; simpl.
  - now rewrite app_nil_r.
  - simpl in Hv. apply andb_true_iff in Hv as [Hv Hvs].
    pose proof (ordinary_plain v Hv) as Hp.
    destruct (count_violation_plain native_source Ho Hp) as [Ho' _].
    rewrite (IH _ Ho' Hvs).
    rewrite (HistogramCounts.count_violation_is_update native_source Ho Hp).
    rewrite update_keys_order.
    destruct (mem_str (category v) (map fst acc)); trivial.
    now rewrite <- app_assoc.
Qed.

End Reducer.

(** With no array-index key, [Object.entries] is the creation order. *)
Lemma entries_creation_order o :
  Forall (fun kv => array_index (fst kv) = None) o -> entries o = o.
Proof.
  intros H. unfold entries.
  assert (I : index_entries o = []).
  { unfold index_entries. induction H as [|[k v] o Hk _ IH]; simpl; trivial.
    simpl in Hk. now rewrite Hk. }
  assert (S : string_entries o = o).
  { unfold string_entries. induction H as [|[k v] o Hk _ IH]; simpl; trivial.
    simpl in Hk. rewrite Hk. simpl. f_equal. apply IH.
    unfold index_entries in I. simpl in I. simpl in Hk. rewrite Hk in I. exact I. }
  now rewrite I, S.
Qed.

Lemma distinct_in seen l k :
  In k (distinct seen l) -> In k l.
Proof.
  revert seen. induction l as [|a l IH]; intros seen; simpl; [tauto|].
  destruct (mem_str a seen).
  - intros H. right. now apply (IH seen).
  - intros [->|H]; [now left|]. right. now apply (IH (seen ++ [a])).
Qed.

End CategoryOrderFacts.

(** For violations whose categories are neither names of
    [Object.prototype] nor array indices (all-digit names such as ['7'],
    which [Object.entries] moves to the front), the histogram lists the
    categories in the order in which each first occurs among the
    violations: the order of the slices of the chart is the order of first
    appearance. *)
Theorem histogram_lists_categories_by_first_occurrence
    (native_source : jsstring -> jsstring)
    (r : option (list Index.FlightData)) (vs : list Index.Violation) :
  forallb CategoryOrder.ordinary vs = true ->
  map Index.name
    (Index.getViolationsByCategory native_source
       (Some {| Index.roster := r; Index.violations := Some vs |}))
  = CategoryOrder.distinct [] (map Index.category vs).
Proof.
  intros Hv. unfold Index.getViolationsByCategory; simpl.
  rewrite map_map. simpl.
  pose proof (@CategoryOrderFacts.reduce_keys native_source vs []
                (Forall_nil _) Hv) as K.
  simpl in K.
  set (o := fold_left (Index.count_violation native_source) vs []) in *.
  rewrite CategoryOrderFacts.entries_creation_order; [exact K|].
  apply Forall_forall. intros [k v] Hin. simpl.
  assert (Hk : In k (map fst o)) by (apply in_map_iff; now exists (k, v)).
  rewrite K in Hk. apply CategoryOrderFacts.distinct_in in Hk.
  apply in_map_iff in Hk as (x & <- & Hx).
  apply CategoryOrderFacts.ordinary_no_index.
  exact (proj1 (forallb_forall _ _) Hv x Hx).
Qed.

Lemma histogram_lists_categories_by_first_occurrence_witness :
  let v c := {| Index.type := lit "t"; Index.category := lit c;
                Index.message := lit "m" |} in
  map Index.name
    (Index.getViolationsByCategory (fun s => s)
       (Some {| Index.roster := None;
                Index.violations :=
                  Some [v "Rest"; v "DutyTime"; v "Rest"; v "Fatigue"]%string |}))
  = [lit "Rest"; lit "DutyTime"; lit "Fatigue"].
Proof.
  intros v.
  exact (@histogram_lists_categories_by_first_occurrence (fun s => s) None
           [v "Rest"; v "DutyTime"; v "Rest"; v "Fatigue"]%string eq_refl).
Defined.

(** A category that is an array index jumps the queue: ['7'] is listed
    before ['Rest'] although it occurs after it. *)
Example histogram_index_category_comes_first :
  let v c := {| Index.type := lit "t"; Index.category := lit c;
                Index.message := lit "m" |} in
  map Index.name
    (Index.getViolationsByCategory (fun s => s)
       (Some {| Index.roster := None;
                Index.violations := Some [v "Rest"; v "7"]%string |}))
  = [lit "7"; lit "Rest"].
Proof. reflexivity. Qed.

(** ** Flights list: the spinner *)

(** In the flights list the spinner is on exactly while a request is
    awaited, and at most one request is awaited at a time: this holds of the
    component as mounted and after any sequence of parameter changes and
    answers (parsed or failed). *)
Theorem flights_spinner_on_exactly_while_awaited
    (s : FlightsList.page) (es : list FlightsList.event) :
  FlightsFetch.coherent s ->
  let now_ := FlightsList.steps s es in
  (FlightsList.loading now_ = true <-> FlightsList.awaited now_ <> []) /\
  (length (FlightsList.awaited now_) <= 1)%nat /\
  FlightsFetch.coherent (FlightsList.steps FlightsFetch.mounted es).
Proof.
  intros H now_.
  assert (C : FlightsFetch.coherent now_)
    by (apply FlightsFetchFacts.steps_coherent; exact H).
  split; [|split].
  - destruct C as [[L A]|[L A]]; rewrite L, A; split; congruence.
  - destruct C as [[_ A]|[_ A]]; rewrite A; simpl; lia.
  - apply FlightsFetchFacts.steps_coherent. left. split; reflexivity.
Qed.

Lemma flights_spinner_on_exactly_while_awaited_witness :
  FlightsList.loading
    (FlightsList.steps FlightsFetch.mounted
       [FlightsList.Settle 0 (Normal (flights_data "6E202" "BLR"));
        FlightsList.SetParams (page_params 1 "DEL")]) = true.
Proof.
  apply (proj2 (proj1 (@flights_spinner_on_exactly_while_awaited FlightsFetch.mounted
                  [FlightsList.Settle 0 (Normal (flights_data "6E202" "BLR"));
                   FlightsList.SetParams (page_params 1 "DEL")]
                  (or_introl (conj eq_refl eq_refl))))).
  discriminate.
Defined.
